(** * Page objects of wdio-vscode-service over a modelled WebDriver session

    The page objects of the repository are thin method sets over the element
    API of the automation driver.  The driver, the host UI and the locator
    tables are external collaborators: they are modelled by a [Dom] that
    answers element queries, and by a [Host] that says how the UI reacts to
    an interaction and what the methods that live outside the modelled
    classes return.  Every method is an [M]-computation: it threads the
    session (the live DOM and the trace of driver round-trips) and settles
    like a promise.

    Conventions.  Numbers are binary64 floating-point values and unary plus
    on a text follows ECMAScript's StringToNumber.  Texts are byte strings
    holding UTF-8; they are only compared, searched and tested for
    emptiness.  The page changes when the host reacts to an interaction and
    at no other moment.  A lookup that finds nothing resolves to a reference
    to a missing element, and a command on such a reference rejects; a
    command on an element that was found is answered. *)

From Stdlib Require Import SpecFloat PrimFloat FloatOps.
From Stdlib Require Import List String Ascii ZArith NArith Bool Arith Lia.
Import ListNotations.
Local Open Scope string_scope.
Local Open Scope list_scope.

(** ** JavaScript values *)

(** Numbers are what they are in JavaScript: IEEE 754 binary64 values with
    one NaN, two zeros and two infinities; arithmetic rounds to nearest,
    ties to even.  They are the machine floats of the kernel, so a number
    of the model is a double and nothing else. *)
Definition jsnum : Type := PrimFloat.float.

Definition JNaN : jsnum := PrimFloat.nan.

(** The double that a value computed on sign, mantissa and exponent
    stands for. *)
Definition double (x : spec_float) : jsnum := FloatOps.SF2Prim x.

(** The number nearest to an integer (the integer itself up to 2^53). *)
Definition JNum (z : Z) : jsnum := double (binary_normalize 53 1024 z 0 false).

(** [a > b], [a < b], [a <= b]: false as soon as one side is NaN. *)
Definition js_gt (a b : jsnum) : bool := PrimFloat.ltb b a.

Definition js_lt (a b : jsnum) : bool := js_gt b a.

Definition js_le (a b : jsnum) : bool := PrimFloat.leb a b.

Definition js_add (a b : jsnum) : jsnum := PrimFloat.add a b.

(** [a === b] on numbers: NaN is not equal to itself, the two zeros are
    equal. *)
Definition js_num_eq (a b : jsnum) : bool := PrimFloat.eqb a b.

(** *** Unary plus on a text (StringToNumber of ECMAScript)

    Texts are kept as their UTF-8 bytes; [code_points] reads the code
    points back (pending continuation bytes and the bits gathered so far
    are carried along). *)
Fixpoint code_points (s : string) (pending : nat) (acc : N) : list N :=
  match s with
  | EmptyString => []
  | String c r =>
      let b := N_of_ascii c in
      match pending with
      | O =>
          if (b <? 128)%N then b :: code_points r 0 0
          else if (b <? 224)%N then code_points r 1 (b - 192)
          else if (b <? 240)%N then code_points r 2 (b - 224)
          else code_points r 3 (b - 240)
      | S O => (acc * 64 + (b - 128))%N :: code_points r 0 0
      | S n => code_points r n (acc * 64 + (b - 128))%N
      end
  end.

(** White space and line terminators: TAB, LF, VT, FF, CR, SP, NBSP,
    U+1680, U+2000..U+200A, U+2028, U+2029, U+202F, U+205F, U+3000, U+FEFF. *)
Definition StrWhiteSpaceChar (c : N) : bool :=
  existsb (N.eqb c)
          [9; 10; 11; 12; 13; 32; 160; 5760; 8232; 8233; 8239; 8287; 12288; 65279]%N
  || ((8192 <=? c) && (c <=? 8202))%N.

Fixpoint skip_white (cs : list N) : list N :=
  match cs with
  | c :: r => if StrWhiteSpaceChar c then skip_white r else cs
  | [] => []
  end.

(** The value of a digit or letter as a digit (0-9, then a-z or A-Z from 10). *)
Definition digit_value (c : N) : option Z :=
  if ((48 <=? c) && (c <=? 57))%N then Some (Z.of_N (c - 48))
  else if ((97 <=? c) && (c <=? 122))%N then Some (Z.of_N (c - 87))
  else if ((65 <=? c) && (c <=? 90))%N then Some (Z.of_N (c - 55))
  else None.

(** The longest run of digits of [radix] at the head of [cs]: its value
    on top of [acc], its length on top of [n], and what follows it. *)
Fixpoint digit_run (radix : Z) (cs : list N) (acc : Z) (n : nat) : Z * nat * list N :=
  match cs with
  | c :: r =>
      match digit_value c with
      | Some v => if (v <? radix)%Z then digit_run radix r (radix * acc + v)%Z (S n)
                  else (acc, n, cs)
      | None => (acc, n, cs)
      end
  | [] => (acc, n, [])
  end.

(** The number nearest to [m * 10^e], [m >= 0], with the sign [neg]: the
    exact integer, or the exact quotient, is rounded once. *)
Definition decimal (neg : bool) (m e : Z) : spec_float :=
  match m with
  | Zpos p =>
      if (0 <=? e)%Z then binary_round 53 1024 neg (p * Z.to_pos (10 ^ e)) 0
      else SFdiv 53 1024 (S754_finite neg p 0)
                 (S754_finite false (Z.to_pos (10 ^ (- e))) 0)
  | _ => S754_zero neg
  end.

(** [e] or [E], an optional sign, digits: the exponent and what follows;
    anything else is no exponent part and is left where it is. *)
Definition ExponentPart (cs : list N) : Z * list N :=
  match cs with
  | c :: r =>
      if ((c =? 101) || (c =? 69))%N then
        let '(neg, r1) :=
          match r with
          | s :: r' => if (s =? 45)%N then (true, r')
                       else if (s =? 43)%N then (false, r') else (false, r)
          | [] => (false, r)
          end in
        let '(v, n, rest) := digit_run 10 r1 0 0 in
        if (0 <? n)%nat then (if neg then (- v)%Z else v, rest) else (0%Z, cs)
      else (0%Z, cs)
  | [] => (0%Z, cs)
  end.

(** The code points of [Infinity]. *)
Definition Infinity_points : list N := [73; 110; 102; 105; 110; 105; 116; 121]%N.

Fixpoint prefix_rest (p cs : list N) : option (list N) :=
  match p, cs with
  | [], _ => Some cs
  | a :: p', c :: r => if (a =? c)%N then prefix_rest p' r else None
  | _ :: _, [] => None
  end.

(** [Infinity], or digits with an optional fraction and an optional
    exponent, at least one digit before or after the point. *)
Definition StrUnsignedDecimalLiteral (neg : bool) (cs : list N) : spec_float * list N :=
  match prefix_rest Infinity_points cs with
  | Some rest => (S754_infinity neg, rest)
  | None =>
      let '(i, ni, r1) := digit_run 10 cs 0 0 in
      let '(m, nf, r2) :=
        match r1 with
        | c :: r => if (c =? 46)%N then digit_run 10 r i 0 else (i, 0%nat, r1)
        | [] => (i, 0%nat, r1)
        end in
      if (0 <? ni + nf)%nat then
        let '(e, r3) := ExponentPart r2 in
        (decimal neg m (e - Z.of_nat nf), r3)
      else (S754_nan, cs)
  end.

(** The digits after [0x], [0o] or [0b]. *)
Definition NonDecimalIntegerLiteral (radix : Z) (cs : list N) : spec_float * list N :=
  let '(v, n, rest) := digit_run radix cs 0 0 in
  if (0 <? n)%nat then (binary_normalize 53 1024 v 0 false, rest) else (S754_nan, cs).

(** A hexadecimal, octal or binary integer (unsigned), or a decimal
    literal with an optional sign. *)
Definition StrNumericLiteral (cs : list N) : spec_float * list N :=
  match cs with
  | 48%N :: x :: r =>
      if ((x =? 120) || (x =? 88))%N then NonDecimalIntegerLiteral 16 r
      else if ((x =? 111) || (x =? 79))%N then NonDecimalIntegerLiteral 8 r
      else if ((x =? 98) || (x =? 66))%N then NonDecimalIntegerLiteral 2 r
      else StrUnsignedDecimalLiteral false cs
  | 45%N :: r => StrUnsignedDecimalLiteral true r
  | 43%N :: r => StrUnsignedDecimalLiteral false r
  | _ => StrUnsignedDecimalLiteral false cs
  end.

(** White space around the literal is dropped; a text of white space only
    is 0; a text that is not one literal is NaN. *)
Definition StringToNumber (s : string) : jsnum :=
  match skip_white (code_points s 0 0) with
  | [] => JNum 0
  | cs =>
      let '(v, rest) := StrNumericLiteral cs in
      if forallb StrWhiteSpaceChar rest then double v else JNaN
  end.

(** Unary plus on an attribute or text value ([string | null]): [+null] is 0. *)
Definition to_number (v : option string) : jsnum :=
  match v with
  | None => JNum 0
  | Some s => StringToNumber s
  end.

(** [s === t] on [string | null]. *)
Definition js_str_eq (a b : option string) : bool :=
  match a, b with
  | Some x, Some y => String.eqb x y
  | None, None => true
  | _, _ => false
  end.

(** [text.indexOf(key)]: position of the first occurrence, -1 when absent. *)
Definition indexOf (text key : string) : Z :=
  match String.index 0 key text with
  | Some n => Z.of_nat n
  | None => (-1)%Z
  end.

(** ** The DOM and the driver *)

Definition Element := nat.

(** Keys of the locator tables (the selectors themselves are data of the
    host version and stay abstract). *)
Module locators.
Inductive Locator : Type :=
| inputBox | input | quickPickPosition (n : Z) | quickPickIndex (n : Z)
| quickPickSelectAll | quickPickLabel | quickPickDescription
| titleBar | title | backButton | lastRow
| inputField | multiScmProvider | singleScmProvider | multiProviderItem
| stagedChanges | changes | changeCount | itemLevel (depth : jsnum)
| itemIndex (i : jsnum) | action
| row | closeBtn | clear
| message | details | buttonContainer | button | closeButton
| launchCombo | launchSelect | launchOption | optionByName (name : string)
| startButton.
End locators.
Definition Locator : Type := locators.Locator.

(** What the live page answers at one moment. [query scope l] lists the
    elements below [scope] matching [l], in DOM order. *)
Record Dom : Type := mkDom {
  query : Element -> Locator -> list Element;
  attribute : Element -> string -> option string;
  text : Element -> string;
  displayed : Element -> bool;
  enabled : Element -> bool;
  selected : Element -> bool
}.

(** The value passed to [addValue]: a text (as it is at run time, where a
    [string] may be [null]) or a list of key names. *)
Inductive Keys : Type :=
| Text (s : option string)
| Chord (ks : list string).

(** One round-trip to the driver (or, for [ClipboardWrite] and [Sleep], one
    awaited call outside it).  [Call m e] and [Act m e] stand for an awaited
    call of a method [m] that is defined outside the modelled classes, taken
    as one step: [Call] for a method that reads the page, [Act] for one that
    acts on it. *)
Inductive Command : Type :=
| FindAll (scope : Element) (l : Locator)
| FindOne (scope : Element) (l : Locator)
| GetAttribute (e : Element) (name : string)
| GetText (e : Element)
| IsDisplayed (e : Element)
| IsEnabled (e : Element)
| IsSelected (e : Element)
| Click (e : Element)
| AddValue (e : Element) (v : Keys)
| ClearValue (e : Element)
| ClipboardWrite (s : option string)
| Sleep (ms : nat)
| Call (method : string) (e : Element)
| Act (method : string) (e : Element).

Definition is_interaction (c : Command) : bool :=
  match c with
  | Click _ | AddValue _ _ | ClearValue _ | ClipboardWrite _ | Act _ _ => true
  | _ => false
  end.

(** The trace of the session: when a round-trip is issued and when its
    answer arrives. *)
Inductive Event : Type :=
| Start (c : Command)
| Finish (c : Command).

Record Session : Type := mkSession {
  dom : Dom;
  log : list Event
}.

Inductive Error : Type :=
| ElementNotFound
| TypeError
| WaitTimeout (e : Element).

(** How a promise settles; [Pending] is a promise that has not settled when
    the fuel of a loop ran out. *)
Inductive Outcome (A : Type) : Type :=
| Resolved (a : A)
| Rejected (err : Error)
| Pending.
Arguments Resolved {A} a.
Arguments Rejected {A} err.
Arguments Pending {A}.

Inductive NotificationType : Type := Info | Warning | Err | Any.

Definition NotificationType_eqb (a b : NotificationType) : bool :=
  match a, b with
  | Info, Info | Warning, Warning | Err, Err | Any, Any => true
  | _, _ => false
  end.

(** Page objects: each is bound to one element. *)
Record Input : Type := mkInput { input_elem : Element }.

Record QuickPickItem : Type := mkQuickPickItem {
  index : jsnum;
  item_elem : Element;
  item_input : Input
}.

(** The menu [openContextMenu] (ElementWithContextMenu, menu/ContextMenu)
    hands back. *)
Record ContextMenu : Type := mkContextMenu { menu_elem : Element }.

(** What lies outside the modelled classes. *)
Record Host : Type := mkHost {
(** the UI's reaction to an interaction *)
react : Command -> Dom -> Dom;
(** [Input.getQuickPicks] is abstract: the items rendered right now *)
quickPicks : Input -> Dom -> list QuickPickItem;
(** [BasePage.wait]: does the element show up in time *)
waits : Dom -> Element -> bool;
(** [Notification.getType] *)
notificationType : Dom -> Element -> NotificationType;
(** [ScmProvider.getChangeCount], inherited by the single provider *)
providerChangeCount : Dom -> Element -> bool -> jsnum;
(** [ViewTitlePart.getActions]: the action buttons of a view's title part *)
titleActions : Dom -> Element -> list Element;
(** [TitleActionButton.getTitle] *)
actionTitle : Dom -> Element -> string;
(** [ElementWithContextMenu.openContextMenu] on the "more actions" button
    of a view or of a provider *)
contextMenu : Dom -> Element -> Outcome ContextMenu
}.

(** ** Promises over the session *)

Definition M (A : Type) : Type := Session -> Outcome A * Session.

Definition ret {A} (a : A) : M A := fun s => (Resolved a, s).

Definition throw {A} (err : Error) : M A := fun s => (Rejected err, s).

Definition pending {A} : M A := fun s => (Pending, s).

Definition bind {A B} (m : M A) (k : A -> M B) : M B :=
  fun s =>
    match m s with
    | (Resolved a, s') => k a s'
    | (Rejected err, s') => (Rejected err, s')
    | (Pending, s') => (Pending, s')
    end.

Notation "x <- m ;; k" := (bind m (fun x => k))
  (at level 61, m at next level, right associativity).
Notation "m ;;; k" := (bind m (fun _ => k))
  (at level 61, right associativity).

(** [try { body } catch (err) { handler }]: only what the body throws while
    it runs (a rejection it awaited included) reaches the handler. *)
Definition try_catch {A} (body : M A) (handler : Error -> M A) : M A :=
  fun s =>
    match body s with
    | (Rejected err, s') => handler err s'
    | r => r
    end.

(** An [async] function whose body completes with [return p] for a promise
    [p]: the function's promise follows [p]. *)
Definition async_return {A} (body : M (M A)) : M A :=
  bind body (fun p => p).

(** A driver call not yet awaited: the command sent and what the page
    answers to it. *)
Record Request (A : Type) : Type := mkRequest {
  cmd : Command;
  answer : Dom -> Outcome A
}.
Arguments mkRequest {A} cmd answer.
Arguments cmd {A} r.
Arguments answer {A} r.

Section Driver.
Variable H : Host.

Definition host_step (c : Command) (d : Dom) : Dom :=
  if is_interaction c then react H c d else d.

(** [await request]: issued, answered, then the caller goes on. *)
Definition await {A} (r : Request A) : M A :=
  fun s =>
    (answer r (dom s),
     mkSession (host_step (cmd r) (dom s))
               (log s ++ [Start (cmd r); Finish (cmd r)])).

(** The answers to the requests of a [Promise.all] come in one after the
    other.  The first rejection settles the whole at once: the requests
    behind it are still unanswered then, and their answers are dropped. *)
Fixpoint settle_all {A} (rs : list (Request A)) : M (list A) :=
  match rs with
  | [] => ret []
  | r :: rest =>
      fun s =>
        let s1 := mkSession (host_step (cmd r) (dom s))
                            (log s ++ [Finish (cmd r)]) in
        match answer r (dom s) with
        | Resolved a =>
            match settle_all rest s1 with
            | (Resolved l, s2) => (Resolved (a :: l), s2)
            | (Rejected err, s2) => (Rejected err, s2)
            | (Pending, s2) => (Pending, s2)
            end
        | Rejected err => (Rejected err, s1)
        | Pending => (Pending, s1)
        end
  end.

(** [await Promise.all(xs.map(async x => request x))]: the mapped function
    is called on every element before anything is awaited, so all the
    requests are issued first; the result keeps the order of the array,
    or is the first rejection. *)
Definition promise_all {A} (rs : list (Request A)) : M (list A) :=
  fun s =>
    settle_all rs (mkSession (dom s) (log s ++ map (fun r => Start (cmd r)) rs)).

(** *** Element commands *)

Definition ElemRef := option Element.

(** [scope.$$(l)] *)
Definition find_all (scope : Element) (l : Locator) : M (list Element) :=
  await (mkRequest (FindAll scope l) (fun d => Resolved (query d scope l))).

(** [scope.$(l)]: the first match.  When nothing matches, the promise
    still resolves, to a reference to a missing element; every command on
    such a reference rejects, a further [$] or [$$] included. *)
Definition find_one (scope : ElemRef) (l : Locator) : M ElemRef :=
  match scope with
  | Some e =>
      await (mkRequest (FindOne e l) (fun d => Resolved (hd_error (query d e l))))
  | None => throw ElementNotFound
  end.

Definition on_elem {A} (r : ElemRef) (k : Element -> Request A) : M A :=
  match r with
  | Some e => await (k e)
  | None => throw ElementNotFound
  end.

Definition req_getAttribute (name : string) (e : Element) : Request (option string) :=
  mkRequest (GetAttribute e name) (fun d => Resolved (attribute d e name)).
Definition req_getText (e : Element) : Request string :=
  mkRequest (GetText e) (fun d => Resolved (text d e)).
Definition req_isDisplayed (e : Element) : Request bool :=
  mkRequest (IsDisplayed e) (fun d => Resolved (displayed d e)).
Definition req_isEnabled (e : Element) : Request bool :=
  mkRequest (IsEnabled e) (fun d => Resolved (enabled d e)).
Definition req_isSelected (e : Element) : Request bool :=
  mkRequest (IsSelected e) (fun d => Resolved (selected d e)).
Definition req_click (e : Element) : Request unit :=
  mkRequest (Click e) (fun _ => Resolved tt).
Definition req_addValue (v : Keys) (e : Element) : Request unit :=
  mkRequest (AddValue e v) (fun _ => Resolved tt).

(** [BasePage.wait()] of a page object bound to [e], resolving to the
    page object [po]. *)
Definition req_wait {A} (po : A) (e : Element) : Request A :=
  mkRequest (Call "wait" e)
            (fun d => if waits H d e then Resolved po else Rejected (WaitTimeout e)).

Definition getAttribute (r : ElemRef) (name : string) : M (option string) :=
  on_elem r (req_getAttribute name).
Definition getTextOf (r : ElemRef) : M string := on_elem r req_getText.
Definition isDisplayed (r : ElemRef) : M bool := on_elem r req_isDisplayed.
Definition isEnabled (r : ElemRef) : M bool := on_elem r req_isEnabled.
Definition isSelected (r : ElemRef) : M bool := on_elem r req_isSelected.
Definition click (r : ElemRef) : M unit := on_elem r req_click.
Definition addValue (r : ElemRef) (v : Keys) : M unit := on_elem r (req_addValue v).
Definition req_clearValue (e : Element) : Request unit :=
  mkRequest (ClearValue e) (fun _ => Resolved tt).
Definition clearValue (r : ElemRef) : M unit := on_elem r req_clearValue.

(** [scope.$$(l)] on a reference. *)
Definition find_all_in (scope : ElemRef) (l : Locator) : M (list Element) :=
  match scope with
  | Some e => find_all e l
  | None => throw ElementNotFound
  end.

(** [xs[i]] used as an element: an index past the end is [undefined], and
    a method called on it is a TypeError. *)
Definition at_index (xs : list Element) (i : nat) : M ElemRef :=
  match nth_error xs i with
  | Some e => ret (Some e)
  | None => throw TypeError
  end.

End Driver.

(** ** Workbench/input/Input.ts *)

(** [indexOrText: string | number] *)
Inductive IndexOrText : Type :=
| ByText (s : string)
| ByIndex (n : jsnum).

(** [v.length] of a [string | null]. *)
Definition length_of (v : option string) : M nat :=
  match v with
  | Some s => ret (String.length s)
  | None => throw TypeError
  end.

Module QuickPickItem.
Section Methods.
Variable H : Host.

Definition getLabel (this : QuickPickItem) : M string :=
  label <- find_one H (Some (item_elem this)) locators.quickPickLabel ;;
  getTextOf H label.

(** [try { return this.quickPickDescription$.getText(); } catch (err) { return undefined; }]:
    the promise is returned, not awaited, inside the [try]. *)
Definition getDescription (this : QuickPickItem) : M (option string) :=
  async_return
    (try_catch
       (ret (description <- find_one H (Some (item_elem this)) locators.quickPickDescription ;;
             t <- getTextOf H description ;;
             ret (Some t)))
       (fun _ => ret (ret None))).

Definition getIndex (this : QuickPickItem) : jsnum := index this.

Definition select (this : QuickPickItem) : M unit :=
  click H (Some (item_elem this)).

End Methods.
End QuickPickItem.

Module Input.
Section Methods.
Variable H : Host.

(** [this.inputBox$.$(this.locators.input)] *)
Definition input_field (this : Input) : M ElemRef :=
  box <- find_one H (Some (input_elem this)) locators.inputBox ;;
  find_one H box locators.input.

Definition getText (this : Input) : M (option string) :=
  field <- input_field this ;;
  getAttribute H field "value".

Definition getPlaceHolder (this : Input) : M (option string) :=
  field <- input_field this ;;
  getAttribute H field "placeholder".

Definition confirm (this : Input) : M unit :=
  field <- input_field this ;;
  click H field ;;;
  addValue H field (Chord ["Enter"]).

Definition cancel (this : Input) : M unit :=
  field <- input_field this ;;
  addValue H field (Chord ["Escape"]).

Definition clear (this : Input) : M unit :=
  field <- input_field this ;;
  addValue H field (Chord ["End"]) ;;;
  addValue H field (Chord ["Shift"; "Home"]) ;;;
  addValue H field (Chord ["Backspace"]) ;;;
  v <- getAttribute H field "value" ;;
  n <- length_of v ;;
  if (0 <? n)%nat then
    addValue H field (Chord ["End"]) ;;;
    addValue H field (Chord ["Shift"; "Home"]) ;;;
    addValue H field (Chord ["Backspace"])
  else ret tt.

(** [text] is declared [string]; [resetPosition] passes on what [getText]
    read, which is [null] when the field has no value attribute. *)
Definition setText (this : Input) (text : option string) : M unit :=
  field <- input_field this ;;
  clear this ;;;
  await H (mkRequest (Sleep 200) (fun _ => Resolved tt)) ;;;
  v <- getText this ;;
  n <- length_of v ;;
  (if (0 <? n)%nat then addValue H field (Chord ["End"; "Shift"; "Home"]) else ret tt) ;;;
  addValue H field (Text text) ;;;
  v' <- getText this ;;
  if negb (js_str_eq v' text) then
    await H (mkRequest (ClipboardWrite text) (fun _ => Resolved tt)) ;;;
    addValue H field (Chord ["End"]) ;;;
    addValue H field (Chord ["Shift"; "Home"]) ;;;
    addValue H field (Chord ["Control"; "v"]) ;;;
    await H (mkRequest (ClipboardWrite (Some "")) (fun _ => Resolved tt))
  else ret tt.

Definition resetPosition (this : Input) : M unit :=
  text <- getText this ;;
  clear this ;;;
  setText this text.

(** the abstract [getQuickPicks] *)
Definition getQuickPicks (this : Input) : M (list QuickPickItem) :=
  await H (mkRequest (Call "getQuickPicks" (input_elem this))
                     (fun d => Resolved (quickPicks H this d))).

(** The guard [checkboxes.length < 0]. *)
Definition no_checkboxes (checkboxes : list Element) : bool :=
  (Z.of_nat (List.length checkboxes) <? 0)%Z.

(** What follows the guard: [checkboxes[0]] is selected if it is not, and
    clicked once more to deselect all. *)
Definition toggle_first (checkboxes : list Element) (state : bool) : M unit :=
  c0 <- at_index checkboxes 0 ;;
  sel <- isSelected H c0 ;;
  (if negb sel then
     c0' <- at_index checkboxes 0 ;; click H c0'
   else ret tt) ;;;
  if negb state then
    c0'' <- at_index checkboxes 0 ;; click H c0''
  else ret tt.

Definition toggleAllQuickPicks (this : Input) (state : bool) : M unit :=
  checkboxes <- find_all H (input_elem this) locators.quickPickSelectAll ;;
  if no_checkboxes checkboxes then ret tt
  else toggle_first checkboxes state.

(** What one pass of the [for] loop hands back: the pick returned from
    inside the loop, or the value of [endReached] after the last pick. *)
Inductive ForResult : Type :=
| Return (pick : QuickPickItem)
| Done (endReached : bool).

Definition is_match (key : IndexOrText) (pick : QuickPickItem) : M bool :=
  match key with
  | ByText s =>
      text <- QuickPickItem.getLabel H pick ;;
      ret (-1 <? indexOf text s)%Z
  | ByIndex n => ret (js_num_eq n (QuickPickItem.getIndex pick))
  end.

Fixpoint for_picks (this : Input) (key : IndexOrText)
         (picks : list QuickPickItem) (endReached : bool) : M ForResult :=
  match picks with
  | [] => ret (Done endReached)
  | pick :: rest =>
      lastRow <- find_all H (input_elem this) locators.lastRow ;;
      endReached' <-
        (if (0 <? List.length lastRow)%nat then ret true
         else
           pos <- getAttribute H (Some (item_elem pick)) "aria-posinset" ;;
           size <- getAttribute H (Some (item_elem pick)) "aria-setsize" ;;
           if js_str_eq pos size then ret true else ret endReached) ;;
      found <- is_match key pick ;;
      if found then ret (Return pick)
      else for_picks this key rest endReached'
  end.

(** [while (!endReached) { ... }], entered with [endReached = false];
    [fuel] bounds the number of iterations. *)
Fixpoint while_not_end (fuel : nat) (this : Input) (field : ElemRef)
         (key : IndexOrText) : M (option QuickPickItem) :=
  match fuel with
  | O => pending
  | S fuel' =>
      picks <- getQuickPicks this ;;
      r <- for_picks this key picks false ;;
      match r with
      | Return pick => ret (Some pick)
      | Done true => ret None
      | Done false =>
          addValue H field (Chord ["PageDown"]) ;;;
          while_not_end fuel' this field key
      end
  end.

Definition findQuickPick (fuel : nat) (this : Input) (indexOrText : IndexOrText)
  : M (option QuickPickItem) :=
  field <- input_field this ;;
  first <- find_all H (input_elem this) (locators.quickPickPosition 1) ;;
  (if (List.length first <? 1)%nat then resetPosition this else ret tt) ;;;
  while_not_end fuel this field indexOrText.

Definition selectQuickPick (fuel : nat) (this : Input) (indexOrText : IndexOrText)
  : M unit :=
  pick <- findQuickPick fuel this indexOrText ;;
  match pick with
  | Some p => QuickPickItem.select H p
  | None => resetPosition this
  end.

Definition getTitle (this : Input) : M (option string) :=
  titleBar <- find_all H (input_elem this) locators.titleBar ;;
  if (0 <? List.length titleBar)%nat then
    t0 <- at_index titleBar 0 ;;
    shown <- isDisplayed H t0 ;;
    if shown then
      t0' <- at_index titleBar 0 ;;
      ttl <- find_one H t0' locators.title ;;
      t <- getTextOf H ttl ;;
      ret (Some t)
    else ret None
  else ret None.

Definition back (this : Input) : M bool :=
  titleBar <- find_all H (input_elem this) locators.titleBar ;;
  shown <- (if (0 <? List.length titleBar)%nat
            then t0 <- at_index titleBar 0 ;; isDisplayed H t0
            else ret false) ;;
  if shown then
    t0 <- at_index titleBar 0 ;;
    backBtn <- match t0 with
               | Some e => find_all H e locators.backButton
               | None => throw ElementNotFound
               end ;;
    usable <- (if (0 <? List.length backBtn)%nat
               then b0 <- at_index backBtn 0 ;; isEnabled H b0
               else ret false) ;;
    if usable then
      b0 <- at_index backBtn 0 ;;
      click H b0 ;;;
      ret true
    else ret false
  else ret false.

End Methods.
End Input.

(** [xs.findIndex(p)]: the first position where [p] holds, -1 when none. *)
Fixpoint findIndex {A} (p : A -> bool) (xs : list A) : Z :=
  match xs with
  | [] => (-1)%Z
  | x :: rest =>
      if p x then 0%Z
      else let i := findIndex p rest in
           if (i <? 0)%Z then (-1)%Z else (i + 1)%Z
  end.

(** ** dialog/ModalDialog.ts *)

Record ModalDialog : Type := mkModalDialog { dialog_elem : Element }.

Module ModalDialog.
Section Methods.
Variable H : Host.

Definition getMessage (this : ModalDialog) : M string :=
  message <- find_one H (Some (dialog_elem this)) locators.message ;;
  getTextOf H message.

Definition getDetails (this : ModalDialog) : M string :=
  details <- find_one H (Some (dialog_elem this)) locators.details ;;
  getTextOf H details.

Definition close (this : ModalDialog) : M unit :=
  closeButton <- find_one H (Some (dialog_elem this)) locators.closeButton ;;
  click H closeButton.

(** [this.buttonContainer$.$$(this.locators.button)] *)
Definition getButtons (this : ModalDialog) : M (list Element) :=
  container <- find_one H (Some (dialog_elem this)) locators.buttonContainer ;;
  match container with
  | Some c => find_all H c locators.button
  | None => throw ElementNotFound
  end.

Definition pushButton (this : ModalDialog) (title : string) : M unit :=
  buttons <- getButtons this ;;
  titles <- promise_all H (map (req_getAttribute "title") buttons) ;;
  let index := findIndex (fun value => js_str_eq value (Some title)) titles in
  if (-1 <? index)%Z then
    b <- at_index buttons (Z.to_nat index) ;;
    click H b
  else ret tt.

End Methods.
End ModalDialog.

(** ** Workbench/NotificationsCenter.ts *)

Record NotificationsCenter : Type := mkNotificationsCenter { center_elem : Element }.

(** [CenterNotification], bound to one row of the center. *)
Record Notification : Type := CenterNotification { notification_elem : Element }.

Module NotificationsCenter.
Section Methods.
Variable H : Host.

Definition close (this : NotificationsCenter) : M unit :=
  shown <- isDisplayed H (Some (center_elem this)) ;;
  if shown then
    closeBtn <- find_one H (Some (center_elem this)) locators.closeBtn ;;
    click H closeBtn
  else ret tt.

Definition clearAllNotifications (this : NotificationsCenter) : M unit :=
  clear <- find_one H (Some (center_elem this)) locators.clear ;;
  click H clear.

(** [Notification.getType] (Notification.ts) *)
Definition getType (n : Notification) : M NotificationType :=
  await H (mkRequest (Call "getType" (notification_elem n))
                     (fun d => Resolved (notificationType H d (notification_elem n)))).

Fixpoint for_rows (type : NotificationType) (elements : list Element)
         (notifications : list Notification) : M (list Notification) :=
  match elements with
  | [] => ret notifications
  | element :: rest =>
      let not := CenterNotification element in
      keep <- (if NotificationType_eqb type Any then ret true
               else t <- getType not ;; ret (NotificationType_eqb t type)) ;;
      if keep then
        n <- await H (req_wait H not element) ;;
        for_rows type rest (notifications ++ [n])
      else for_rows type rest notifications
  end.

Definition getNotifications (this : NotificationsCenter) (type : NotificationType)
  : M (list Notification) :=
  elements <- find_all H (center_elem this) locators.row ;;
  for_rows type elements [].

End Methods.
End NotificationsCenter.

(** ** The source-control view (NewScmView and its providers) *)

Record NewScmView : Type := mkNewScmView { view_elem : Element }.

(** A provider page object: its element and the view it belongs to. *)
Record ProviderObj : Type := mkProviderObj {
  provider_elem : Element;
  provider_view : NewScmView
}.

Inductive ScmProvider : Type :=
| SingleScmProvider (p : ProviderObj)
| MultiScmProvider (p : ProviderObj).

Record ScmChange : Type := mkScmChange {
  change_elem : Element;
  change_provider : ScmProvider
}.

Section ScmShared.
Variable H : Host.

(** [+await e.getAttribute(name)] *)
Definition number_attribute (e : ElemRef) (name : string) : M jsnum :=
  v <- getAttribute H e name ;;
  ret (to_number v).

(** The selection loop shared by both [getChanges]:
    [if (index > startIndex && index <= startIndex + count) elements.push(item)]. *)
Fixpoint for_items (startIndex count : jsnum) (items elements : list Element)
  : M (list Element) :=
  match items with
  | [] => ret elements
  | item :: rest =>
      index <- number_attribute (Some item) "data-index" ;;
      if js_gt index startIndex && js_le index (js_add startIndex count)
      then for_items startIndex count rest (elements ++ [item])
      else for_items startIndex count rest elements
  end.

(** [Promise.all(elements.map(async element => new ScmChange(..., element, this).wait()))] *)
Definition wrap_changes (this : ScmProvider) (elements : list Element)
  : M (list ScmChange) :=
  promise_all H (map (fun element => req_wait H (mkScmChange element this) element)
                     elements).
End ScmShared.

Module SingleScmProvider.
Section Methods.
Variable H : Host.

Definition getTitle (this : ProviderObj) : M string := ret "".

Definition getType (this : ProviderObj) : M string := ret "".

(** [view.getTitlePart().getActions()] and [button.getTitle()] belong to
    ViewTitlePart and TitleActionButton, outside these files; a button is
    known here by its element. *)
Definition takeAction (this : ProviderObj) (title : string) : M bool :=
  let view := view_elem (provider_view this) in
  buttons <- await H (mkRequest (Call "getActions" view)
                                (fun d => Resolved (titleActions H d view))) ;;
  names <- promise_all H
             (map (fun button => mkRequest (Call "getTitle" button)
                                           (fun d => Resolved (actionTitle H d button)))
                  buttons) ;;
  let index := findIndex (fun name => String.eqb name title) names in
  if (-1 <? index)%Z then
    b <- at_index buttons (Z.to_nat index) ;;
    click H b ;;;
    ret true
  else ret false.

(** [new MoreAction(this.locators, view).openContextMenu()] *)
Definition openMoreActions (this : ProviderObj) : M ContextMenu :=
  let view := view_elem (provider_view this) in
  await H (mkRequest (Act "openContextMenu" view) (fun d => contextMenu H d view)).

(** inherited from [ScmProvider] (ScmView.ts) *)
Definition getChangeCount (this : ProviderObj) (staged : bool) : M jsnum :=
  await H (mkRequest (Call "getChangeCount" (provider_elem this))
                     (fun d => Resolved (providerChangeCount H d (provider_elem this) staged))).

Definition getChanges (this : ProviderObj) (staged : bool) : M (list ScmChange) :=
  count <- getChangeCount this staged ;;
  elements <-
    (if js_gt count (JNum 0) then
       header <- (if staged
                  then find_one H (Some (provider_elem this)) locators.stagedChanges
                  else find_one H (Some (provider_elem this)) locators.changes) ;;
       startIndex <- number_attribute H header "data-index" ;;
       level <- number_attribute H header "aria-level" ;;
       let depth := js_add level (JNum 1) in
       items <- find_all H (provider_elem this) (locators.itemLevel depth) ;;
       for_items H startIndex count items []
     else ret []) ;;
  wrap_changes H (SingleScmProvider this) elements.

End Methods.
End SingleScmProvider.

Module MultiScmProvider.
Section Methods.
Variable H : Host.

Definition takeAction (this : ProviderObj) (title : string) : M bool :=
  actions <- find_all H (provider_elem this) locators.action ;;
  names <- promise_all H (map (req_getAttribute "title") actions) ;;
  let index := findIndex (fun item => js_str_eq item (Some title)) names in
  if (-1 <? index)%Z then
    a <- at_index actions (Z.to_nat index) ;;
    click H a ;;;
    ret true
  else ret false.

(** [for (const row of rows) { if (+await row.getAttribute('data-index') > index) { ...rows[0]...; return } } return 0] *)
Fixpoint for_count_rows (this : ProviderObj) (rows remaining : list Element)
         (index : jsnum) : M jsnum :=
  match remaining with
  | [] => ret (JNum 0)
  | row :: rest =>
      i <- number_attribute H (Some row) "data-index" ;;
      if js_gt i index then
        r0 <- at_index rows 0 ;;
        count <- find_one H r0 locators.changeCount ;;
        t <- getTextOf H count ;;
        ret (to_number (Some t))
      else for_count_rows this rows rest index
  end.

Definition getChangeCount (this : ProviderObj) (staged : bool) : M jsnum :=
  let locator := if staged then locators.stagedChanges else locators.changes in
  rows <- find_all H (view_elem (provider_view this)) locator ;;
  index <- number_attribute H (Some (provider_elem this)) "data-index" ;;
  for_count_rows this rows rows index.

(** [for (const item of headers) { if (+await item.getAttribute('data-index') > index) header = item }] *)
Fixpoint for_headers (headers : list Element) (index : jsnum) (header : option Element)
  : M (option Element) :=
  match headers with
  | [] => ret header
  | item :: rest =>
      i <- number_attribute H (Some item) "data-index" ;;
      if js_gt i index then for_headers rest index (Some item)
      else for_headers rest index header
  end.

Definition getChanges (this : ProviderObj) (staged : bool) : M (list ScmChange) :=
  count <- getChangeCount this staged ;;
  if js_gt count (JNum 0) then
    index <- number_attribute H (Some (provider_elem this)) "data-index" ;;
    headers <- (if staged
                then find_all H (provider_elem this) locators.stagedChanges
                else find_all H (provider_elem this) locators.changes) ;;
    header <- for_headers headers index None ;;
    match header with
    | None => ret []
    | Some h =>
        startIndex <- number_attribute H (Some h) "data-index" ;;
        level <- number_attribute H (Some h) "aria-level" ;;
        let depth := js_add level (JNum 1) in
        items <- find_all H (view_elem (provider_view this)) (locators.itemLevel depth) ;;
        elements <- for_items H startIndex count items [] ;;
        wrap_changes H (MultiScmProvider this) elements
    end
  else wrap_changes H (MultiScmProvider this) [].

(** [new MultiMoreAction(this.locators, this).openContextMenu()] *)
Definition openMoreActions (this : ProviderObj) : M ContextMenu :=
  await H (mkRequest (Act "openContextMenu" (provider_elem this))
                     (fun d => contextMenu H d (provider_elem this))).

(** [this.view.itemIndex$(index)] with [index] the provider's own
    [data-index] plus one. *)
Definition commitChanges (this : ProviderObj) (message : string) : M unit :=
  i <- number_attribute H (Some (provider_elem this)) "data-index" ;;
  let index := js_add i (JNum 1) in
  input <- find_one H (Some (view_elem (provider_view this))) (locators.itemIndex index) ;;
  clearValue H input ;;;
  addValue H input (Text (Some message)) ;;;
  addValue H input (Chord ["Control"; "Enter"]).

End Methods.
End MultiScmProvider.

Module NewScmView.
Section Methods.
Variable H : Host.

Definition getProviders (this : NewScmView) : M (list ScmProvider) :=
  inputs <- find_all H (view_elem this) locators.inputField ;;
  if (List.length inputs <? 1)%nat then ret []
  else
    providers <- find_all H (view_elem this) locators.multiScmProvider ;;
    if (List.length inputs =? 1)%nat && (List.length providers <? 1)%nat then
      single <- find_one H (Some (view_elem this)) locators.singleScmProvider ;;
      p <- on_elem H single
             (fun e => req_wait H (SingleScmProvider (mkProviderObj e this)) e) ;;
      ret [p]
    else
      elements <- find_all H (view_elem this) locators.multiProviderItem ;;
      promise_all H
        (map (fun element =>
                req_wait H (MultiScmProvider (mkProviderObj element this)) element)
             elements).

End Methods.
End NewScmView.

(** ** sidebar/debug/DebugView.ts *)

(** [getTitlePart()] belongs to SideBarView, outside these files: the title
    part of the view is a page object of its own, known here by its
    element. *)
Record DebugView : Type := mkDebugView {
  debug_elem : Element;
  titlePart_elem : Element
}.

Module DebugView.
Section Methods.
Variable H : Host.

(** [this.getTitlePart().elem.$(launchCombo)], then [action.$(launchSelect)] *)
Definition launch_select (this : DebugView) : M ElemRef :=
  action <- find_one H (Some (titlePart_elem this)) locators.launchCombo ;;
  find_one H action locators.launchSelect.

Definition getLaunchConfiguration (this : DebugView) : M (option string) :=
  combo <- launch_select this ;;
  getAttribute H combo "title".

Fixpoint for_options (options : list Element) (configs : list (option string))
  : M (list (option string)) :=
  match options with
  | [] => ret configs
  | option :: rest =>
      usable <- isEnabled H (Some option) ;;
      if usable then
        v <- getAttribute H (Some option) "value" ;;
        for_options rest (configs ++ [v])
      else for_options rest configs
  end.

Definition getLaunchConfigurations (this : DebugView) : M (list (option string)) :=
  combo <- launch_select this ;;
  options <- find_all_in H combo locators.launchOption ;;
  for_options options [].

Definition selectLaunchConfiguration (this : DebugView) (title : string) : M unit :=
  combo <- launch_select this ;;
  option <- find_one H combo (locators.optionByName title) ;;
  click H option.

Definition start (this : DebugView) : M unit :=
  action <- find_one H (Some (titlePart_elem this)) locators.launchCombo ;;
  startButton <- find_one H action locators.startButton ;;
  click H startButton.

End Methods.
End DebugView.

(** * Traces, runs and what the statements speak of *)

Definition cmd_of (e : Event) : Command :=
  match e with Start c | Finish c => c end.

(** Interactions issued in a trace, in order. *)
Fixpoint interactions (evs : list Event) : list Command :=
  match evs with
  | [] => []
  | Start c :: rest =>
      if is_interaction c then c :: interactions rest else interactions rest
  | Finish _ :: rest => interactions rest
  end.

(** Elements clicked in a trace, in order. *)
Fixpoint clicks (evs : list Event) : list Element :=
  match evs with
  | [] => []
  | Start (Click e) :: rest => e :: clicks rest
  | _ :: rest => clicks rest
  end.

(** Round-trips in flight after a trace that began with [cur] of them open,
    and the largest number open at any moment of it. *)
Fixpoint end_depth (cur : nat) (evs : list Event) : nat :=
  match evs with
  | [] => cur
  | Start _ :: rest => end_depth (S cur) rest
  | Finish _ :: rest => end_depth (pred cur) rest
  end.

Fixpoint peak_from (cur : nat) (evs : list Event) : nat :=
  match evs with
  | [] => cur
  | Start _ :: rest => Nat.max cur (peak_from (S cur) rest)
  | Finish _ :: rest => Nat.max cur (peak_from (pred cur) rest)
  end.

Definition in_flight (evs : list Event) : nat := peak_from 0 evs.

(** A trace that leaves nothing open and never has more than [n] round-trips
    in flight. *)
Definition at_most (n : nat) (evs : list Event) : Prop :=
  end_depth 0 evs = 0%nat /\ (in_flight evs <= n)%nat.

Definition reads_only (evs : list Event) : Prop :=
  Forall (fun e => is_interaction (cmd_of e) = false) evs.

(** The trace of a [Promise.all] over [xs]: every request out, then every
    answer in. *)
Definition all_trace {A} (f : A -> Command) (xs : list A) : list Event :=
  map (fun x => Start (f x)) xs ++ map (fun x => Finish (f x)) xs.

(** The trace of a [Promise.all] over [xs] that settled after [k] answers:
    every request out, then the first [k] answers in. *)
Definition gather_trace {A} (f : A -> Command) (xs : list A) (k : nat) : list Event :=
  map (fun x => Start (f x)) xs ++ map (fun x => Finish (f x)) (firstn k xs).

(** Properties of traces that hold of the empty trace and of the
    concatenation of two traces that have them. *)
Class TraceInv (P : list Event -> Prop) : Prop := {
  inv_nil : P [];
  inv_app : forall a b, P a -> P b -> P (a ++ b)
}.

Section Runs.
Variable H : Host.

(** The page after a trace: every answered interaction has had its effect. *)
Fixpoint replay (evs : list Event) (d : Dom) : Dom :=
  match evs with
  | [] => d
  | Start _ :: rest => replay rest d
  | Finish c :: rest => replay rest (host_step H c d)
  end.

(** [Exec d m r d' evs]: started on page [d], whatever was logged before,
    [m] settles as [r], leaves page [d'] and adds [evs] to the trace. *)
Definition Exec {A} (d : Dom) (m : M A) (r : Outcome A) (d' : Dom)
           (evs : list Event) : Prop :=
  forall l, m (mkSession d l) = (r, mkSession d' (l ++ evs)).

(** [Traced P m]: on every page [m] settles somehow, and the trace it
    adds has property [P]. *)
Definition Traced {A} (P : list Event -> Prop) (m : M A) : Prop :=
  forall d, exists r evs, Exec d m r (replay evs d) evs /\ P evs.

End Runs.

(** The rows [getNotifications(type)] keeps. *)
Definition kept (H : Host) (d : Dom) (type : NotificationType) (e : Element) : bool :=
  NotificationType_eqb type Any || NotificationType_eqb (notificationType H d e) type.

(** [startIndex < i && i <= startIndex + count], as JavaScript compares. *)
Definition in_range (startIndex count i : jsnum) : bool :=
  js_lt startIndex i && js_le i (js_add startIndex count).

(** [+row.getAttribute('data-index')] on page [d]. *)
Definition data_index (d : Dom) (e : Element) : jsnum :=
  to_number (attribute d e "data-index").

(** [+header.getAttribute('aria-level') + 1] on page [d]. *)
Definition child_level (d : Dom) (header : Element) : jsnum :=
  js_add (to_number (attribute d header "aria-level")) (JNum 1).

(** The header [MultiScmProvider.getChanges] ends up with: each header row
    after the provider replaces the one before. *)
Definition pick_header (d : Dom) (index : jsnum) (headers : list Element)
           (header : option Element) : option Element :=
  fold_left (fun acc item => if js_gt (data_index d item) index then Some item else acc)
            headers header.

(** What [MultiScmProvider.getChangeCount] settles to on page [d]. *)
Definition count_on (d : Dom) (this : ProviderObj) (staged : bool) : Outcome jsnum :=
  let rows := query d (view_elem (provider_view this))
                    (if staged then locators.stagedChanges else locators.changes) in
  if existsb (fun row => js_gt (data_index d row) (data_index d (provider_elem this))) rows
  then match rows with
       | r0 :: _ =>
           match hd_error (query d r0 locators.changeCount) with
           | Some c => Resolved (to_number (Some (text d c)))
           | None => Rejected ElementNotFound
           end
       | [] => Rejected TypeError
       end
  else Resolved (JNum 0).

(** The paging key press of [findQuickPick]. *)
Definition is_page_down (c : Command) : bool :=
  match c with
  | AddValue _ (Chord [k]) => String.eqb k "PageDown"
  | _ => false
  end.

(** How often PageDown is pressed in a trace. *)
Fixpoint page_downs (evs : list Event) : nat :=
  match evs with
  | [] => 0
  | Start c :: rest => if is_page_down c then S (page_downs rest) else page_downs rest
  | Finish _ :: rest => page_downs rest
  end.

Definition no_page_down (evs : list Event) : Prop := page_downs evs = 0%nat.

(** The end test made while [pick] is examined. *)
Definition sees_end (d : Dom) (this : Input) (pick : QuickPickItem) : bool :=
  (0 <? List.length (query d (input_elem this) locators.lastRow))%nat
  || js_str_eq (attribute d (item_elem pick) "aria-posinset")
               (attribute d (item_elem pick) "aria-setsize").

(** The label text of [pick] on page [d], if it has a label element. *)
Definition label_on (d : Dom) (pick : QuickPickItem) : option string :=
  option_map (text d) (hd_error (query d (item_elem pick) locators.quickPickLabel)).

(** The match test: the key occurs in the label, or equals the index. *)
Definition matches (d : Dom) (key : IndexOrText) (pick : QuickPickItem) : bool :=
  match key with
  | ByText s =>
      match label_on d pick with
      | Some t => (-1 <? indexOf t s)%Z
      | None => false
      end
  | ByIndex n => js_num_eq n (index pick)
  end.

(** The label can be read when the search is by text. *)
Definition readable (d : Dom) (key : IndexOrText) (pick : QuickPickItem) : bool :=
  match key with
  | ByText _ => match label_on d pick with Some _ => true | None => false end
  | ByIndex _ => true
  end.

Section PageDefs.
Variable H : Host.
Variable this : Input.
Variable key : IndexOrText.

Definition page_match (d : Dom) : option QuickPickItem :=
  find (matches d key) (quickPicks H this d).

Definition page_end (d : Dom) : bool :=
  existsb (sees_end d this) (quickPicks H this d).

Definition page_readable (d : Dom) : bool :=
  forallb (readable d key) (quickPicks H this d).

(** A page that neither ends the scan nor holds a match. *)
Definition page_quiet (d : Dom) : Prop :=
  page_readable d = true /\ page_match d = None /\ page_end d = false.

(** The page after [k] PageDown presses in the field. *)
Definition page_after (field : Element) (k : nat) (d : Dom) : Dom :=
  Nat.iter k (react H (AddValue field (Chord ["PageDown"]))) d.

(** Where the scan starts: on the page as it is when the first position
    is rendered, otherwise on the page [resetPosition] leaves. *)
Definition scan_starts_on (d0 d : Dom) : Prop :=
  (query d0 (input_elem this) (locators.quickPickPosition 1) <> [] /\ d = d0)
  \/ (query d0 (input_elem this) (locators.quickPickPosition 1) = []
      /\ exists evs, Exec d0 (Input.resetPosition H this) (Resolved tt) d evs).

End PageDefs.

(** Any trace at all. *)
Definition any_trace (evs : list Event) : Prop := True.

(** ** What the further statements speak of *)


Definition no_click (evs : list Event) : Prop := clicks evs = [].

Definition is_clipboard (c : Command) : bool :=
  match c with ClipboardWrite _ => true | _ => false end.

(** What is written to the clipboard in a trace, in order. *)
Fixpoint clipboard_writes (evs : list Event) : list (option string) :=
  match evs with
  | [] => []
  | Start (ClipboardWrite s) :: rest => s :: clipboard_writes rest
  | _ :: rest => clipboard_writes rest
  end.

Definition no_clipboard (evs : list Event) : Prop := clipboard_writes evs = [].

(** The clipboard is left alone, or gets the text and then the empty string. *)
Definition clipboard_restored (text : option string) (evs : list Event) : Prop :=
  clipboard_writes evs = [] \/ clipboard_writes evs = [text; Some ""].

(** The page after the host has reacted to the commands [cs] in turn. *)
Definition after (H : Host) (cs : list Command) (d : Dom) : Dom :=
  fold_left (fun page c => react H c page) cs d.

(** End, Shift+Home, Backspace typed into [f]: one round of [clear]. *)
Definition select_all_delete (f : Element) : list Command :=
  [AddValue f (Chord ["End"]); AddValue f (Chord ["Shift"; "Home"]);
   AddValue f (Chord ["Backspace"])].

(** The element [this.inputBox$.$(this.locators.input)] stands for on [d]. *)
Definition field_on (d : Dom) (this : Input) : ElemRef :=
  match hd_error (query d (input_elem this) locators.inputBox) with
  | Some b => hd_error (query d b locators.input)
  | None => None
  end.

(** What looking the field up settles to: without the input box the
    chained lookup rejects, without the field in the box it resolves to a
    reference to a missing element. *)
Definition field_outcome (d : Dom) (this : Input) : Outcome ElemRef :=
  match hd_error (query d (input_elem this) locators.inputBox) with
  | Some b => Resolved (hd_error (query d b locators.input))
  | None => Rejected ElementNotFound
  end.









(** The buttons [pushButton] gets to see on page [d]. *)
Definition buttons_on (d : Dom) (this : ModalDialog) : list Element :=
  match hd_error (query d (dialog_elem this) locators.buttonContainer) with
  | Some c => query d c locators.button
  | None => []
  end.

(** A trace that leaves nothing open and had exactly one round-trip in
    flight at a time. *)
Definition one_by_one (evs : list Event) : Prop :=
  end_depth 0 evs = 0%nat /\ in_flight evs = 1%nat.

(** A run that resolved to a list had as many round-trips in flight at
    once as the list is long; [gathered_upto] leaves room for the one of a
    command awaited on its own. *)
Definition gathered {A} (r : Outcome (list A)) (evs : list Event) : Prop :=
  forall l, r = Resolved l -> in_flight evs = Nat.max 1 (List.length l).

Definition gathered_upto {A} (r : Outcome (list A)) (evs : list Event) : Prop :=
  forall l, r = Resolved l -> Nat.max 1 (in_flight evs) = Nat.max 1 (List.length l).

Section RunsOf.
Variable H : Host.

(** [TracedAs Q m]: on every page [m] settles somehow, and the outcome
    and the trace it adds are related by [Q]. *)
Definition TracedAs {A} (Q : Outcome A -> list Event -> Prop) (m : M A) : Prop :=
  forall d, exists r evs, Exec d m r (replay H evs d) evs /\ Q r evs.

(** [m] gathers the wrappers of its result with [Promise.all]. *)
Definition Gathers {A} (m : M (list A)) : Prop := TracedAs gathered m.

End RunsOf.

(** The clicks of [toggleAllQuickPicks] on checkbox [c]: one to select all
    unless it is selected, one more to deselect. *)
Definition toggle_clicks (c : Element) (wasSelected state : bool) : list Command :=
  (if wasSelected then [] else [Click c]) ++ (if state then [] else [Click c]).

(** * Sample pages and hosts *)

(** A host whose UI ignores every interaction. *)
Definition idle_host : Host :=
  mkHost (fun _ d => d) (fun _ _ => []) (fun _ _ => true)
         (fun _ e => match e with 1 => Info | 2 => Warning | 3 => Info | _ => Err end)
         (fun _ _ _ => JNum 2)
         (fun _ _ => []) (fun _ _ => "") (fun _ e => Resolved (mkContextMenu e)).

(** A dialog (element 0) whose container 1 holds Cancel, OK and a second OK. *)
Definition dialog_dom : Dom :=
  mkDom (fun e l =>
           match e, l with
           | 0, locators.buttonContainer => [1]
           | 1, locators.button => [2; 3; 4]
           | _, _ => []
           end)
        (fun e name =>
           if String.eqb name "title" then
             match e with
             | 2 => Some "Cancel"
             | 3 => Some "OK"
             | 4 => Some "OK"
             | _ => None
             end
           else None)
        (fun _ => "") (fun _ => true) (fun _ => true) (fun _ => false).

(** A notifications center (element 0) with rows 1, 2, 3. *)
Definition center_dom : Dom :=
  mkDom (fun e l =>
           match e, l with
           | 0, locators.row => [1; 2; 3]
           | _, _ => []
           end)
        (fun _ _ => None) (fun _ => "") (fun _ => true) (fun _ => true) (fun _ => false).

Definition assoc (name : string) (kvs : list (string * string)) : option string :=
  match find (fun kv => String.eqb (fst kv) name) kvs with
  | Some kv => Some (snd kv)
  | None => None
  end.

Definition row_attributes (dataIndex ariaLevel : string) : list (string * string) :=
  [("data-index", dataIndex); ("aria-level", ariaLevel)].

(** The rows of a source-control view (element 0) with two providers:
    provider 10 (row 0) with its staged header 12 (row 1, 2 changes) and the
    changes 13, 14 (rows 2, 3); provider 11 (row 4) with its staged header 15
    (row 5, 1 change) and the change 16 (row 6). *)
Definition scm_attributes (e : Element) (name : string) : option string :=
  assoc name
        match e with
        | 10 => row_attributes "0" "1"
        | 12 => row_attributes "1" "2"
        | 13 => row_attributes "2" "3"
        | 14 => row_attributes "3" "3"
        | 11 => row_attributes "4" "1"
        | 15 => row_attributes "5" "2"
        | 16 => row_attributes "6" "3"
        | _ => []
        end.

Definition scm_text (e : Element) : string :=
  match e with
  | 40 => "2"
  | 41 => "1"
  | _ => ""
  end.

Definition multi_dom : Dom :=
  mkDom (fun e l =>
           match e, l with
           | 0, locators.inputField => [20; 21]
           | 0, locators.multiScmProvider => [30]
           | 0, locators.multiProviderItem => [10; 11]
           | 0, locators.stagedChanges => [12; 15]
           | 10, locators.stagedChanges => [12]
           | 11, locators.stagedChanges => [15]
           | 0, locators.itemLevel depth =>
               if js_num_eq depth (JNum 3) then [13; 14; 16] else []
           | 12, locators.changeCount => [40]
           | 15, locators.changeCount => [41]
           | _, _ => []
           end)
        scm_attributes scm_text (fun _ => true) (fun _ => true) (fun _ => false).

(** The same rows, but the header query of provider 11 answers with header
    12, which lies before the provider. *)
Definition stray_dom : Dom :=
  mkDom (fun e l =>
           match e, l with
           | 0, locators.stagedChanges => [12; 15]
           | 11, locators.stagedChanges => [12]
           | 0, locators.itemLevel depth =>
               if js_num_eq depth (JNum 3) then [13; 14; 16] else []
           | 12, locators.changeCount => [40]
           | 15, locators.changeCount => [41]
           | _, _ => []
           end)
        scm_attributes scm_text (fun _ => true) (fun _ => true) (fun _ => false).

(** [multi_dom] with the count badge of the first staged header row
    reading "1e2". *)
Definition exponent_dom : Dom :=
  mkDom (query multi_dom) scm_attributes
        (fun e => match e with 40 => "1e2" | _ => scm_text e end)
        (fun _ => true) (fun _ => true) (fun _ => false).

(** The same rows once more, but the first staged header row (12) shows
    no change-count badge. *)
Definition badgeless_dom : Dom :=
  mkDom (fun e l =>
           match e, l with
           | 0, locators.stagedChanges => [12; 15]
           | 10, locators.stagedChanges => [12]
           | 11, locators.stagedChanges => [15]
           | 15, locators.changeCount => [41]
           | _, _ => []
           end)
        scm_attributes scm_text (fun _ => true) (fun _ => true) (fun _ => false).

(** A view (element 0) with a single provider 10: staged header 12 and the
    rows 13, 14, 16 one level below it. *)
Definition single_dom : Dom :=
  mkDom (fun e l =>
           match e, l with
           | 0, locators.inputField => [20]
           | 0, locators.singleScmProvider => [10]
           | 10, locators.stagedChanges => [12]
           | 10, locators.itemLevel depth =>
               if js_num_eq depth (JNum 3) then [13; 14; 16] else []
           | _, _ => []
           end)
        scm_attributes scm_text (fun _ => true) (fun _ => true) (fun _ => false).

(** An input box (element 0) with its field 2 (inside box 1) and nothing
    else: no title bar, no checkbox, no quick pick. *)
Definition bare_input_dom : Dom :=
  mkDom (fun e l =>
           match e, l with
           | 0, locators.inputBox => [1]
           | 1, locators.input => [2]
           | _, _ => []
           end)
        (fun e name => if String.eqb name "value" then Some "" else None)
        (fun _ => "") (fun _ => true) (fun _ => true) (fun _ => false).


(** A quick pick list shown in two pages of two items; the rows of the
    current page are the [row] elements below the input (element 0), whose
    field is element 2. *)
Definition quick_pick_attributes (e : Element) (name : string) : option string :=
  assoc name
        match e with
        | 2 => [("value", "")]
        | 10 => [("aria-posinset", "1"); ("aria-setsize", "4")]
        | 11 => [("aria-posinset", "2"); ("aria-setsize", "4")]
        | 12 => [("aria-posinset", "3"); ("aria-setsize", "4")]
        | 13 => [("aria-posinset", "4"); ("aria-setsize", "4")]
        | _ => []
        end.

Definition quick_pick_text (e : Element) : string :=
  match e with
  | 20 => "alpha"
  | 21 => "beta"
  | 22 => "gamma"
  | 23 => "delta"
  | _ => ""
  end.

Definition quick_pick_page (rows : list Element) (first : list Element) : Dom :=
  mkDom (fun e l =>
           match e, l with
           | 0, locators.inputBox => [1]
           | 1, locators.input => [2]
           | 0, locators.row => rows
           | 0, locators.quickPickPosition 1 => first
           | 10, locators.quickPickLabel => [20]
           | 11, locators.quickPickLabel => [21]
           | 12, locators.quickPickLabel => [22]
           | 13, locators.quickPickLabel => [23]
           | _, _ => []
           end)
        quick_pick_attributes quick_pick_text
        (fun _ => true) (fun _ => true) (fun _ => false).

Definition first_page : Dom := quick_pick_page [10; 11] [10].
Definition second_page : Dom := quick_pick_page [12; 13] [].

(** A host that shows the second page on PageDown; the items of a page are
    its rows, indexed by their position in the set. *)
Definition paging_host : Host :=
  mkHost (fun c d => if is_page_down c then second_page else d)
         (fun this d =>
            map (fun e => mkQuickPickItem
                            (js_add (to_number (attribute d e "aria-posinset")) (JNum (-1)))
                            e this)
                (query d (input_elem this) locators.row))
         (fun _ _ => true) (fun _ _ => Info) (fun _ _ _ => JNum 0)
         (fun _ _ => []) (fun _ _ => "") (fun _ e => Resolved (mkContextMenu e)).

(** An input with no quick pick rendered, on a page that shows the
    last-row sentinel (element 9). *)
Definition sentinel_dom : Dom :=
  mkDom (fun e l =>
           match e, l with
           | 0, locators.inputBox => [1]
           | 1, locators.input => [2]
           | 0, locators.lastRow => [9]
           | _, _ => []
           end)
        quick_pick_attributes quick_pick_text
        (fun _ => true) (fun _ => true) (fun _ => false).

(** A field (element 2) that holds "abc"; the host below empties it on
    Backspace. *)
Definition filled_input_dom : Dom :=
  mkDom (fun e l =>
           match e, l with
           | 0, locators.inputBox => [1]
           | 1, locators.input => [2]
           | _, _ => []
           end)
        (fun e name => if String.eqb name "value" then Some "abc" else None)
        (fun _ => "") (fun _ => true) (fun _ => true) (fun _ => false).

(** A host whose field is emptied by Backspace and otherwise keeps its
    value, whatever is typed. *)
Definition erasing_host : Host :=
  mkHost (fun c d =>
            match c with
            | AddValue _ (Chord ["Backspace"]) => bare_input_dom
            | _ => d
            end)
         (fun _ _ => []) (fun _ _ => true) (fun _ _ => Info) (fun _ _ _ => JNum 0)
         (fun _ _ => []) (fun _ _ => "") (fun _ e => Resolved (mkContextMenu e)).

(** An input (element 0) with a displayed title bar 3 (title 4, enabled
    back button 5) and a select-all checkbox 6 that is not selected. *)
Definition titled_input_dom : Dom :=
  mkDom (fun e l =>
           match e, l with
           | 0, locators.inputBox => [1]
           | 1, locators.input => [2]
           | 0, locators.titleBar => [3]
           | 3, locators.title => [4]
           | 3, locators.backButton => [5]
           | 0, locators.quickPickSelectAll => [6]
           | _, _ => []
           end)
        (fun e name => if String.eqb name "value" then Some "" else None)
        (fun e => match e with 4 => "Pick a folder" | _ => "" end)
        (fun _ => true) (fun _ => true) (fun _ => false).

(** A provider (element 11, row 4) with actions 50 ("Refresh") and 51
    ("Commit"), in a view (element 0) whose row 5 is the message box 60. *)
Definition actions_dom : Dom :=
  mkDom (fun e l =>
           match e, l with
           | 11, locators.action => [50; 51]
           | 0, locators.itemIndex i => if js_num_eq i (JNum 5) then [60] else []
           | _, _ => []
           end)
        (fun e name =>
           if String.eqb name "title" then
             match e with
             | 50 => Some "Refresh"
             | 51 => Some "Commit"
             | _ => None
             end
           else scm_attributes e name)
        (fun _ => "") (fun _ => true) (fun _ => true) (fun _ => false).

(** A displayed notifications center (element 0) with its close button 7. *)
Definition open_center_dom : Dom :=
  mkDom (fun e l =>
           match e, l with
           | 0, locators.closeBtn => [7]
           | _, _ => []
           end)
        (fun _ _ => None) (fun _ => "") (fun _ => true) (fun _ => true) (fun _ => false).

(** A single provider (element 10) with a positive change count (2 on the
    idle host) but no header row rendered. *)
Definition headless_dom : Dom :=
  mkDom (fun _ _ => []) scm_attributes scm_text
        (fun _ => true) (fun _ => true) (fun _ => false).

(** * Reasoning about sessions *)

(** ** Traces *)

Lemma interactions_app a b : interactions (a ++ b) = interactions a ++ interactions b.
Proof.
  induction a as [|[c|c] a IH]; simpl; auto.
  destruct (is_interaction c); simpl; now rewrite IH.
Qed.

Lemma clicks_app a b : clicks (a ++ b) = clicks a ++ clicks b.
Proof.
  induction a as [|[c|c] a IH]; simpl; auto.
  destruct c; simpl; now rewrite ?IH.
Qed.

Lemma end_depth_app a : forall b cur,
  end_depth cur (a ++ b) = end_depth (end_depth cur a) b.
Proof. induction a as [|[c|c] a IH]; simpl; intros; auto. Qed.

Lemma peak_from_app a : forall b cur,
  peak_from cur (a ++ b) = Nat.max (peak_from cur a) (peak_from (end_depth cur a) b).
Proof.
  induction a as [|[c|c] a IH]; simpl; intros.
  - assert (cur <= peak_from cur b)%nat by (destruct b as [|[?|?] ?]; simpl; lia). lia.
  - rewrite IH. lia.
  - rewrite IH. lia.
Qed.

Lemma at_most_nil n : at_most n [].
Proof. split; cbn; lia. Qed.

Lemma at_most_app n a b : at_most n a -> at_most n b -> at_most n (a ++ b).
Proof.
  intros [Ha1 Ha2] [Hb1 Hb2]. unfold at_most, in_flight in *. split.
  - now rewrite end_depth_app, Ha1.
  - rewrite peak_from_app, Ha1. lia.
Qed.

Lemma at_most_mono n m evs : (n <= m)%nat -> at_most n evs -> at_most m evs.
Proof. intros Hle [H1 H2]. split; auto. lia. Qed.

Lemma at_most_pair c : at_most 1 [Start c; Finish c].
Proof. split; cbn; lia. Qed.

Lemma end_depth_starts {A} (f : A -> Command) xs : forall cur,
  end_depth cur (map (fun x => Start (f x)) xs) = (cur + List.length xs)%nat.
Proof. induction xs; simpl; intros; [lia|]. rewrite IHxs. lia. Qed.

Lemma peak_from_starts {A} (f : A -> Command) xs : forall cur,
  peak_from cur (map (fun x => Start (f x)) xs) = (cur + List.length xs)%nat.
Proof. induction xs; simpl; intros; [lia|]. rewrite IHxs. lia. Qed.

Lemma end_depth_finishes {A} (f : A -> Command) xs : forall cur,
  end_depth cur (map (fun x => Finish (f x)) xs) = (cur - List.length xs)%nat.
Proof. induction xs; simpl; intros; [lia|]. rewrite IHxs. lia. Qed.

Lemma peak_from_finishes {A} (f : A -> Command) xs : forall cur,
  peak_from cur (map (fun x => Finish (f x)) xs) = cur.
Proof. induction xs; simpl; intros; [lia|]. rewrite IHxs. lia. Qed.

Lemma in_flight_all_trace {A} (f : A -> Command) xs :
  in_flight (all_trace f xs) = List.length xs.
Proof.
  unfold in_flight, all_trace.
  rewrite peak_from_app, peak_from_starts, end_depth_starts, peak_from_finishes. simpl. lia.
Qed.

Lemma at_most_all_trace {A} (f : A -> Command) xs :
  at_most (List.length xs) (all_trace f xs).
Proof.
  split.
  - unfold all_trace. rewrite end_depth_app, end_depth_starts, end_depth_finishes. simpl. lia.
  - rewrite in_flight_all_trace. lia.
Qed.

Lemma reads_only_nil : reads_only [].
Proof. constructor. Qed.

Lemma reads_only_app a b : reads_only a -> reads_only b -> reads_only (a ++ b).
Proof. unfold reads_only. intros. apply Forall_app. auto. Qed.

Lemma reads_only_interactions evs : reads_only evs -> interactions evs = [].
Proof.
  induction 1 as [|[c|c] evs Hc _ IH]; simpl in *; auto.
  now rewrite Hc.
Qed.

Lemma reads_only_clicks evs : reads_only evs -> clicks evs = [].
Proof.
  induction 1 as [|[c|c] evs Hc _ IH]; simpl in *; auto.
  destruct c; auto; discriminate.
Qed.

#[export] Instance at_most_inv n : TraceInv (at_most n).
Proof. split; [apply at_most_nil | apply at_most_app]. Qed.

#[export] Instance reads_only_inv : TraceInv reads_only.
Proof. split; [apply reads_only_nil | apply reads_only_app]. Qed.

Ltac reads_tac :=
  repeat first [ assumption
               | apply reads_only_nil
               | apply reads_only_app
               | apply Forall_cons; [reflexivity|]
               | apply Forall_nil ].

(** ** Runs of a computation *)

Section Exec.
Variable H : Host.

Lemma replay_app a : forall b d, replay H (a ++ b) d = replay H b (replay H a d).
Proof. induction a as [|[c|c] a IH]; simpl; intros; auto. Qed.

Lemma replay_reads evs d : reads_only evs -> replay H evs d = d.
Proof.
  intros Hr. revert d. induction Hr as [|[c|c] evs Hc _ IH]; simpl in *; intros; auto.
  unfold host_step. rewrite Hc. apply IH.
Qed.

Lemma exec_run {A} d (m : M A) r d' evs s :
  Exec d m r d' evs -> dom s = d ->
  m s = (r, mkSession d' (log s ++ evs)).
Proof. intros He <-. destruct s as [d0 l]. apply He. Qed.

Lemma exec_det {A} d (m : M A) r1 r2 d1 d2 e1 e2 :
  Exec d m r1 d1 e1 -> Exec d m r2 d2 e2 -> r1 = r2 /\ d1 = d2 /\ e1 = e2.
Proof.
  intros H1 H2. specialize (H1 []). specialize (H2 []).
  rewrite H1 in H2. simpl in H2. inversion H2. auto.
Qed.

Lemma exec_trace_eq {A} d (m : M A) r d' evs evs' :
  Exec d m r d' evs -> evs = evs' -> Exec d m r d' evs'.
Proof. now intros He <-. Qed.

Lemma exec_ret {A} d (a : A) : Exec d (ret a) (Resolved a) d [].
Proof. intros l. unfold ret. now rewrite app_nil_r. Qed.

Lemma exec_throw {A} d err : Exec d (@throw A err) (Rejected err) d [].
Proof. intros l. unfold throw. now rewrite app_nil_r. Qed.

Lemma exec_pending {A} d : Exec d (@pending A) Pending d [].
Proof. intros l. unfold pending. now rewrite app_nil_r. Qed.

Lemma exec_bind {A B} d (m : M A) (k : A -> M B) a d1 e1 r d2 e2 :
  Exec d m (Resolved a) d1 e1 -> Exec d1 (k a) r d2 e2 ->
  Exec d (bind m k) r d2 (e1 ++ e2).
Proof.
  intros Hm Hk l. unfold bind. rewrite Hm, Hk. now rewrite app_assoc.
Qed.

Lemma exec_bind_rejected {A B} d (m : M A) (k : A -> M B) err d1 e1 :
  Exec d m (Rejected err) d1 e1 -> Exec d (bind m k) (Rejected err) d1 e1.
Proof. intros Hm l. unfold bind. now rewrite Hm. Qed.

Lemma exec_bind_pending {A B} d (m : M A) (k : A -> M B) d1 e1 :
  Exec d m Pending d1 e1 -> Exec d (bind m k) Pending d1 e1.
Proof. intros Hm l. unfold bind. now rewrite Hm. Qed.

Lemma exec_await {A} d (r : Request A) :
  Exec d (await H r) (answer r d) (host_step H (cmd r) d) [Start (cmd r); Finish (cmd r)].
Proof. intros l. reflexivity. Qed.

(** A read leaves the page as it is. *)
Lemma exec_read {A} d (r : Request A) :
  is_interaction (cmd r) = false ->
  Exec d (await H r) (answer r d) d [Start (cmd r); Finish (cmd r)].
Proof. intros Hr l. unfold await, host_step. now rewrite Hr. Qed.

Lemma exec_find_all d scope l :
  Exec d (find_all H scope l) (Resolved (query d scope l)) d
       [Start (FindAll scope l); Finish (FindAll scope l)].
Proof. intros l0. reflexivity. Qed.

Lemma exec_find_one d e l :
  Exec d (find_one H (Some e) l) (Resolved (hd_error (query d e l))) d
       [Start (FindOne e l); Finish (FindOne e l)].
Proof. intros l0. reflexivity. Qed.

Lemma exec_getAttribute d e name :
  Exec d (getAttribute H (Some e) name) (Resolved (attribute d e name)) d
       [Start (GetAttribute e name); Finish (GetAttribute e name)].
Proof. intros l0. reflexivity. Qed.

Lemma exec_getTextOf d e :
  Exec d (getTextOf H (Some e)) (Resolved (text d e)) d
       [Start (GetText e); Finish (GetText e)].
Proof. intros l0. reflexivity. Qed.

Lemma exec_number_attribute d e name :
  Exec d (number_attribute H (Some e) name)
       (Resolved (to_number (attribute d e name))) d
       [Start (GetAttribute e name); Finish (GetAttribute e name)].
Proof.
  unfold number_attribute.
  rewrite <- (app_nil_r [Start _; Finish _]).
  eapply exec_bind; [apply exec_getAttribute | apply exec_ret].
Qed.

Lemma exec_click d e :
  Exec d (click H (Some e)) (Resolved tt) (react H (Click e) d)
       [Start (Click e); Finish (Click e)].
Proof. intros l. reflexivity. Qed.

Lemma exec_addValue d e v :
  Exec d (addValue H (Some e) v) (Resolved tt) (react H (AddValue e v) d)
       [Start (AddValue e v); Finish (AddValue e v)].
Proof. intros l. reflexivity. Qed.

(** Settling reads that all resolve. *)
Lemma settle_all_reads {A B} (f : A -> Request B) (g : A -> B) d xs :
  (forall x, In x xs ->
     is_interaction (cmd (f x)) = false /\ answer (f x) d = Resolved (g x)) ->
  Exec d (settle_all H (map f xs)) (Resolved (map g xs)) d
       (map (fun x => Finish (cmd (f x))) xs).
Proof.
  induction xs as [|x xs IH]; intros Hf l; simpl.
  - unfold ret. now rewrite app_nil_r.
  - destruct (Hf x (or_introl eq_refl)) as [Hi Ha]. unfold host_step. rewrite Hi. simpl.
    rewrite IH, Ha by (intros; apply Hf; now right). now rewrite <- app_assoc.
Qed.

Lemma exec_promise_all_reads {A B} (f : A -> Request B) (g : A -> B) d xs :
  (forall x, In x xs ->
     is_interaction (cmd (f x)) = false /\ answer (f x) d = Resolved (g x)) ->
  Exec d (promise_all H (map f xs)) (Resolved (map g xs)) d
       (all_trace (fun x => cmd (f x)) xs).
Proof.
  intros Hf l. unfold promise_all. simpl.
  rewrite (settle_all_reads f g d xs Hf). unfold all_trace.
  now rewrite map_map, app_assoc.
Qed.

(** *** Structural rules for [Traced] *)

Section Rules.
Context (P : list Event -> Prop) `{TraceInv P}.

Lemma traced_ret {A} (a : A) : Traced H P (ret a).
Proof. intros d. exists (Resolved a), []. split; [apply exec_ret | apply inv_nil]. Qed.

Lemma traced_throw {A} err : Traced H P (@throw A err).
Proof. intros d. exists (Rejected err), []. split; [apply exec_throw | apply inv_nil]. Qed.

Lemma traced_pending {A} : Traced H P (@pending A).
Proof. intros d. exists Pending, []. split; [apply exec_pending | apply inv_nil]. Qed.

Lemma traced_bind {A B} (m : M A) (k : A -> M B) :
  Traced H P m -> (forall a, Traced H P (k a)) -> Traced H P (bind m k).
Proof.
  intros Hm Hk d. destruct (Hm d) as ([a|err|] & e1 & He1 & HP1).
  - destruct (Hk a (replay H e1 d)) as (r & e2 & He2 & HP2).
    exists r, (e1 ++ e2). split; [|now apply inv_app].
    rewrite replay_app. eapply exec_bind; eauto.
  - exists (Rejected err), e1. split; auto. now apply exec_bind_rejected.
  - exists Pending, e1. split; auto. now apply exec_bind_pending.
Qed.

Lemma traced_try_catch {A} (body : M A) handler :
  Traced H P body -> (forall err, Traced H P (handler err)) ->
  Traced H P (try_catch body handler).
Proof.
  intros Hb Hh d. destruct (Hb d) as ([a|err|] & e1 & He1 & HP1).
  - exists (Resolved a), e1. split; auto. intros l. unfold try_catch. now rewrite He1.
  - destruct (Hh err (replay H e1 d)) as (r & e2 & He2 & HP2).
    exists r, (e1 ++ e2). split; [|now apply inv_app].
    rewrite replay_app. intros l. unfold try_catch. rewrite He1, He2.
    now rewrite app_assoc.
  - exists Pending, e1. split; auto. intros l. unfold try_catch. now rewrite He1.
Qed.

Lemma traced_await {A} (r : Request A) :
  P [Start (cmd r); Finish (cmd r)] -> Traced H P (await H r).
Proof.
  intros HP d. exists (answer r d), [Start (cmd r); Finish (cmd r)].
  split; auto. apply exec_await.
Qed.

End Rules.

Lemma replay_starts {A} (f : A -> Command) xs d :
  replay H (map (fun x => Start (f x)) xs) d = d.
Proof. induction xs; simpl; auto. Qed.

(** Settling stops at the first rejection: [k] answers have come in then.
    When all resolve, every request has been answered and the result is
    as long as the list of requests. *)
Lemma settle_all_trace {A} (rs : list (Request A)) :
  forall d, exists r k,
    Exec d (settle_all H rs) r
         (replay H (map (fun r => Finish (cmd r)) (firstn k rs)) d)
         (map (fun r => Finish (cmd r)) (firstn k rs))
    /\ (forall l, r = Resolved l -> k = List.length rs /\ List.length l = List.length rs).
Proof.
  induction rs as [|r rs IH]; intros d.
  - exists (Resolved []), 0%nat. split; [apply exec_ret|].
    intros l E. inversion E. auto.
  - destruct (answer r d) as [a|err|] eqn:Ea.
    + destruct (IH (host_step H (cmd r) d)) as (tl & k & Htl & Hlen).
      exists (match tl with
              | Resolved l => Resolved (a :: l)
              | Rejected err => Rejected err
              | Pending => Pending
              end), (S k).
      split.
      * intros l. simpl. rewrite Ea, Htl. rewrite <- app_assoc. simpl.
        destruct tl; reflexivity.
      * intros l E. destruct tl as [l'|err|]; try discriminate.
        inversion E; subst. destruct (Hlen l' eq_refl) as [-> Hl]. simpl. auto.
    + exists (Rejected err), 1%nat. split; [|discriminate].
      intros l. simpl. rewrite Ea. reflexivity.
    + exists Pending, 1%nat. split; [|discriminate].
      intros l. simpl. rewrite Ea. reflexivity.
Qed.

(** A [Promise.all]: every request goes out, then the answers come in
    until all are there or one is a rejection. *)
Lemma exec_promise_all {A} (rs : list (Request A)) :
  forall d, exists r k,
    Exec d (promise_all H rs) r
         (replay H (gather_trace (@cmd A) rs k) d) (gather_trace (@cmd A) rs k)
    /\ (forall l, r = Resolved l -> k = List.length rs /\ List.length l = List.length rs).
Proof.
  intros d. destruct (settle_all_trace rs d) as (r & k & Hr & Hlen).
  exists r, k. split; [|exact Hlen].
  unfold gather_trace. rewrite replay_app, replay_starts.
  intros l. unfold promise_all. simpl. rewrite Hr. now rewrite app_assoc.
Qed.

Lemma traced_mono {A} (P Q : list Event -> Prop) (m : M A) :
  (forall evs, P evs -> Q evs) -> Traced H P m -> Traced H Q m.
Proof.
  intros HPQ Hm d. destruct (Hm d) as (r & evs & He & HP). exists r, evs. auto.
Qed.

End Exec.

#[export] Instance any_trace_inv : TraceInv any_trace.
Proof. split; intros; exact I. Qed.

Lemma replay_idle evs : forall d, replay idle_host evs d = d.
Proof.
  induction evs as [|[c|c] evs IH]; simpl; intros d; auto.
  unfold host_step. simpl. destruct (is_interaction c); apply IH.
Qed.

(** The run of a computation that settles on every page, read off its
    evaluation on the empty trace. *)
Lemma exec_of_run {A} (H : Host) (P : list Event -> Prop) (m : M A) d :
  Traced H P m ->
  Exec d m (fst (m (mkSession d []))) (dom (snd (m (mkSession d []))))
       (log (snd (m (mkSession d [])))).
Proof.
  intros Hm. destruct (Hm d) as (r & evs & Hex & _).
  rewrite (Hex []). exact Hex.
Qed.

Section MoreExec.
Variable H : Host.

Lemma exec_isDisplayed d e :
  Exec d (isDisplayed H (Some e)) (Resolved (displayed d e)) d
       [Start (IsDisplayed e); Finish (IsDisplayed e)].
Proof. intros l. reflexivity. Qed.

Lemma exec_isEnabled d e :
  Exec d (isEnabled H (Some e)) (Resolved (enabled d e)) d
       [Start (IsEnabled e); Finish (IsEnabled e)].
Proof. intros l. reflexivity. Qed.

Lemma exec_isSelected d e :
  Exec d (isSelected H (Some e)) (Resolved (selected d e)) d
       [Start (IsSelected e); Finish (IsSelected e)].
Proof. intros l. reflexivity. Qed.

Lemma exec_clearValue d e :
  Exec d (clearValue H (Some e)) (Resolved tt) (react H (ClearValue e) d)
       [Start (ClearValue e); Finish (ClearValue e)].
Proof. intros l. reflexivity. Qed.

(** A command on a reference to a missing element rejects at once. *)
Lemma exec_missing {A} d (k : Element -> Request A) :
  Exec d (on_elem H None k) (Rejected ElementNotFound) d [].
Proof. apply exec_throw. Qed.

Lemma exec_input_field d this :
  exists evs,
    Exec d (Input.input_field H this) (field_outcome d this) d evs
    /\ reads_only evs.
Proof.
  unfold Input.input_field, field_outcome.
  destruct (hd_error (query d (input_elem this) locators.inputBox)) as [b|] eqn:Eb.
  - eexists. split.
    + eapply exec_bind; [apply exec_find_one|]. rewrite Eb. apply exec_find_one.
    + reads_tac.
  - eexists. split.
    + eapply exec_bind; [apply exec_find_one|]. rewrite Eb. apply exec_throw.
    + reads_tac.
Qed.

Lemma field_outcome_some d this f :
  field_on d this = Some f -> field_outcome d this = Resolved (Some f).
Proof.
  unfold field_on, field_outcome.
  destruct (hd_error (query d (input_elem this) locators.inputBox)); [|discriminate].
  now intros ->.
Qed.

Lemma field_outcome_none d this :
  field_on d this = None ->
  field_outcome d this = Resolved None \/ field_outcome d this = Rejected ElementNotFound.
Proof.
  unfold field_on, field_outcome.
  destruct (hd_error (query d (input_elem this) locators.inputBox)); [|now right].
  intros ->. now left.
Qed.

(** Whatever a method does with the field first, without the field it
    rejects as the driver does, and nothing has been typed. *)
Lemma exec_field_missing {A} d this (k : ElemRef -> M A) :
  field_on d this = None ->
  (forall d', Exec d' (k None) (Rejected ElementNotFound) d' []) ->
  exists evs,
    Exec d (field <- Input.input_field H this ;; k field) (Rejected ElementNotFound) d evs
    /\ reads_only evs.
Proof.
  intros Hnone Hk. destruct (exec_input_field d this) as (e0 & He0 & Hr0).
  destruct (field_outcome_none d this Hnone) as [E|E]; rewrite E in He0.
  - exists (e0 ++ []). split; [|reads_tac].
    eapply exec_bind; [exact He0 | apply Hk].
  - exists e0. split; [|assumption]. now apply exec_bind_rejected.
Qed.

Lemma exec_clear_missing d this :
  field_on d this = None ->
  exists evs,
    Exec d (Input.clear H this) (Rejected ElementNotFound) d evs /\ reads_only evs.
Proof.
  intros Hnone. unfold Input.clear. apply exec_field_missing; auto.
  intros d'. apply exec_bind_rejected. apply exec_missing.
Qed.

End MoreExec.

(** ** Small facts about the JavaScript helpers *)

Lemma js_str_eq_true a b : js_str_eq a b = true <-> a = b.
Proof.
  destruct a as [x|], b as [y|]; simpl; split; intros E; try congruence; auto.
  - apply String.eqb_eq in E. congruence.
  - inversion E. apply String.eqb_refl.
Qed.

Lemma js_str_eq_false a b : js_str_eq a b = false <-> a <> b.
Proof.
  rewrite <- js_str_eq_true. destruct (js_str_eq a b); split; congruence.
Qed.

Lemma findIndex_lower {A} (p : A -> bool) xs : (-1 <= findIndex p xs)%Z.
Proof.
  induction xs as [|x xs IH]; simpl; [lia|].
  destruct (p x); [lia|]. destruct (Z.ltb_spec (findIndex p xs) 0); lia.
Qed.

Lemma findIndex_none {A} (p : A -> bool) xs :
  (forall x, In x xs -> p x = false) -> findIndex p xs = (-1)%Z.
Proof.
  induction xs as [|x xs IH]; simpl; intros Hp; auto.
  rewrite (Hp x) by auto. rewrite IH by auto. reflexivity.
Qed.

Lemma findIndex_first {A} (p : A -> bool) pre x post :
  (forall y, In y pre -> p y = false) -> p x = true ->
  findIndex p (pre ++ x :: post) = Z.of_nat (List.length pre).
Proof.
  induction pre as [|y pre IH]; simpl; intros Hpre Hx.
  - now rewrite Hx.
  - rewrite (Hpre y) by auto. rewrite IH by auto.
    destruct (Z.ltb_spec (Z.of_nat (List.length pre)) 0); lia.
Qed.

Lemma nth_error_middle {A} (pre : list A) x post :
  nth_error (pre ++ x :: post) (List.length pre) = Some x.
Proof. induction pre; simpl; auto. Qed.

Lemma reads_only_all_trace {A} (f : A -> Command) xs :
  (forall x, is_interaction (f x) = false) -> reads_only (all_trace f xs).
Proof.
  intros Hf. unfold all_trace. apply reads_only_app; apply Forall_map, Forall_forall; intros; apply Hf.
Qed.

(** * The model at work on the sample pages *)

Example to_number_numeral : to_number (Some "12") = JNum 12.
Proof. reflexivity. Qed.

Example to_number_negative : to_number (Some "-3") = JNum (-3).
Proof. reflexivity. Qed.

Example to_number_null : to_number None = JNum 0.
Proof. reflexivity. Qed.

Example to_number_empty : to_number (Some "") = JNum 0.
Proof. reflexivity. Qed.

Example to_number_text : to_number (Some "two") = JNaN.
Proof. reflexivity. Qed.

Example to_number_unit : to_number (Some "12px") = JNaN.
Proof. reflexivity. Qed.

Example to_number_blanks : to_number (Some " 5 ") = JNum 5.
Proof. reflexivity. Qed.

Example to_number_plus : to_number (Some "+5") = JNum 5.
Proof. reflexivity. Qed.

Example to_number_exponent : to_number (Some "1e2") = JNum 100.
Proof. reflexivity. Qed.

Example to_number_hex : to_number (Some "0x1F") = JNum 31.
Proof. reflexivity. Qed.

Example to_number_infinity : to_number (Some "-Infinity") = PrimFloat.neg_infinity.
Proof. reflexivity. Qed.

(** 0.1 is the double 0x1.999999999999ap-4. *)
Example to_number_tenth : to_number (Some "0.1") = 0x1.999999999999ap-4%float.
Proof. reflexivity. Qed.

Example to_number_half :
  to_number (Some "1.5") = 1.5%float /\ to_number (Some ".25") = 0.25%float
  /\ to_number (Some "-0") = (-0)%float /\ JNum 100 = 100%float.
Proof. repeat split. Qed.

Example to_number_fractions :
  js_lt (to_number (Some "1.25")) (to_number (Some "1.5")) = true
  /\ js_lt (JNum 1) (to_number (Some "1.25")) = true
  /\ js_le (to_number (Some "1.5")) (JNum 2) = true.
Proof. repeat split. Qed.

(** Above 2^53 not every integer is a number: 2^53 + 1 reads as 2^53. *)
Example to_number_rounds :
  to_number (Some "9007199254740993") = JNum 9007199254740992.
Proof. reflexivity. Qed.

Example js_add_rounds :
  js_add (to_number (Some "0.1")) (to_number (Some "0.2"))
  = to_number (Some "0.30000000000000004")
  /\ js_num_eq (js_add (to_number (Some "0.1")) (to_number (Some "0.2")))
               (to_number (Some "0.3")) = false.
Proof. split; reflexivity. Qed.

Example js_nan_compares : js_le JNaN JNaN = false /\ js_num_eq JNaN JNaN = false.
Proof. split; reflexivity. Qed.

(** A row whose [data-index] reads 1.5 lies in the range (1, 1 + 2], and a
    count written "1e2" is the number 100. *)
Example in_range_fraction :
  in_range (JNum 1) (JNum 2) (to_number (Some "1.5")) = true
  /\ in_range (JNum 1) (to_number (Some "1e2")) (JNum 101) = true
  /\ in_range (JNum 1) (to_number (Some "1e2")) (JNum 102) = false
  /\ in_range JNaN (JNum 2) (JNum 1) = false.
Proof. repeat split. Qed.

Example indexOf_inside : indexOf "gamma" "mm" = 2%Z.
Proof. reflexivity. Qed.

Example indexOf_absent : indexOf "gamma" "z" = (-1)%Z.
Proof. reflexivity. Qed.

Example findIndex_second : findIndex (Nat.eqb 3) [1; 3; 3]%nat = 1%Z.
Proof. reflexivity. Qed.

Example single_getChanges_sample :
  fst (SingleScmProvider.getChanges idle_host (mkProviderObj 10 (mkNewScmView 0)) true
         (mkSession single_dom []))
  = Resolved [mkScmChange 13 (SingleScmProvider (mkProviderObj 10 (mkNewScmView 0)));
              mkScmChange 14 (SingleScmProvider (mkProviderObj 10 (mkNewScmView 0)))].
Proof. reflexivity. Qed.

Example single_getProviders_sample :
  fst (NewScmView.getProviders idle_host (mkNewScmView 0) (mkSession single_dom []))
  = Resolved [SingleScmProvider (mkProviderObj 10 (mkNewScmView 0))].
Proof. reflexivity. Qed.

(** The second provider has one staged change, but the count is read from
    the first header row of the view. *)
Example second_provider_count_sample :
  fst (MultiScmProvider.getChangeCount idle_host (mkProviderObj 11 (mkNewScmView 0)) true
         (mkSession multi_dom []))
  = Resolved (JNum 2).
Proof. reflexivity. Qed.

(** A count badge that reads "1e2" is the count 100: all three rows below
    the header of the first provider are within reach. *)
Example exponent_count_sample :
  fst (MultiScmProvider.getChangeCount idle_host (mkProviderObj 10 (mkNewScmView 0)) true
         (mkSession exponent_dom []))
  = Resolved (JNum 100)
  /\ fst (MultiScmProvider.getChanges idle_host (mkProviderObj 10 (mkNewScmView 0)) true
            (mkSession exponent_dom []))
     = Resolved [mkScmChange 13 (MultiScmProvider (mkProviderObj 10 (mkNewScmView 0)));
                 mkScmChange 14 (MultiScmProvider (mkProviderObj 10 (mkNewScmView 0)));
                 mkScmChange 16 (MultiScmProvider (mkProviderObj 10 (mkNewScmView 0)))].
Proof. split; reflexivity. Qed.

Example back_without_title_bar_sample :
  Input.back idle_host (mkInput 0) (mkSession bare_input_dom [])
  = (Resolved false,
     mkSession bare_input_dom
               [Start (FindAll 0 locators.titleBar); Finish (FindAll 0 locators.titleBar)]).
Proof. reflexivity. Qed.

Example findQuickPick_by_index_sample :
  fst (Input.findQuickPick paging_host 5 (mkInput 0) (ByIndex (JNum 3))
         (mkSession first_page []))
  = Resolved (Some (mkQuickPickItem (JNum 3) 13 (mkInput 0))).
Proof. reflexivity. Qed.

Example findQuickPick_not_found_sample :
  fst (Input.findQuickPick paging_host 5 (mkInput 0) (ByText "omega")
         (mkSession first_page []))
  = Resolved None
  /\ page_downs (log (snd (Input.findQuickPick paging_host 5 (mkInput 0) (ByText "omega")
                             (mkSession first_page [])))) = 1%nat.
Proof. split; reflexivity. Qed.

(** * ModalDialog.pushButton *)

Section PushButton.
Variable H : Host.

Lemma exec_getButtons d this c :
  hd_error (query d (dialog_elem this) locators.buttonContainer) = Some c ->
  Exec d (ModalDialog.getButtons H this) (Resolved (query d c locators.button)) d
       ([Start (FindOne (dialog_elem this) locators.buttonContainer);
         Finish (FindOne (dialog_elem this) locators.buttonContainer)]
        ++ [Start (FindAll c locators.button); Finish (FindAll c locators.button)]).
Proof.
  intros Hc. unfold ModalDialog.getButtons.
  eapply exec_bind; [apply exec_find_one|]. rewrite Hc. apply exec_find_all.
Qed.

Lemma exec_title_reads d (buttons : list Element) :
  Exec d (promise_all H (map (req_getAttribute "title") buttons))
       (Resolved (map (fun b => attribute d b "title") buttons)) d
       (all_trace (fun b => GetAttribute b "title") buttons).
Proof.
  apply (exec_promise_all_reads H (req_getAttribute "title")
           (fun b => attribute d b "title")).
  intros; split; reflexivity.
Qed.

Lemma clicks_title_reads (buttons : list Element) :
  clicks (all_trace (fun b => GetAttribute b "title") buttons) = [].
Proof. apply reads_only_clicks, reads_only_all_trace. reflexivity. Qed.

Lemma interactions_title_reads (buttons : list Element) :
  interactions (all_trace (fun b => GetAttribute b "title") buttons) = [].
Proof. apply reads_only_interactions, reads_only_all_trace. reflexivity. Qed.

End PushButton.

Lemma exec_getButtons_missing (H : Host) d this :
  query d (dialog_elem this) locators.buttonContainer = [] ->
  Exec d (ModalDialog.getButtons H this) (Rejected ElementNotFound) d
       [Start (FindOne (dialog_elem this) locators.buttonContainer);
        Finish (FindOne (dialog_elem this) locators.buttonContainer)].
Proof.
  intros Hnone. unfold ModalDialog.getButtons.
  rewrite <- (app_nil_r [Start _; Finish _]).
  eapply exec_bind; [apply exec_find_one|]. rewrite Hnone. apply exec_throw.
Qed.

(** Against C7 as it is worded ("raises no error" when no button has the
    title): the page [bare_input_dom] has no button container below
    element 0, hence no button at all, and [pushButton] rejects with the
    driver's element-not-found error. *)
Lemma pushButton_without_container_counterexample :
  query bare_input_dom 0 locators.buttonContainer = []
  /\ (forall c, query bare_input_dom c locators.button = [])
  /\ ModalDialog.pushButton idle_host (mkModalDialog 0) "OK" (mkSession bare_input_dom [])
     = (Rejected ElementNotFound,
        mkSession bare_input_dom
                  [Start (FindOne 0 locators.buttonContainer);
                   Finish (FindOne 0 locators.buttonContainer)]).
Proof.
  split; [reflexivity|]. split; [|reflexivity].
  intros [|[|c]]; reflexivity.
Qed.

(** C7, as the code has it.  With the button container [c] present and
    [buttons] the buttons below it in DOM order: if [b] is the first button
    whose [title] attribute equals [title], [pushButton(title)] resolves,
    clicks [b] and nothing else; if no button's [title] attribute equals
    [title], it resolves as well, issues no interaction at all and leaves
    the page as it was.  Without the button container the call rejects
    with the driver's element-not-found error, again without any
    interaction. *)
Theorem pushButton_clicks_first_match (H : Host) (this : ModalDialog)
        (title : string) (d : Dom) :
  (forall c,
      hd_error (query d (dialog_elem this) locators.buttonContainer) = Some c ->
      (forall pre b post,
          query d c locators.button = pre ++ b :: post ->
          (forall x, In x pre -> attribute d x "title" <> Some title) ->
          attribute d b "title" = Some title ->
          exists evs,
            Exec d (ModalDialog.pushButton H this title) (Resolved tt)
                 (react H (Click b) d) evs
            /\ clicks evs = [b] /\ interactions evs = [Click b])
      /\ ((forall x, In x (query d c locators.button) -> attribute d x "title" <> Some title) ->
          exists evs,
            Exec d (ModalDialog.pushButton H this title) (Resolved tt) d evs
            /\ clicks evs = [] /\ interactions evs = []))
  /\ (query d (dialog_elem this) locators.buttonContainer = [] ->
      exists evs,
        Exec d (ModalDialog.pushButton H this title) (Rejected ElementNotFound) d evs
        /\ clicks evs = [] /\ interactions evs = []).
Proof.
  split.
  - intros c Hc. split.
    + intros pre b post Hsplit Hpre Hb.
      eexists. split.
      * unfold ModalDialog.pushButton.
        eapply exec_bind; [apply exec_getButtons, Hc|].
        eapply exec_bind; [apply exec_title_reads|].
        cbv zeta. rewrite Hsplit, map_app. simpl map.
        rewrite findIndex_first.
        -- rewrite length_map.
           replace (-1 <? Z.of_nat (List.length pre))%Z with true
             by (symmetry; apply Z.ltb_lt; lia).
           rewrite Nat2Z.id.
           eapply exec_bind; [|apply exec_click].
           unfold at_index. rewrite nth_error_middle. apply exec_ret.
        -- intros y Hy. apply in_map_iff in Hy. destruct Hy as (x & <- & Hx).
           apply js_str_eq_false. auto.
        -- apply js_str_eq_true. exact Hb.
      * rewrite !clicks_app, !interactions_app, clicks_title_reads, interactions_title_reads.
        split; reflexivity.
    + intros Hnone. eexists. split.
      * unfold ModalDialog.pushButton.
        eapply exec_bind; [apply exec_getButtons, Hc|].
        eapply exec_bind; [apply exec_title_reads|].
        cbv zeta. rewrite findIndex_none.
        -- simpl. apply exec_ret.
        -- intros y Hy. apply in_map_iff in Hy. destruct Hy as (x & <- & Hx).
           apply js_str_eq_false. auto.
      * rewrite !clicks_app, !interactions_app, clicks_title_reads, interactions_title_reads.
        split; reflexivity.
  - intros Hnone. eexists. split.
    + unfold ModalDialog.pushButton.
      apply exec_bind_rejected. apply exec_getButtons_missing, Hnone.
    + split; reflexivity.
Qed.

Lemma pushButton_clicks_first_match_witness :
  exists evs,
    Exec dialog_dom (ModalDialog.pushButton idle_host (mkModalDialog 0) "OK")
         (Resolved tt) (react idle_host (Click 3) dialog_dom) evs
    /\ clicks evs = [3] /\ interactions evs = [Click 3].
Proof.
  apply (proj1 (proj1 (pushButton_clicks_first_match idle_host (mkModalDialog 0) "OK"
                         dialog_dom) 1 eq_refl) [2] 3 [4]).
  - reflexivity.
  - intros x [<-|[]]. discriminate.
  - reflexivity.
Defined.

(** * NotificationsCenter.getNotifications *)

Section GetNotifications.
Variable H : Host.

Lemma exec_wait {A} d (po : A) e :
  waits H d e = true ->
  Exec d (await H (req_wait H po e)) (Resolved po) d
       [Start (Call "wait" e); Finish (Call "wait" e)].
Proof. intros Hw l. unfold await. simpl. now rewrite Hw. Qed.

Lemma exec_getType d n :
  Exec d (NotificationsCenter.getType H n)
       (Resolved (notificationType H d (notification_elem n))) d
       [Start (Call "getType" (notification_elem n));
        Finish (Call "getType" (notification_elem n))].
Proof. intros l. reflexivity. Qed.

Lemma exec_for_rows d type : forall elements acc,
  (forall e, In e elements -> waits H d e = true) ->
  exists evs,
    Exec d (NotificationsCenter.for_rows H type elements acc)
         (Resolved (acc ++ map CenterNotification (filter (kept H d type) elements))) d evs
    /\ reads_only evs.
Proof.
  induction elements as [|e elements IH]; intros acc Hw.
  - exists []. simpl. rewrite app_nil_r. split; [apply exec_ret | reads_tac].
  - assert (Hwe : waits H d e = true) by (apply Hw; now left).
    assert (Hw' : forall x, In x elements -> waits H d x = true)
      by (intros; apply Hw; now right).
    simpl NotificationsCenter.for_rows. simpl filter. unfold kept at 1.
    destruct (NotificationType_eqb type Any) eqn:Eany; simpl orb.
    + destruct (IH (acc ++ [CenterNotification e]) Hw') as (evs & He & Hr).
      eexists. split.
      * eapply exec_bind; [apply exec_ret|]. simpl.
        eapply exec_bind; [apply exec_wait, Hwe|].
        simpl map. rewrite <- app_assoc in He. exact He.
      * reads_tac.
    + destruct (NotificationType_eqb (notificationType H d e) type) eqn:Et.
      * destruct (IH (acc ++ [CenterNotification e]) Hw') as (evs & He & Hr).
        eexists. split.
        -- eapply exec_bind.
           { eapply exec_bind; [apply exec_getType | apply exec_ret]. }
           simpl. rewrite Et.
           eapply exec_bind; [apply exec_wait, Hwe|].
           simpl map. rewrite <- app_assoc in He. exact He.
        -- reads_tac.
      * destruct (IH acc Hw') as (evs & He & Hr).
        eexists. split.
        -- eapply exec_bind.
           { eapply exec_bind; [apply exec_getType | apply exec_ret]. }
           simpl. rewrite Et. exact He.
        -- reads_tac.
Qed.

End GetNotifications.

Lemma NotificationType_eqb_eq a b : NotificationType_eqb a b = true <-> a = b.
Proof. destruct a, b; simpl; split; congruence. Qed.

(** C6.  With [rows] the notification rows of the center in DOM order, each
    of them showing up when waited for: for a type [t] other than
    [NotificationType.Any], [getNotifications(t)] resolves to the
    notifications of exactly the rows whose type is [t], in DOM order; and
    [getNotifications(NotificationType.Any)] resolves to the notifications of
    all rows.  Neither interacts with the page. *)
Theorem getNotifications_filters_by_type (H : Host) (this : NotificationsCenter)
        (d : Dom) :
  (forall e, In e (query d (center_elem this) locators.row) -> waits H d e = true) ->
  (forall t, t <> Any ->
     exists evs,
       Exec d (NotificationsCenter.getNotifications H this t)
            (Resolved (map CenterNotification
                           (filter (fun e => NotificationType_eqb (notificationType H d e) t)
                                   (query d (center_elem this) locators.row))))
            d evs
       /\ interactions evs = [])
  /\ (exists evs,
       Exec d (NotificationsCenter.getNotifications H this Any)
            (Resolved (map CenterNotification (query d (center_elem this) locators.row)))
            d evs
       /\ interactions evs = []).
Proof.
  intros Hw. split.
  - intros t Ht.
    destruct (exec_for_rows H d t _ [] Hw) as (evs & He & Hr).
    eexists. split.
    + unfold NotificationsCenter.getNotifications.
      eapply exec_bind; [apply exec_find_all|].
      simpl app in He.
      erewrite filter_ext; [exact He|].
      intros e. unfold kept. destruct t; try reflexivity. congruence.
    + apply reads_only_interactions. reads_tac.
  - destruct (exec_for_rows H d Any _ [] Hw) as (evs & He & Hr).
    eexists. split.
    + unfold NotificationsCenter.getNotifications.
      eapply exec_bind; [apply exec_find_all|].
      simpl app in He.
      replace (filter (kept H d Any) (query d (center_elem this) locators.row))
        with (query d (center_elem this) locators.row) in He; [exact He|].
      symmetry. apply forallb_filter_id. apply forallb_forall. reflexivity.
    + apply reads_only_interactions. reads_tac.
Qed.

Lemma getNotifications_filters_by_type_witness :
  exists evs,
    Exec center_dom
         (NotificationsCenter.getNotifications idle_host (mkNotificationsCenter 0) Info)
         (Resolved [CenterNotification 1; CenterNotification 3]) center_dom evs
    /\ interactions evs = [].
Proof.
  apply (proj1 (getNotifications_filters_by_type idle_host (mkNotificationsCenter 0)
                  center_dom (fun e _ => eq_refl)) Info).
  discriminate.
Defined.

(** * NewScmView.getProviders *)

Section GetProviders.
Variable H : Host.

(** Wrapping elements into page objects with [Promise.all] over [wait()]. *)
Lemma exec_wait_all {A} d (wrap : Element -> A) elements :
  (forall e, In e elements -> waits H d e = true) ->
  Exec d (promise_all H (map (fun e => req_wait H (wrap e) e) elements))
       (Resolved (map wrap elements)) d
       (all_trace (fun e => Call "wait" e) elements).
Proof.
  intros Hw.
  apply (exec_promise_all_reads H (fun e => req_wait H (wrap e) e) wrap).
  intros e He. split; [reflexivity|]. simpl. now rewrite (Hw e He).
Qed.

Lemma reads_only_wait_all (elements : list Element) :
  reads_only (all_trace (fun e => Call "wait" e) elements).
Proof. apply reads_only_all_trace. reflexivity. Qed.

End GetProviders.

(** C5.  [getProviders] resolves to the empty list when the view has no
    SCM input field; to the one [SingleScmProvider] (bound to the single
    provider element, which shows up when waited for) when there is exactly
    one input field and no multi-provider container; and otherwise to one
    [MultiScmProvider] per multi-provider item, in DOM order (each item
    showing up when waited for).  It never interacts with the page. *)
Theorem getProviders_branches (H : Host) (this : NewScmView) (d : Dom) :
  (query d (view_elem this) locators.inputField = [] ->
   exists evs,
     Exec d (NewScmView.getProviders H this) (Resolved []) d evs
     /\ interactions evs = [])
  /\ (forall e,
        List.length (query d (view_elem this) locators.inputField) = 1%nat ->
        query d (view_elem this) locators.multiScmProvider = [] ->
        hd_error (query d (view_elem this) locators.singleScmProvider) = Some e ->
        waits H d e = true ->
        exists evs,
          Exec d (NewScmView.getProviders H this)
               (Resolved [SingleScmProvider (mkProviderObj e this)]) d evs
          /\ interactions evs = [])
  /\ (query d (view_elem this) locators.inputField <> [] ->
      ~ (List.length (query d (view_elem this) locators.inputField) = 1%nat
         /\ query d (view_elem this) locators.multiScmProvider = []) ->
      (forall e, In e (query d (view_elem this) locators.multiProviderItem) ->
                 waits H d e = true) ->
      exists evs,
        Exec d (NewScmView.getProviders H this)
             (Resolved (map (fun e => MultiScmProvider (mkProviderObj e this))
                            (query d (view_elem this) locators.multiProviderItem)))
             d evs
        /\ interactions evs = []).
Proof.
  split; [|split].
  - intros Hin. eexists. split.
    + unfold NewScmView.getProviders.
      eapply exec_bind; [apply exec_find_all|]. rewrite Hin. simpl. apply exec_ret.
    + reflexivity.
  - intros e Hone Hnone Hsingle Hw. eexists. split.
    + unfold NewScmView.getProviders.
      eapply exec_bind; [apply exec_find_all|]. rewrite Hone. simpl.
      eapply exec_bind; [apply exec_find_all|]. rewrite Hnone. simpl.
      eapply exec_bind; [apply exec_find_one|]. rewrite Hsingle.
      eapply exec_bind; [apply (exec_wait H), Hw | apply exec_ret].
    + reflexivity.
  - intros Hin Hnot Hw. eexists. split.
    + unfold NewScmView.getProviders.
      eapply exec_bind; [apply exec_find_all|].
      destruct (query d (view_elem this) locators.inputField) as [|i inputs] eqn:Ei;
        [congruence|].
      replace (List.length (i :: inputs) <? 1)%nat with false by reflexivity.
      eapply exec_bind; [apply exec_find_all|].
      replace ((List.length (i :: inputs) =? 1)%nat
               && (List.length (query d (view_elem this) locators.multiScmProvider) <? 1)%nat)
        with false.
      * eapply exec_bind; [apply exec_find_all|].
        apply (exec_wait_all H d (fun e => MultiScmProvider (mkProviderObj e this))), Hw.
      * symmetry. apply andb_false_iff.
        destruct (Nat.eqb_spec (List.length (i :: inputs)) 1) as [E1|E1]; [right|now left].
        destruct (query d (view_elem this) locators.multiScmProvider) eqn:Ep; [|reflexivity].
        exfalso. apply Hnot. auto.
    + rewrite !interactions_app.
      rewrite (reads_only_interactions _ (reads_only_wait_all _)). reflexivity.
Qed.

(** * The providers of the source-control view *)

Section ScmLoops.
Variable H : Host.

Lemma exec_for_items d startIndex count : forall items acc,
  exists evs,
    Exec d (for_items H startIndex count items acc)
         (Resolved (acc ++ filter (fun item => in_range startIndex count (data_index d item))
                                  items)) d evs
    /\ reads_only evs.
Proof.
  induction items as [|item items IH]; intros acc.
  - exists []. simpl. rewrite app_nil_r. split; [apply exec_ret | reads_tac].
  - simpl for_items. simpl filter. unfold in_range at 1, js_lt. fold (data_index d item).
    destruct (js_gt (data_index d item) startIndex
              && js_le (data_index d item) (js_add startIndex count)) eqn:E.
    + destruct (IH (acc ++ [item])) as (evs & He & Hr).
      eexists. split.
      * eapply exec_bind; [apply exec_number_attribute|].
        unfold data_index in E. rewrite E. rewrite <- app_assoc in He. exact He.
      * reads_tac.
    + destruct (IH acc) as (evs & He & Hr).
      eexists. split.
      * eapply exec_bind; [apply exec_number_attribute|].
        unfold data_index in E. rewrite E. exact He.
      * reads_tac.
Qed.

Lemma exec_for_headers d index : forall headers header,
  exists evs,
    Exec d (MultiScmProvider.for_headers H headers index header)
         (Resolved (pick_header d index headers header)) d evs
    /\ reads_only evs.
Proof.
  induction headers as [|item headers IH]; intros header.
  - exists []. split; [apply exec_ret | reads_tac].
  - simpl MultiScmProvider.for_headers. unfold pick_header. simpl fold_left.
    destruct (js_gt (data_index d item) index) eqn:E.
    + destruct (IH (Some item)) as (evs & He & Hr). eexists. split.
      * eapply exec_bind; [apply exec_number_attribute|].
        unfold data_index in E. rewrite E. exact He.
      * reads_tac.
    + destruct (IH header) as (evs & He & Hr). eexists. split.
      * eapply exec_bind; [apply exec_number_attribute|].
        unfold data_index in E. rewrite E. exact He.
      * reads_tac.
Qed.

Lemma exec_for_count_rows d this rows index : forall remaining,
  exists evs,
    Exec d (MultiScmProvider.for_count_rows H this rows remaining index)
         (if existsb (fun row => js_gt (data_index d row) index) remaining
          then match rows with
               | r0 :: _ =>
                   match hd_error (query d r0 locators.changeCount) with
                   | Some c => Resolved (to_number (Some (text d c)))
                   | None => Rejected ElementNotFound
                   end
               | [] => Rejected TypeError
               end
          else Resolved (JNum 0)) d evs
    /\ reads_only evs.
Proof.
  induction remaining as [|row remaining IH].
  - exists []. split; [apply exec_ret | reads_tac].
  - simpl MultiScmProvider.for_count_rows. simpl existsb.
    destruct (js_gt (data_index d row) index) eqn:E; simpl orb.
    + destruct rows as [|r0 rows'].
      * eexists. split.
        -- eapply exec_bind; [apply exec_number_attribute|].
           unfold data_index in E. rewrite E.
           apply exec_bind_rejected. apply exec_throw.
        -- reads_tac.
      * destruct (hd_error (query d r0 locators.changeCount)) as [c|] eqn:Ec.
        -- eexists. split.
           ++ eapply exec_bind; [apply exec_number_attribute|].
              unfold data_index in E. rewrite E.
              eapply exec_bind; [apply exec_ret|].
              eapply exec_bind; [apply exec_find_one|]. rewrite Ec.
              eapply exec_bind; [apply exec_getTextOf | apply exec_ret].
           ++ reads_tac.
        -- eexists. split.
           ++ eapply exec_bind; [apply exec_number_attribute|].
              unfold data_index in E. rewrite E.
              eapply exec_bind; [apply exec_ret|].
              eapply exec_bind; [apply exec_find_one|]. rewrite Ec.
              apply exec_bind_rejected. apply exec_throw.
           ++ reads_tac.
    + destruct IH as (evs & He & Hr). eexists. split.
      * eapply exec_bind; [apply exec_number_attribute|].
        unfold data_index in E. rewrite E. exact He.
      * reads_tac.
Qed.

Lemma exec_getChangeCount d this staged :
  exists evs,
    Exec d (MultiScmProvider.getChangeCount H this staged) (count_on d this staged) d evs
    /\ reads_only evs.
Proof.
  destruct (exec_for_count_rows d this
              (query d (view_elem (provider_view this))
                     (if staged then locators.stagedChanges else locators.changes))
              (data_index d (provider_elem this))
              (query d (view_elem (provider_view this))
                     (if staged then locators.stagedChanges else locators.changes)))
    as (evs & He & Hr).
  eexists. split.
  - unfold MultiScmProvider.getChangeCount. cbv zeta.
    eapply exec_bind; [apply exec_find_all|].
    eapply exec_bind; [apply exec_number_attribute|].
    exact He.
  - reads_tac.
Qed.

End ScmLoops.

(** Against C9 as it is worded ("whenever ... returns ..."): on
    [badgeless_dom] the staged header row 12 has a [data-index] (1) above
    that of provider 10 (0), but [rows[0]], the same row 12, has no
    change-count element, and [getChangeCount] rejects instead of returning
    a number. *)
Lemma getChangeCount_without_badge_counterexample :
  query badgeless_dom 0 locators.stagedChanges = [12; 15]
  /\ js_gt (data_index badgeless_dom 12) (data_index badgeless_dom 10) = true
  /\ query badgeless_dom 12 locators.changeCount = []
  /\ fst (MultiScmProvider.getChangeCount idle_host (mkProviderObj 10 (mkNewScmView 0)) true
            (mkSession badgeless_dom [])) = Rejected ElementNotFound.
Proof. repeat split. Qed.

(** C9, as the code has it.  With [rows] the staged (or unstaged) header
    rows of the whole view: whenever some row's [data-index] exceeds the
    provider's, [getChangeCount] looks at [rows[0]], the first row of the
    list, whichever row passed the comparison: it resolves to the number
    that unary plus makes of the change-count text of [rows[0]], and
    rejects with the driver's element-not-found error when [rows[0]] has no
    change-count element; when no row passes, it resolves to 0.  It never
    interacts with the page. *)
Theorem getChangeCount_reads_first_row (H : Host) (this : ProviderObj)
        (staged : bool) (d : Dom) :
  let rows := query d (view_elem (provider_view this))
                    (if staged then locators.stagedChanges else locators.changes) in
  (forall row r0 rest,
      In row rows ->
      js_gt (data_index d row) (data_index d (provider_elem this)) = true ->
      rows = r0 :: rest ->
      (forall c,
          hd_error (query d r0 locators.changeCount) = Some c ->
          exists evs,
            Exec d (MultiScmProvider.getChangeCount H this staged)
                 (Resolved (to_number (Some (text d c)))) d evs
            /\ interactions evs = [])
      /\ (query d r0 locators.changeCount = [] ->
          exists evs,
            Exec d (MultiScmProvider.getChangeCount H this staged)
                 (Rejected ElementNotFound) d evs
            /\ interactions evs = []))
  /\ ((forall row, In row rows ->
         js_gt (data_index d row) (data_index d (provider_elem this)) = false) ->
      exists evs,
        Exec d (MultiScmProvider.getChangeCount H this staged) (Resolved (JNum 0)) d evs
        /\ interactions evs = []).
Proof.
  intros rows. split.
  - intros row r0 rest Hin Hgt Hrows.
    destruct (exec_getChangeCount H d this staged) as (evs & He & Hr).
    unfold count_on in He. fold rows in He.
    replace (existsb (fun row => js_gt (data_index d row) (data_index d (provider_elem this))) rows)
      with true in He by (symmetry; apply existsb_exists; eauto).
    rewrite Hrows in He. split.
    + intros c Hc. exists evs. split; [|now apply reads_only_interactions].
      rewrite Hc in He. exact He.
    + intros Hnone. exists evs. split; [|now apply reads_only_interactions].
      rewrite Hnone in He. exact He.
  - intros Hnone.
    destruct (exec_getChangeCount H d this staged) as (evs & He & Hr).
    exists evs. split; [|now apply reads_only_interactions].
    unfold count_on in He. fold rows in He.
    replace (existsb (fun row => js_gt (data_index d row) (data_index d (provider_elem this))) rows)
      with false in He; [exact He|].
    symmetry. apply not_true_is_false. intros E. apply existsb_exists in E.
    destruct E as (row & Hin & Hgt). rewrite (Hnone row Hin) in Hgt. discriminate.
Qed.

Lemma pick_header_none d index headers header :
  (forall x, In x headers -> js_gt (data_index d x) index = false) ->
  pick_header d index headers header = header.
Proof.
  revert header. induction headers as [|x headers IH]; intros header Hn; [reflexivity|].
  unfold pick_header. simpl. rewrite (Hn x) by now left.
  apply IH. intros; apply Hn; now right.
Qed.

Lemma pick_header_last d index pre h post header :
  js_gt (data_index d h) index = true ->
  (forall x, In x post -> js_gt (data_index d x) index = false) ->
  pick_header d index (pre ++ h :: post) header = Some h.
Proof.
  intros Hh Hpost. unfold pick_header. rewrite fold_left_app. simpl. rewrite Hh.
  now apply pick_header_none.
Qed.

Section GetChanges.
Variable H : Host.

Lemma exec_wrap_changes d this elements :
  (forall e, In e elements -> waits H d e = true) ->
  Exec d (wrap_changes H this elements)
       (Resolved (map (fun e => mkScmChange e this) elements)) d
       (all_trace (fun e => Call "wait" e) elements).
Proof. intros Hw. apply (exec_wait_all H d (fun e => mkScmChange e this)), Hw. Qed.

Lemma exec_single_getChangeCount d this staged :
  Exec d (SingleScmProvider.getChangeCount H this staged)
       (Resolved (providerChangeCount H d (provider_elem this) staged)) d
       [Start (Call "getChangeCount" (provider_elem this));
        Finish (Call "getChangeCount" (provider_elem this))].
Proof. intros l. reflexivity. Qed.

Lemma exec_header_query d e (staged : bool) :
  exists evs,
    Exec d (if staged then find_one H (Some e) locators.stagedChanges
            else find_one H (Some e) locators.changes)
         (Resolved (hd_error (query d e (if staged then locators.stagedChanges
                                         else locators.changes)))) d evs
    /\ reads_only evs.
Proof.
  destruct staged; eexists; (split; [apply exec_find_one | reads_tac]).
Qed.

Lemma exec_headers_query d e (staged : bool) :
  exists evs,
    Exec d (if staged then find_all H e locators.stagedChanges
            else find_all H e locators.changes)
         (Resolved (query d e (if staged then locators.stagedChanges
                               else locators.changes))) d evs
    /\ reads_only evs.
Proof.
  destruct staged; eexists; (split; [apply exec_find_all | reads_tac]).
Qed.

Lemma filter_waits d (p : Element -> bool) items :
  (forall e, In e items -> waits H d e = true) ->
  forall e, In e (filter p items) -> waits H d e = true.
Proof. intros Hw e He. apply filter_In in He. apply Hw, He. Qed.

Lemma single_getChanges_none d this staged :
  js_gt (providerChangeCount H d (provider_elem this) staged) (JNum 0) = false ->
  exists evs,
    Exec d (SingleScmProvider.getChanges H this staged) (Resolved []) d evs
    /\ interactions evs = [].
Proof.
  intros Hc. eexists. split.
  - unfold SingleScmProvider.getChanges.
    eapply exec_bind; [apply exec_single_getChangeCount|]. rewrite Hc.
    eapply exec_bind; [apply exec_ret|].
    apply (exec_wrap_changes d _ []). intros e [].
  - reflexivity.
Qed.

Lemma single_getChanges_some d this staged h :
  js_gt (providerChangeCount H d (provider_elem this) staged) (JNum 0) = true ->
  hd_error (query d (provider_elem this)
                  (if staged then locators.stagedChanges else locators.changes)) = Some h ->
  (forall e, In e (query d (provider_elem this) (locators.itemLevel (child_level d h))) ->
             waits H d e = true) ->
  exists evs,
    Exec d (SingleScmProvider.getChanges H this staged)
         (Resolved
            (map (fun e => mkScmChange e (SingleScmProvider this))
                 (filter (fun item =>
                            in_range (data_index d h)
                                     (providerChangeCount H d (provider_elem this) staged)
                                     (data_index d item))
                         (query d (provider_elem this)
                                (locators.itemLevel (child_level d h))))))
         d evs
    /\ interactions evs = [].
Proof.
  intros Hc Hh Hw.
  destruct (exec_header_query d (provider_elem this) staged) as (e1 & He1 & Hr1).
  destruct (exec_for_items H d (data_index d h)
              (providerChangeCount H d (provider_elem this) staged)
              (query d (provider_elem this) (locators.itemLevel (child_level d h))) [])
    as (e2 & He2 & Hr2).
  eexists. split.
  - unfold SingleScmProvider.getChanges.
    eapply exec_bind; [apply exec_single_getChangeCount|]. rewrite Hc.
    eapply exec_bind.
    { eapply exec_bind; [exact He1|]. rewrite Hh.
      eapply exec_bind; [apply exec_number_attribute|].
      eapply exec_bind; [apply exec_number_attribute|].
      cbv zeta.
      eapply exec_bind; [apply exec_find_all|].
      exact He2. }
    simpl app. apply exec_wrap_changes. now apply filter_waits.
  - rewrite !interactions_app.
    rewrite (reads_only_interactions e1), (reads_only_interactions e2) by assumption.
    rewrite (reads_only_interactions _ (reads_only_wait_all _)). reflexivity.
Qed.

Lemma multi_getChanges_none d this staged count :
  count_on d this staged = Resolved count ->
  js_gt count (JNum 0) = false ->
  exists evs,
    Exec d (MultiScmProvider.getChanges H this staged) (Resolved []) d evs
    /\ interactions evs = [].
Proof.
  intros Hcount Hc.
  destruct (exec_getChangeCount H d this staged) as (e0 & He0 & Hr0).
  rewrite Hcount in He0.
  eexists. split.
  - unfold MultiScmProvider.getChanges.
    eapply exec_bind; [exact He0|]. rewrite Hc.
    apply (exec_wrap_changes d _ []). intros e [].
  - rewrite !interactions_app, (reads_only_interactions e0) by assumption. reflexivity.
Qed.

Lemma multi_getChanges_no_header d this staged count :
  count_on d this staged = Resolved count ->
  js_gt count (JNum 0) = true ->
  (forall x, In x (query d (provider_elem this)
                         (if staged then locators.stagedChanges else locators.changes)) ->
             js_gt (data_index d x) (data_index d (provider_elem this)) = false) ->
  exists evs,
    Exec d (MultiScmProvider.getChanges H this staged) (Resolved []) d evs
    /\ interactions evs = [].
Proof.
  intros Hcount Hc Hnone.
  destruct (exec_getChangeCount H d this staged) as (e0 & He0 & Hr0).
  rewrite Hcount in He0.
  destruct (exec_headers_query d (provider_elem this) staged) as (e1 & He1 & Hr1).
  destruct (exec_for_headers H d (data_index d (provider_elem this))
              (query d (provider_elem this)
                     (if staged then locators.stagedChanges else locators.changes)) None)
    as (e2 & He2 & Hr2).
  rewrite pick_header_none in He2 by exact Hnone.
  eexists. split.
  - unfold MultiScmProvider.getChanges.
    eapply exec_bind; [exact He0|]. rewrite Hc.
    eapply exec_bind; [apply exec_number_attribute|].
    eapply exec_bind; [exact He1|].
    eapply exec_bind; [exact He2|].
    apply exec_ret.
  - rewrite !interactions_app.
    rewrite (reads_only_interactions e0), (reads_only_interactions e1),
      (reads_only_interactions e2) by assumption.
    reflexivity.
Qed.

Lemma multi_getChanges_some d this staged count pre h post :
  count_on d this staged = Resolved count ->
  js_gt count (JNum 0) = true ->
  query d (provider_elem this)
        (if staged then locators.stagedChanges else locators.changes) = pre ++ h :: post ->
  js_gt (data_index d h) (data_index d (provider_elem this)) = true ->
  (forall x, In x post ->
             js_gt (data_index d x) (data_index d (provider_elem this)) = false) ->
  (forall e, In e (query d (view_elem (provider_view this))
                         (locators.itemLevel (child_level d h))) ->
             waits H d e = true) ->
  exists evs,
    Exec d (MultiScmProvider.getChanges H this staged)
         (Resolved
            (map (fun e => mkScmChange e (MultiScmProvider this))
                 (filter (fun item => in_range (data_index d h) count (data_index d item))
                         (query d (view_elem (provider_view this))
                                (locators.itemLevel (child_level d h))))))
         d evs
    /\ interactions evs = [].
Proof.
  intros Hcount Hc Hsplit Hh Hpost Hw.
  destruct (exec_getChangeCount H d this staged) as (e0 & He0 & Hr0).
  rewrite Hcount in He0.
  destruct (exec_headers_query d (provider_elem this) staged) as (e1 & He1 & Hr1).
  destruct (exec_for_headers H d (data_index d (provider_elem this))
              (query d (provider_elem this)
                     (if staged then locators.stagedChanges else locators.changes)) None)
    as (e2 & He2 & Hr2).
  rewrite Hsplit, (pick_header_last d _ pre h post None Hh Hpost) in He2.
  rewrite Hsplit in He1.
  destruct (exec_for_items H d (data_index d h) count
              (query d (view_elem (provider_view this))
                     (locators.itemLevel (child_level d h))) [])
    as (e3 & He3 & Hr3).
  eexists. split.
  - unfold MultiScmProvider.getChanges.
    eapply exec_bind; [exact He0|]. rewrite Hc.
    eapply exec_bind; [apply exec_number_attribute|].
    eapply exec_bind; [exact He1|].
    eapply exec_bind; [exact He2|].
    eapply exec_bind; [apply exec_number_attribute|].
    eapply exec_bind; [apply exec_number_attribute|].
    cbv zeta.
    eapply exec_bind; [apply exec_find_all|].
    eapply exec_bind; [exact He3|].
    simpl app. apply exec_wrap_changes. now apply filter_waits.
  - rewrite !interactions_app.
    rewrite (reads_only_interactions e0), (reads_only_interactions e1),
      (reads_only_interactions e2), (reads_only_interactions e3) by assumption.
    rewrite (reads_only_interactions _ (reads_only_wait_all _)). reflexivity.
Qed.

End GetChanges.

(** C2, as the code has it.  For [SingleScmProvider.getChanges] the header
    is the first staged (or unstaged) header row below the provider; for
    [MultiScmProvider.getChanges] it is the last header row, in DOM order,
    below the provider whose [data-index] exceeds the provider's own, and
    when no header row does the result is empty.  With that header, its
    [data-index] as [startIndex] and [count] the change count: when [count]
    is positive the result holds, in DOM order, exactly the rows at the
    child level ([aria-level] of the header + 1) whose [data-index] [i] has
    [startIndex < i <= startIndex + count]; when [count] is not positive the
    result is empty.  (Rows are wrapped once they show up when waited for.) *)
Theorem getChanges_rows_in_range (H : Host) (this : ProviderObj) (staged : bool)
        (d : Dom) :
  ((js_gt (providerChangeCount H d (provider_elem this) staged) (JNum 0) = false ->
    exists evs,
      Exec d (SingleScmProvider.getChanges H this staged) (Resolved []) d evs
      /\ interactions evs = [])
   /\ (forall h,
         js_gt (providerChangeCount H d (provider_elem this) staged) (JNum 0) = true ->
         hd_error (query d (provider_elem this)
                         (if staged then locators.stagedChanges else locators.changes))
         = Some h ->
         (forall e, In e (query d (provider_elem this) (locators.itemLevel (child_level d h))) ->
                    waits H d e = true) ->
         exists evs,
           Exec d (SingleScmProvider.getChanges H this staged)
                (Resolved
                   (map (fun e => mkScmChange e (SingleScmProvider this))
                        (filter (fun item =>
                                   in_range (data_index d h)
                                            (providerChangeCount H d (provider_elem this) staged)
                                            (data_index d item))
                                (query d (provider_elem this)
                                       (locators.itemLevel (child_level d h))))))
                d evs
           /\ interactions evs = []))
  /\ (forall count,
        fst (MultiScmProvider.getChangeCount H this staged (mkSession d [])) = Resolved count ->
        (js_gt count (JNum 0) = false ->
         exists evs,
           Exec d (MultiScmProvider.getChanges H this staged) (Resolved []) d evs
           /\ interactions evs = [])
        /\ (forall pre h post,
              js_gt count (JNum 0) = true ->
              query d (provider_elem this)
                    (if staged then locators.stagedChanges else locators.changes)
              = pre ++ h :: post ->
              js_gt (data_index d h) (data_index d (provider_elem this)) = true ->
              (forall x, In x post ->
                         js_gt (data_index d x) (data_index d (provider_elem this)) = false) ->
              (forall e, In e (query d (view_elem (provider_view this))
                                     (locators.itemLevel (child_level d h))) ->
                         waits H d e = true) ->
              exists evs,
                Exec d (MultiScmProvider.getChanges H this staged)
                     (Resolved
                        (map (fun e => mkScmChange e (MultiScmProvider this))
                             (filter (fun item =>
                                        in_range (data_index d h) count (data_index d item))
                                     (query d (view_elem (provider_view this))
                                            (locators.itemLevel (child_level d h))))))
                     d evs
                /\ interactions evs = [])
        /\ (js_gt count (JNum 0) = true ->
            (forall x, In x (query d (provider_elem this)
                                   (if staged then locators.stagedChanges
                                    else locators.changes)) ->
                       js_gt (data_index d x) (data_index d (provider_elem this)) = false) ->
            exists evs,
              Exec d (MultiScmProvider.getChanges H this staged) (Resolved []) d evs
              /\ interactions evs = [])).
Proof.
  split; [split|].
  - apply single_getChanges_none.
  - intros h. apply single_getChanges_some.
  - intros count Hrun.
    assert (Hcount : count_on d this staged = Resolved count).
    { destruct (exec_getChangeCount H d this staged) as (e0 & He0 & _).
      rewrite (He0 []) in Hrun. exact Hrun. }
    split; [|split].
    + now apply multi_getChanges_none.
    + intros pre h post. now apply multi_getChanges_some.
    + now apply multi_getChanges_no_header.
Qed.

Lemma getChanges_rows_in_range_witness :
  exists evs,
    Exec multi_dom
         (MultiScmProvider.getChanges idle_host (mkProviderObj 10 (mkNewScmView 0)) true)
         (Resolved
            [mkScmChange 13 (MultiScmProvider (mkProviderObj 10 (mkNewScmView 0)));
             mkScmChange 14 (MultiScmProvider (mkProviderObj 10 (mkNewScmView 0)))])
         multi_dom evs
    /\ interactions evs = [].
Proof.
  apply (proj1 (proj2 (proj2 (getChanges_rows_in_range idle_host
                                (mkProviderObj 10 (mkNewScmView 0)) true multi_dom)
                             (JNum 2) eq_refl)) [] 12 []).
  - reflexivity.
  - reflexivity.
  - reflexivity.
  - intros x [].
  - intros e _. reflexivity.
Defined.

(** The claim C2 read with "the header row" as the provider's header row
    fails on [stray_dom]: the change count of provider 11 is 2, its one
    staged header row is 12, rows 13 and 14 are at the child level of that
    header with [data-index] in (1, 3], and yet [getChanges(true)] is empty. *)
Lemma getChanges_header_before_provider_counterexample :
  fst (MultiScmProvider.getChangeCount idle_host (mkProviderObj 11 (mkNewScmView 0)) true
         (mkSession stray_dom [])) = Resolved (JNum 2)
  /\ query stray_dom 11 locators.stagedChanges = [12]
  /\ filter (fun item => in_range (data_index stray_dom 12) (JNum 2) (data_index stray_dom item))
            (query stray_dom 0 (locators.itemLevel (child_level stray_dom 12))) = [13; 14]
  /\ fst (MultiScmProvider.getChanges idle_host (mkProviderObj 11 (mkNewScmView 0)) true
            (mkSession stray_dom [])) = Resolved [].
Proof. repeat split; reflexivity. Qed.

Lemma getChangeCount_reads_first_row_witness :
  exists evs,
    Exec multi_dom
         (MultiScmProvider.getChangeCount idle_host (mkProviderObj 11 (mkNewScmView 0)) true)
         (Resolved (JNum 2)) multi_dom evs
    /\ interactions evs = [].
Proof.
  apply (proj1 (proj1 (getChangeCount_reads_first_row idle_host
                         (mkProviderObj 11 (mkNewScmView 0)) true multi_dom)
                      15 12 [15] (or_intror (or_introl eq_refl)) eq_refl eq_refl) 40).
  reflexivity.
Defined.

Lemma getProviders_branches_witness :
  exists evs,
    Exec multi_dom (NewScmView.getProviders idle_host (mkNewScmView 0))
         (Resolved [MultiScmProvider (mkProviderObj 10 (mkNewScmView 0));
                    MultiScmProvider (mkProviderObj 11 (mkNewScmView 0))])
         multi_dom evs
    /\ interactions evs = [].
Proof.
  apply (proj2 (proj2 (getProviders_branches idle_host (mkNewScmView 0) multi_dom))).
  - discriminate.
  - intros [E _]. discriminate E.
  - intros e _. reflexivity.
Defined.

(** * Input.toggleAllQuickPicks *)

(** C10.  The guard [checkboxes.length < 0] is false for every list, so
    [toggleAllQuickPicks] always goes on to [checkboxes[0]]; when there is no
    select-all checkbox that access is past the end and the call rejects
    with a TypeError instead of resolving without doing anything. *)
Theorem toggleAllQuickPicks_guard_never_holds (H : Host) (this : Input) (state : bool) :
  (forall checkboxes, Input.no_checkboxes checkboxes = false)
  /\ (forall s,
        Input.toggleAllQuickPicks H this state s
        = (checkboxes <- find_all H (input_elem this) locators.quickPickSelectAll ;;
           Input.toggle_first H checkboxes state) s)
  /\ (forall d,
        query d (input_elem this) locators.quickPickSelectAll = [] ->
        exists evs,
          Exec d (Input.toggleAllQuickPicks H this state) (Rejected TypeError) d evs
          /\ interactions evs = []).
Proof.
  assert (Hguard : forall checkboxes, Input.no_checkboxes checkboxes = false).
  { intros cbs. unfold Input.no_checkboxes. apply Z.ltb_ge. lia. }
  split; [exact Hguard|]. split.
  - intros s. unfold Input.toggleAllQuickPicks, bind.
    destruct (find_all H (input_elem this) locators.quickPickSelectAll s) as [[cbs|err|] s'];
      try reflexivity.
    now rewrite Hguard.
  - intros d Hnone. eexists. split.
    + unfold Input.toggleAllQuickPicks.
      eapply exec_bind; [apply exec_find_all|].
      rewrite Hguard, Hnone. unfold Input.toggle_first.
      apply exec_bind_rejected. apply exec_throw.
    + reflexivity.
Qed.

Lemma toggleAllQuickPicks_guard_never_holds_witness :
  exists evs,
    Exec bare_input_dom (Input.toggleAllQuickPicks idle_host (mkInput 0) true)
         (Rejected TypeError) bare_input_dom evs
    /\ interactions evs = [].
Proof.
  apply (proj2 (proj2 (toggleAllQuickPicks_guard_never_holds idle_host (mkInput 0) true))
           bare_input_dom).
  reflexivity.
Defined.

(** * QuickPickItem.getDescription and Input.back *)

(** A rejection that is awaited inside [try] reaches the handler ... *)
Lemma try_catch_awaited_rejection {A} (p : M A) (handler : Error -> M A) d err d1 e1 r d2 e2 :
  Exec d p (Rejected err) d1 e1 ->
  Exec d1 (handler err) r d2 e2 ->
  Exec d (try_catch (v <- p ;; ret v) handler) r d2 (e1 ++ e2).
Proof.
  intros Hp Hh l. unfold try_catch, bind. rewrite Hp, Hh. now rewrite app_assoc.
Qed.

(** ... but the rejection of a promise that the [try] block only returns
    does not: the caller gets the rejection. *)
Lemma try_catch_returned_rejection {A} (p : M A) (handler : Error -> M (M A)) d err d1 e1 :
  Exec d p (Rejected err) d1 e1 ->
  Exec d (async_return (try_catch (ret p) handler)) (Rejected err) d1 e1.
Proof.
  intros Hp l. unfold async_return, try_catch, bind, ret. apply Hp.
Qed.

Lemma getDescription_rejects (H : Host) (this : QuickPickItem) (d : Dom) :
  query d (item_elem this) locators.quickPickDescription = [] ->
  exists evs,
    Exec d (QuickPickItem.getDescription H this) (Rejected ElementNotFound) d evs
    /\ interactions evs = [].
Proof.
  intros Hnone. eexists. split.
  - unfold QuickPickItem.getDescription. apply try_catch_returned_rejection.
    eapply exec_bind; [apply exec_find_one|]. rewrite Hnone. simpl hd_error.
    apply exec_bind_rejected. apply exec_throw.
  - reflexivity.
Qed.

(** C3, the part the code misses.  On a page where the item (element 5) has
    no description element, [getDescription] does not resolve to
    [undefined]: the promise returned from inside the [try] block is not
    awaited there, so the driver's rejection bypasses the [catch]. *)
Theorem getDescription_rejects_without_description :
  fst (QuickPickItem.getDescription idle_host (mkQuickPickItem (JNum 0) 5 (mkInput 0))
         (mkSession bare_input_dom []))
  = Rejected ElementNotFound.
Proof. reflexivity. Qed.

(** The other part of C3: [back] resolves to [false], without any click,
    when there is no title bar, when the title bar is not displayed, and when
    it has no back button or the button is disabled. *)
Lemma back_resolves_false (H : Host) (this : Input) (d : Dom) :
  (query d (input_elem this) locators.titleBar = []
   \/ (exists t rest,
         query d (input_elem this) locators.titleBar = t :: rest
         /\ (displayed d t = false
             \/ query d t locators.backButton = []
             \/ exists b more, query d t locators.backButton = b :: more
                               /\ enabled d b = false))) ->
  exists evs,
    Exec d (Input.back H this) (Resolved false) d evs /\ interactions evs = [].
Proof.
  intros [Hnone | (t & rest & Ht & Hcase)].
  - eexists. split.
    + unfold Input.back. eapply exec_bind; [apply exec_find_all|]. rewrite Hnone. simpl.
      eapply exec_bind; [apply exec_ret|]. apply exec_ret.
    + reflexivity.
  - destruct (displayed d t) eqn:Eshown.
    + destruct Hcase as [Hd | [Hnob | (b & more & Hb & Hen)]]; [discriminate| |].
      * eexists. split.
        -- unfold Input.back. eapply exec_bind; [apply exec_find_all|]. rewrite Ht. simpl.
           eapply exec_bind.
           { eapply exec_bind; [apply exec_ret|]. apply (exec_read H d (req_isDisplayed t)).
             reflexivity. }
           simpl answer. rewrite Eshown.
           eapply exec_bind; [apply exec_ret|].
           eapply exec_bind; [apply exec_find_all|]. rewrite Hnob. simpl.
           eapply exec_bind; [apply exec_ret|]. apply exec_ret.
        -- reflexivity.
      * eexists. split.
        -- unfold Input.back. eapply exec_bind; [apply exec_find_all|]. rewrite Ht. simpl.
           eapply exec_bind.
           { eapply exec_bind; [apply exec_ret|]. apply (exec_read H d (req_isDisplayed t)).
             reflexivity. }
           simpl answer. rewrite Eshown.
           eapply exec_bind; [apply exec_ret|].
           eapply exec_bind; [apply exec_find_all|]. rewrite Hb. simpl.
           eapply exec_bind.
           { eapply exec_bind; [apply exec_ret|]. apply (exec_read H d (req_isEnabled b)).
             reflexivity. }
           simpl answer. rewrite Hen. apply exec_ret.
        -- reflexivity.
    + eexists. split.
      * unfold Input.back. eapply exec_bind; [apply exec_find_all|]. rewrite Ht. simpl.
        eapply exec_bind.
        { eapply exec_bind; [apply exec_ret|]. apply (exec_read H d (req_isDisplayed t)).
          reflexivity. }
        simpl answer. rewrite Eshown. apply exec_ret.
      * reflexivity.
Qed.

(** [back] clicks the first back button of the first title bar when both
    are there, the bar is displayed and the button enabled. *)
Lemma back_clicks_button (H : Host) (this : Input) (d : Dom) t rest b more :
  query d (input_elem this) locators.titleBar = t :: rest ->
  displayed d t = true ->
  query d t locators.backButton = b :: more ->
  enabled d b = true ->
  exists evs,
    Exec d (Input.back H this) (Resolved true) (react H (Click b) d) evs
    /\ interactions evs = [Click b].
Proof.
  intros Ht Hshown Hb Hen. eexists. split.
  - unfold Input.back. eapply exec_bind; [apply exec_find_all|]. rewrite Ht. simpl.
    eapply exec_bind.
    { eapply exec_bind; [apply exec_ret|]. apply (exec_read H d (req_isDisplayed t)).
      reflexivity. }
    simpl answer. rewrite Hshown.
    eapply exec_bind; [apply exec_ret|].
    eapply exec_bind; [apply exec_find_all|]. rewrite Hb. simpl.
    eapply exec_bind.
    { eapply exec_bind; [apply exec_ret|]. apply (exec_read H d (req_isEnabled b)).
      reflexivity. }
    simpl answer. rewrite Hen.
    eapply exec_bind; [apply exec_ret|].
    eapply exec_bind; [apply exec_click | apply exec_ret].
  - reflexivity.
Qed.

(** * Round-trips in flight *)

Ltac unfold_driver :=
  unfold find_all_in, find_all, find_one, getAttribute, getTextOf, isDisplayed, isEnabled,
    isSelected, click, addValue, clearValue, on_elem, at_index, length_of, number_attribute.

(** Walks down a computation built from the driver commands; [side] proves
    the trace property of one awaited round-trip. *)
Ltac traced_with side :=
  repeat first
    [ assumption
    | match goal with
      | IH : forall _, _ |- Traced _ _ _ => solve [apply IH]
      end
    | solve [apply traced_ret; typeclasses eauto]
    | solve [apply traced_throw; typeclasses eauto]
    | solve [apply traced_pending; typeclasses eauto]
    | apply traced_bind; [typeclasses eauto | | intros ]
    | apply traced_try_catch; [typeclasses eauto | | intros ]
    | apply traced_await; side
    | match goal with
      | |- Traced _ _ (if ?b then _ else _) => destruct b
      | |- Traced _ _ (match ?x with _ => _ end) => destruct x
      | |- Traced _ _ (let _ := _ in _) => cbv zeta
      end
    | progress unfold_driver ].

Ltac one_at_a_time := traced_with ltac:(apply at_most_pair).

Lemma page_downs_app a b : page_downs (a ++ b) = (page_downs a + page_downs b)%nat.
Proof.
  induction a as [|[c|c] a IH]; simpl; auto.
  destruct (is_page_down c); simpl; now rewrite IH.
Qed.

#[export] Instance no_page_down_inv : TraceInv no_page_down.
Proof.
  split; [reflexivity|]. unfold no_page_down. intros a b Ha Hb.
  rewrite page_downs_app. lia.
Qed.

Lemma reads_only_page_downs evs : reads_only evs -> page_downs evs = 0%nat.
Proof.
  induction 1 as [|[c|c] evs Hc _ IH]; simpl in *; auto.
  destruct c; simpl in *; auto; discriminate.
Qed.

(** ** The methods that await one command after the other *)

Section Sequential.
Variable H : Host.

Lemma traced_ext {A} P (m m' : M A) :
  (forall s, m s = m' s) -> Traced H P m' -> Traced H P m.
Proof.
  intros Heq Hm d. destruct (Hm d) as (r & evs & He & HP).
  exists r, evs. split; auto. intros l. rewrite Heq. apply He.
Qed.

(** A promise returned from inside [try] is simply the result. *)
Lemma async_return_try {A} (p : M A) handler s :
  async_return (try_catch (ret p) handler) s = p s.
Proof. reflexivity. Qed.

(** Any trace property that every round-trip other than a PageDown key
    press has. *)
Section NoPaging.
Context (P : list Event -> Prop) `{TraceInv P}.
Hypothesis P_pair : forall c, is_page_down c = false -> P [Start c; Finish c].

Ltac no_paging := traced_with ltac:(apply P_pair; reflexivity).

Lemma traced_getLabel this : Traced H P (QuickPickItem.getLabel H this).
Proof. unfold QuickPickItem.getLabel. no_paging. Qed.

Lemma traced_getDescription this : Traced H P (QuickPickItem.getDescription H this).
Proof.
  unfold QuickPickItem.getDescription.
  eapply traced_ext; [apply async_return_try|]. no_paging.
Qed.

Lemma traced_select this : Traced H P (QuickPickItem.select H this).
Proof. unfold QuickPickItem.select. no_paging. Qed.

Lemma traced_input_field this : Traced H P (Input.input_field H this).
Proof. unfold Input.input_field. no_paging. Qed.

Lemma traced_getText this : Traced H P (Input.getText H this).
Proof. pose proof (traced_input_field this). unfold Input.getText. no_paging. Qed.

Lemma traced_getPlaceHolder this : Traced H P (Input.getPlaceHolder H this).
Proof. pose proof (traced_input_field this). unfold Input.getPlaceHolder. no_paging. Qed.

Lemma traced_confirm this : Traced H P (Input.confirm H this).
Proof. pose proof (traced_input_field this). unfold Input.confirm. no_paging. Qed.

Lemma traced_cancel this : Traced H P (Input.cancel H this).
Proof. pose proof (traced_input_field this). unfold Input.cancel. no_paging. Qed.

Lemma traced_clear this : Traced H P (Input.clear H this).
Proof. pose proof (traced_input_field this). unfold Input.clear. no_paging. Qed.

Lemma traced_setText this text : Traced H P (Input.setText H this text).
Proof.
  pose proof (traced_input_field this). pose proof (traced_clear this).
  pose proof (traced_getText this). unfold Input.setText. no_paging.
Qed.

Lemma traced_resetPosition this : Traced H P (Input.resetPosition H this).
Proof.
  pose proof (traced_clear this). pose proof (traced_getText this).
  pose proof (traced_setText this). unfold Input.resetPosition. no_paging.
Qed.

Lemma traced_getQuickPicks this : Traced H P (Input.getQuickPicks H this).
Proof. unfold Input.getQuickPicks. no_paging. Qed.

Lemma traced_is_match key pick : Traced H P (Input.is_match H key pick).
Proof.
  pose proof (traced_getLabel pick). unfold Input.is_match. no_paging.
Qed.

Lemma traced_for_picks this key : forall picks endReached,
  Traced H P (Input.for_picks H this key picks endReached).
Proof.
  induction picks as [|pick picks IH]; intros endReached; simpl.
  - no_paging.
  - pose proof (traced_is_match key pick). no_paging; apply IH.
Qed.

Lemma traced_toggleAllQuickPicks this state :
  Traced H P (Input.toggleAllQuickPicks H this state).
Proof. unfold Input.toggleAllQuickPicks, Input.toggle_first. no_paging. Qed.

Lemma traced_getTitle this : Traced H P (Input.getTitle H this).
Proof. unfold Input.getTitle. no_paging. Qed.

Lemma traced_back this : Traced H P (Input.back H this).
Proof. unfold Input.back. no_paging. Qed.

Lemma traced_getMessage this : Traced H P (ModalDialog.getMessage H this).
Proof. unfold ModalDialog.getMessage. no_paging. Qed.

Lemma traced_getDetails this : Traced H P (ModalDialog.getDetails H this).
Proof. unfold ModalDialog.getDetails. no_paging. Qed.

Lemma traced_dialog_close this : Traced H P (ModalDialog.close H this).
Proof. unfold ModalDialog.close. no_paging. Qed.

Lemma traced_center_close this : Traced H P (NotificationsCenter.close H this).
Proof. unfold NotificationsCenter.close. no_paging. Qed.

Lemma traced_clearAllNotifications this :
  Traced H P (NotificationsCenter.clearAllNotifications H this).
Proof. unfold NotificationsCenter.clearAllNotifications. no_paging. Qed.

Lemma traced_getButtons this : Traced H P (ModalDialog.getButtons H this).
Proof. unfold ModalDialog.getButtons. no_paging. Qed.

Lemma traced_for_rows type : forall elements notifications,
  Traced H P (NotificationsCenter.for_rows H type elements notifications).
Proof.
  induction elements as [|e elements IH]; intros notifications; simpl.
  - no_paging.
  - unfold NotificationsCenter.getType. no_paging; apply IH.
Qed.

Lemma traced_getNotifications this type :
  Traced H P (NotificationsCenter.getNotifications H this type).
Proof.
  pose proof (traced_for_rows type).
  unfold NotificationsCenter.getNotifications. no_paging.
Qed.

Lemma traced_for_count_rows this rows index : forall remaining,
  Traced H P (MultiScmProvider.for_count_rows H this rows remaining index).
Proof.
  induction remaining as [|row remaining IH]; simpl; no_paging.
Qed.

Lemma traced_getChangeCount this staged :
  Traced H P (MultiScmProvider.getChangeCount H this staged).
Proof.
  pose proof (traced_for_count_rows this).
  unfold MultiScmProvider.getChangeCount. no_paging.
Qed.

Lemma traced_commitChanges this message :
  Traced H P (MultiScmProvider.commitChanges H this message).
Proof. unfold MultiScmProvider.commitChanges. no_paging. Qed.

Lemma traced_multi_openMoreActions this :
  Traced H P (MultiScmProvider.openMoreActions H this).
Proof. unfold MultiScmProvider.openMoreActions. no_paging. Qed.

Lemma traced_single_openMoreActions this :
  Traced H P (SingleScmProvider.openMoreActions H this).
Proof. unfold SingleScmProvider.openMoreActions. no_paging. Qed.

Lemma traced_single_getTitle this : Traced H P (SingleScmProvider.getTitle this).
Proof. unfold SingleScmProvider.getTitle. no_paging. Qed.

Lemma traced_single_getType this : Traced H P (SingleScmProvider.getType this).
Proof. unfold SingleScmProvider.getType. no_paging. Qed.

Lemma traced_launch_select this : Traced H P (DebugView.launch_select H this).
Proof. unfold DebugView.launch_select. no_paging. Qed.

Lemma traced_getLaunchConfiguration this :
  Traced H P (DebugView.getLaunchConfiguration H this).
Proof.
  pose proof (traced_launch_select this). unfold DebugView.getLaunchConfiguration. no_paging.
Qed.

Lemma traced_for_options : forall options configs,
  Traced H P (DebugView.for_options H options configs).
Proof.
  induction options as [|o options IH]; intros configs; simpl; no_paging.
Qed.

Lemma traced_getLaunchConfigurations this :
  Traced H P (DebugView.getLaunchConfigurations H this).
Proof.
  pose proof (traced_launch_select this). pose proof traced_for_options.
  unfold DebugView.getLaunchConfigurations. no_paging.
Qed.

Lemma traced_selectLaunchConfiguration this title :
  Traced H P (DebugView.selectLaunchConfiguration H this title).
Proof.
  pose proof (traced_launch_select this).
  unfold DebugView.selectLaunchConfiguration. no_paging.
Qed.

Lemma traced_start this : Traced H P (DebugView.start H this).
Proof. unfold DebugView.start. no_paging. Qed.

Lemma traced_for_items startIndex count : forall items elements,
  Traced H P (for_items H startIndex count items elements).
Proof.
  induction items as [|item items IH]; intros elements; simpl; no_paging.
Qed.

Lemma traced_for_headers index : forall headers header,
  Traced H P (MultiScmProvider.for_headers H headers index header).
Proof.
  induction headers as [|item headers IH]; intros header; simpl; no_paging.
Qed.

Lemma traced_single_getChangeCount this staged :
  Traced H P (SingleScmProvider.getChangeCount H this staged).
Proof. unfold SingleScmProvider.getChangeCount. no_paging. Qed.

End NoPaging.

Lemma at_most_pair_any c : is_page_down c = false -> at_most 1 [Start c; Finish c].
Proof. intros _. apply at_most_pair. Qed.

(** The scan loop, PageDown included, awaits each command in turn. *)
Lemma seq_while_not_end this field key : forall fuel,
  Traced H (at_most 1) (Input.while_not_end H fuel this field key).
Proof.
  induction fuel as [|fuel IH]; simpl.
  - one_at_a_time.
  - pose proof (traced_getQuickPicks (at_most 1) at_most_pair_any this).
    pose proof (traced_for_picks (at_most 1) at_most_pair_any this key).
    one_at_a_time.
Qed.

Lemma seq_findQuickPick fuel this key :
  Traced H (at_most 1) (Input.findQuickPick H fuel this key).
Proof.
  pose proof (traced_input_field (at_most 1) at_most_pair_any this).
  pose proof (traced_resetPosition (at_most 1) at_most_pair_any this).
  pose proof (seq_while_not_end this).
  unfold Input.findQuickPick. one_at_a_time.
Qed.

Lemma seq_selectQuickPick fuel this key :
  Traced H (at_most 1) (Input.selectQuickPick H fuel this key).
Proof.
  pose proof (seq_findQuickPick fuel this key).
  pose proof (traced_resetPosition (at_most 1) at_most_pair_any this).
  pose proof (traced_select (at_most 1) at_most_pair_any).
  unfold Input.selectQuickPick. one_at_a_time.
Qed.

End Sequential.

Lemma in_flight_app a b :
  end_depth 0 a = 0%nat -> in_flight (a ++ b) = Nat.max (in_flight a) (in_flight b).
Proof. intros Ha. unfold in_flight. now rewrite peak_from_app, Ha. Qed.

Lemma end_depth_all_trace {A} (f : A -> Command) xs : end_depth 0 (all_trace f xs) = 0%nat.
Proof. apply (at_most_all_trace f xs). Qed.

Lemma in_flight_gather {A} (f : A -> Command) xs k :
  in_flight (gather_trace f xs k) = List.length xs.
Proof.
  unfold in_flight, gather_trace.
  rewrite peak_from_app, peak_from_starts, end_depth_starts, peak_from_finishes. simpl. lia.
Qed.

Lemma one_by_one_pair c : one_by_one [Start c; Finish c].
Proof. split; reflexivity. Qed.

Lemma one_by_one_then a b : one_by_one a -> at_most 1 b -> one_by_one (a ++ b).
Proof.
  intros [Ha1 Ha2] [Hb1 Hb2]. split.
  - now rewrite end_depth_app, Ha1.
  - rewrite in_flight_app by exact Ha1. lia.
Qed.

Section Gathered.
Variable H : Host.

(** What follows the title reads in [pushButton] and [takeAction]: at
    most the click, on its own. *)
Lemma exec_click_at {A} d (buttons : list Element) (i : nat) (k : M A) :
  (forall d', exists r, Exec d' k r d' []) ->
  exists r d' evs,
    Exec d (b <- at_index buttons i ;; click H b ;;; k) r d' evs
    /\ at_most 1 evs.
Proof.
  intros Hk. unfold at_index. destruct (nth_error buttons i) as [b|].
  - destruct (Hk (react H (Click b) d)) as [r Hr].
    exists r, (react H (Click b) d), ([] ++ ([Start (Click b); Finish (Click b)] ++ [])).
    split.
    + eapply exec_bind; [apply exec_ret|].
      eapply exec_bind; [apply exec_click|]. exact Hr.
    + split; cbn; lia.
  - exists (Rejected TypeError), d, []. split; [|apply at_most_nil].
    apply exec_bind_rejected, exec_throw.
Qed.

(** One command, reads gathered over [xs], then at most one command at a
    time: [xs] round-trips in flight, and one when [xs] is empty. *)
Lemma in_flight_reads_between {A} (f : A -> Command) xs pre post :
  one_by_one pre -> at_most 1 post ->
  in_flight (pre ++ all_trace f xs ++ post) = Nat.max 1 (List.length xs).
Proof.
  intros [Hpre1 Hpre2] [Hpost1 Hpost2].
  rewrite in_flight_app by exact Hpre1.
  rewrite in_flight_app by apply end_depth_all_trace.
  rewrite in_flight_all_trace. lia.
Qed.

Lemma pushButton_in_flight this title d :
  exists r d' evs,
    Exec d (ModalDialog.pushButton H this title) r d' evs
    /\ in_flight evs = Nat.max 1 (List.length (buttons_on d this)).
Proof.
  unfold buttons_on.
  destruct (hd_error (query d (dialog_elem this) locators.buttonContainer)) as [c|] eqn:Hc.
  - unfold ModalDialog.pushButton.
    set (buttons := query d c locators.button).
    set (index := findIndex (fun value => js_str_eq value (Some title))
                            (map (fun b => attribute d b "title") buttons)).
    assert (Htail : exists r d' evs,
               Exec d (if (-1 <? index)%Z
                       then b <- at_index buttons (Z.to_nat index) ;; click H b
                       else ret tt) r d' evs /\ at_most 1 evs).
    { destruct (-1 <? index)%Z.
      - destruct (exec_click_at d buttons (Z.to_nat index) (ret tt))
          as (r & d' & evs & He & Hm).
        { intros d'. exists (Resolved tt). apply exec_ret. }
        exists r, d', evs. split; auto.
        intros l. rewrite <- (He l). unfold bind, at_index.
        destruct (nth_error buttons (Z.to_nat index)); simpl; auto.
      - exists (Resolved tt), d, []. split; [apply exec_ret | apply at_most_nil]. }
    destruct Htail as (r & d' & evs & He & Hone).
    eexists r, d', _. split.
    + eapply exec_bind; [apply exec_getButtons, Hc|].
      eapply exec_bind; [apply exec_title_reads|].
      cbv zeta. exact He.
    + fold buttons. apply in_flight_reads_between; [|exact Hone].
      apply one_by_one_then; [apply one_by_one_pair | apply at_most_pair].
  - assert (Hnone : query d (dialog_elem this) locators.buttonContainer = [])
      by (destruct (query d (dialog_elem this) locators.buttonContainer);
          [reflexivity | discriminate]).
    eexists _, d, _. split.
    + unfold ModalDialog.pushButton.
      apply exec_bind_rejected. apply exec_getButtons_missing, Hnone.
    + reflexivity.
Qed.

Lemma takeAction_in_flight this title d :
  exists r d' evs,
    Exec d (MultiScmProvider.takeAction H this title) r d' evs
    /\ in_flight evs = Nat.max 1 (List.length (query d (provider_elem this) locators.action)).
Proof.
  unfold MultiScmProvider.takeAction.
  set (actions := query d (provider_elem this) locators.action).
  set (index := findIndex (fun item => js_str_eq item (Some title))
                          (map (fun b => attribute d b "title") actions)).
  assert (Htail : exists r d' evs,
             Exec d (if (-1 <? index)%Z
                     then a <- at_index actions (Z.to_nat index) ;; click H a ;;; ret true
                     else ret false) r d' evs /\ at_most 1 evs).
  { destruct (-1 <? index)%Z.
    - apply exec_click_at. intros d'. exists (Resolved true). apply exec_ret.
    - exists (Resolved false), d, []. split; [apply exec_ret | apply at_most_nil]. }
  destruct Htail as (r & d' & evs & He & Hone).
  eexists r, d', _. split.
  - eapply exec_bind; [apply exec_find_all|].
    eapply exec_bind; [apply exec_title_reads|].
    cbv zeta. exact He.
  - fold actions. apply in_flight_reads_between; [apply one_by_one_pair | exact Hone].
Qed.

Lemma exec_getTitle_reads d (buttons : list Element) :
  Exec d (promise_all H
            (map (fun button => mkRequest (Call "getTitle" button)
                                          (fun d => Resolved (actionTitle H d button)))
                 buttons))
       (Resolved (map (actionTitle H d) buttons)) d
       (all_trace (fun b => Call "getTitle" b) buttons).
Proof.
  apply (exec_promise_all_reads H
           (fun button => mkRequest (Call "getTitle" button)
                                    (fun d => Resolved (actionTitle H d button)))
           (actionTitle H d)).
  intros; split; reflexivity.
Qed.

Lemma single_takeAction_in_flight this title d :
  exists r d' evs,
    Exec d (SingleScmProvider.takeAction H this title) r d' evs
    /\ in_flight evs
       = Nat.max 1 (List.length (titleActions H d (view_elem (provider_view this)))).
Proof.
  unfold SingleScmProvider.takeAction. cbv zeta.
  set (buttons := titleActions H d (view_elem (provider_view this))).
  set (index := findIndex (fun name => String.eqb name title)
                          (map (actionTitle H d) buttons)).
  assert (Htail : exists r d' evs,
             Exec d (if (-1 <? index)%Z
                     then b <- at_index buttons (Z.to_nat index) ;; click H b ;;; ret true
                     else ret false) r d' evs /\ at_most 1 evs).
  { destruct (-1 <? index)%Z.
    - apply exec_click_at. intros d'. exists (Resolved true). apply exec_ret.
    - exists (Resolved false), d, []. split; [apply exec_ret | apply at_most_nil]. }
  destruct Htail as (r & d' & evs & He & Hone).
  eexists r, d', _. split.
  - eapply exec_bind.
    { apply (exec_read H d (mkRequest (Call "getActions" (view_elem (provider_view this)))
                                      (fun d => Resolved (titleActions H d
                                                            (view_elem (provider_view this)))))).
      reflexivity. }
    eapply exec_bind; [apply exec_getTitle_reads|].
    exact He.
  - fold buttons. apply in_flight_reads_between; [apply one_by_one_pair | exact Hone].
Qed.

(** *** Wrappers gathered with [Promise.all] *)

Lemma gathered_promise_all {A} (rs : list (Request A)) :
  TracedAs H gathered_upto (promise_all H rs).
Proof.
  intros d. destruct (exec_promise_all H rs d) as (r & k & He & Hlen).
  exists r, (gather_trace (@cmd A) rs k). split; [exact He|].
  intros l E. destruct (Hlen l E) as [_ Hl]. now rewrite in_flight_gather, Hl.
Qed.

Lemma gathered_ret {A} (l : list A) :
  (List.length l <= 1)%nat -> TracedAs H gathered_upto (ret l).
Proof.
  intros Hl d. exists (Resolved l), []. split; [apply exec_ret|].
  intros l' E. inversion E; subst. change (in_flight []) with 0%nat. lia.
Qed.

Lemma gathered_bind {A B} (m : M A) (k : A -> M (list B)) :
  Traced H (at_most 1) m -> (forall a, TracedAs H gathered_upto (k a)) ->
  TracedAs H gathered_upto (bind m k).
Proof.
  intros Hm Hk d. destruct (Hm d) as ([a|err|] & e1 & He1 & [Hend Hpeak]).
  - destruct (Hk a (replay H e1 d)) as (r & e2 & He2 & HQ).
    exists r, (e1 ++ e2). split.
    + rewrite replay_app. eapply exec_bind; eauto.
    + intros l E. rewrite in_flight_app by exact Hend. specialize (HQ l E). lia.
  - exists (Rejected err), e1. split; [now apply exec_bind_rejected | discriminate].
  - exists Pending, e1. split; [now apply exec_bind_pending | discriminate].
Qed.

Lemma gathers_after {A B} (m : M A) (k : A -> M (list B)) :
  Traced H one_by_one m -> (forall a, TracedAs H gathered_upto (k a)) ->
  Gathers H (bind m k).
Proof.
  intros Hm Hk d. destruct (Hm d) as ([a|err|] & e1 & He1 & [Hend Hpeak]).
  - destruct (Hk a (replay H e1 d)) as (r & e2 & He2 & HQ).
    exists r, (e1 ++ e2). split.
    + rewrite replay_app. eapply exec_bind; eauto.
    + intros l E. rewrite in_flight_app by exact Hend. specialize (HQ l E). lia.
  - exists (Rejected err), e1. split; [now apply exec_bind_rejected | discriminate].
  - exists Pending, e1. split; [now apply exec_bind_pending | discriminate].
Qed.

Lemma one_by_one_await {A} (r : Request A) : Traced H one_by_one (await H r).
Proof. apply traced_await, one_by_one_pair. Qed.

Lemma one_by_one_first {A B} (r0 : Request A) (k : A -> M B) :
  (forall a, Traced H (at_most 1) (k a)) -> Traced H one_by_one (bind (await H r0) k).
Proof.
  intros Hk d. destruct (answer r0 d) as [a|err|] eqn:Ea.
  - destruct (Hk a (host_step H (cmd r0) d)) as (r & e2 & He2 & Hone).
    exists r, ([Start (cmd r0); Finish (cmd r0)] ++ e2). split.
    + rewrite replay_app. eapply exec_bind; [|exact He2].
      rewrite <- Ea. apply exec_await.
    + apply one_by_one_then; [apply one_by_one_pair | exact Hone].
  - exists (Rejected err), [Start (cmd r0); Finish (cmd r0)].
    split; [|apply one_by_one_pair].
    apply exec_bind_rejected. rewrite <- Ea. apply exec_await.
  - exists Pending, [Start (cmd r0); Finish (cmd r0)].
    split; [|apply one_by_one_pair].
    apply exec_bind_pending. rewrite <- Ea. apply exec_await.
Qed.

Ltac gathering :=
  repeat first
    [ solve [apply gathered_promise_all]
    | solve [apply gathered_ret; simpl; lia]
    | apply gathered_bind; [solve [one_at_a_time] | intros]
    | match goal with
      | |- TracedAs _ _ (if ?b then _ else _) => destruct b
      | |- TracedAs _ _ (match ?x with _ => _ end) => destruct x
      | |- TracedAs _ _ (let _ := _ in _) => cbv zeta
      end ].

Lemma gathers_getProviders this : Gathers H (NewScmView.getProviders H this).
Proof.
  unfold NewScmView.getProviders, find_all.
  apply gathers_after; [apply one_by_one_await | intros inputs].
  fold (find_all H). gathering.
Qed.

Lemma gathers_single_getChanges this staged :
  Gathers H (SingleScmProvider.getChanges H this staged).
Proof.
  pose proof (traced_for_items H (at_most 1) at_most_pair_any) as Hitems.
  unfold SingleScmProvider.getChanges, SingleScmProvider.getChangeCount.
  apply gathers_after; [apply one_by_one_await | intros count].
  unfold wrap_changes. gathering.
Qed.

Lemma one_by_one_getChangeCount this staged :
  Traced H one_by_one (MultiScmProvider.getChangeCount H this staged).
Proof.
  pose proof (traced_for_count_rows H (at_most 1) at_most_pair_any this) as Hrows.
  unfold MultiScmProvider.getChangeCount, find_all. cbv zeta.
  apply one_by_one_first. intros rows. one_at_a_time.
Qed.

Lemma gathers_multi_getChanges this staged :
  Gathers H (MultiScmProvider.getChanges H this staged).
Proof.
  pose proof (traced_for_items H (at_most 1) at_most_pair_any) as Hitems.
  pose proof (traced_for_headers H (at_most 1) at_most_pair_any) as Hheaders.
  unfold MultiScmProvider.getChanges.
  apply gathers_after; [apply one_by_one_getChangeCount | intros count].
  unfold wrap_changes. gathering.
Qed.

End Gathered.

(** Against C8: pushing a button of the dialog with three buttons has three
    round-trips (the title reads) in flight at the same time. *)
Lemma pushButton_reads_in_parallel_counterexample :
  in_flight (log (snd (ModalDialog.pushButton idle_host (mkModalDialog 0) "OK"
                         (mkSession dialog_dom [])))) = 3%nat.
Proof. reflexivity. Qed.

(** C8, as the code has it.  A method issues a command (or calls a method
    defined outside these files, which counts as one step here) and awaits
    its answer before it goes on, with one exception: where it gathers
    promises with [Promise.all], every request of the gathering is issued
    before the first answer is awaited.
    - Nothing is gathered, and never more than one round-trip is in flight,
      in the methods of [Input], [QuickPickItem], [NotificationsCenter] and
      [DebugView], in those of [ModalDialog] other than [pushButton], in
      [getChangeCount], [commitChanges] and [openMoreActions] of
      [MultiScmProvider], and in [getTitle], [getType] and [openMoreActions]
      of [SingleScmProvider].
    - [ModalDialog.pushButton] and the two [takeAction] gather the title
      reads of all their buttons: with [n] buttons, [n] round-trips are in
      flight at once (one when there is no button, or no button container).
    - [NewScmView.getProviders] and the two [getChanges] gather the
      [wait()] of the page objects they hand back: a run that resolves to
      [n] of them had [n] round-trips in flight at once (one when [n] is 0). *)
Theorem round_trips_in_flight (H : Host) :
  ((forall this, Traced H (at_most 1) (Input.getText H this))
   /\ (forall this, Traced H (at_most 1) (Input.getPlaceHolder H this))
   /\ (forall this, Traced H (at_most 1) (Input.confirm H this))
   /\ (forall this, Traced H (at_most 1) (Input.cancel H this))
   /\ (forall this, Traced H (at_most 1) (Input.clear H this))
   /\ (forall this text, Traced H (at_most 1) (Input.setText H this text))
   /\ (forall fuel this key, Traced H (at_most 1) (Input.findQuickPick H fuel this key))
   /\ (forall fuel this key, Traced H (at_most 1) (Input.selectQuickPick H fuel this key))
   /\ (forall this state, Traced H (at_most 1) (Input.toggleAllQuickPicks H this state))
   /\ (forall this, Traced H (at_most 1) (Input.getTitle H this))
   /\ (forall this, Traced H (at_most 1) (Input.back H this))
   /\ (forall this, Traced H (at_most 1) (QuickPickItem.getLabel H this))
   /\ (forall this, Traced H (at_most 1) (QuickPickItem.getDescription H this))
   /\ (forall this, Traced H (at_most 1) (QuickPickItem.select H this))
   /\ (forall this, Traced H (at_most 1) (NotificationsCenter.close H this))
   /\ (forall this, Traced H (at_most 1) (NotificationsCenter.clearAllNotifications H this))
   /\ (forall this type, Traced H (at_most 1) (NotificationsCenter.getNotifications H this type))
   /\ (forall this, Traced H (at_most 1) (ModalDialog.getMessage H this))
   /\ (forall this, Traced H (at_most 1) (ModalDialog.getDetails H this))
   /\ (forall this, Traced H (at_most 1) (ModalDialog.close H this))
   /\ (forall this, Traced H (at_most 1) (ModalDialog.getButtons H this))
   /\ (forall this staged, Traced H (at_most 1) (MultiScmProvider.getChangeCount H this staged))
   /\ (forall this message,
         Traced H (at_most 1) (MultiScmProvider.commitChanges H this message))
   /\ (forall this, Traced H (at_most 1) (MultiScmProvider.openMoreActions H this))
   /\ (forall this, Traced H (at_most 1) (SingleScmProvider.getTitle this))
   /\ (forall this, Traced H (at_most 1) (SingleScmProvider.getType this))
   /\ (forall this, Traced H (at_most 1) (SingleScmProvider.openMoreActions H this))
   /\ (forall this, Traced H (at_most 1) (DebugView.getLaunchConfiguration H this))
   /\ (forall this, Traced H (at_most 1) (DebugView.getLaunchConfigurations H this))
   /\ (forall this title,
         Traced H (at_most 1) (DebugView.selectLaunchConfiguration H this title))
   /\ (forall this, Traced H (at_most 1) (DebugView.start H this)))
  /\ ((forall this title d,
         exists r d' evs,
           Exec d (ModalDialog.pushButton H this title) r d' evs
           /\ in_flight evs = Nat.max 1 (List.length (buttons_on d this)))
      /\ (forall this title d,
            exists r d' evs,
              Exec d (MultiScmProvider.takeAction H this title) r d' evs
              /\ in_flight evs
                 = Nat.max 1 (List.length (query d (provider_elem this) locators.action)))
      /\ (forall this title d,
            exists r d' evs,
              Exec d (SingleScmProvider.takeAction H this title) r d' evs
              /\ in_flight evs
                 = Nat.max 1 (List.length (titleActions H d (view_elem (provider_view this))))))
  /\ ((forall this, Gathers H (NewScmView.getProviders H this))
      /\ (forall this staged, Gathers H (SingleScmProvider.getChanges H this staged))
      /\ (forall this staged, Gathers H (MultiScmProvider.getChanges H this staged))).
Proof.
  split; [|split].
  - repeat split; intros.
    + apply traced_getText; solve [typeclasses eauto | apply at_most_pair_any].
    + apply traced_getPlaceHolder; solve [typeclasses eauto | apply at_most_pair_any].
    + apply traced_confirm; solve [typeclasses eauto | apply at_most_pair_any].
    + apply traced_cancel; solve [typeclasses eauto | apply at_most_pair_any].
    + apply traced_clear; solve [typeclasses eauto | apply at_most_pair_any].
    + apply traced_setText; solve [typeclasses eauto | apply at_most_pair_any].
    + apply seq_findQuickPick.
    + apply seq_selectQuickPick.
    + apply traced_toggleAllQuickPicks; solve [typeclasses eauto | apply at_most_pair_any].
    + apply traced_getTitle; solve [typeclasses eauto | apply at_most_pair_any].
    + apply traced_back; solve [typeclasses eauto | apply at_most_pair_any].
    + apply traced_getLabel; solve [typeclasses eauto | apply at_most_pair_any].
    + apply traced_getDescription; solve [typeclasses eauto | apply at_most_pair_any].
    + apply traced_select; solve [typeclasses eauto | apply at_most_pair_any].
    + apply traced_center_close; solve [typeclasses eauto | apply at_most_pair_any].
    + apply traced_clearAllNotifications; solve [typeclasses eauto | apply at_most_pair_any].
    + apply traced_getNotifications; solve [typeclasses eauto | apply at_most_pair_any].
    + apply traced_getMessage; solve [typeclasses eauto | apply at_most_pair_any].
    + apply traced_getDetails; solve [typeclasses eauto | apply at_most_pair_any].
    + apply traced_dialog_close; solve [typeclasses eauto | apply at_most_pair_any].
    + apply traced_getButtons; solve [typeclasses eauto | apply at_most_pair_any].
    + apply traced_getChangeCount; solve [typeclasses eauto | apply at_most_pair_any].
    + apply traced_commitChanges; solve [typeclasses eauto | apply at_most_pair_any].
    + apply traced_multi_openMoreActions; solve [typeclasses eauto | apply at_most_pair_any].
    + apply traced_single_getTitle; solve [typeclasses eauto | apply at_most_pair_any].
    + apply traced_single_getType; solve [typeclasses eauto | apply at_most_pair_any].
    + apply traced_single_openMoreActions; solve [typeclasses eauto | apply at_most_pair_any].
    + apply traced_getLaunchConfiguration; solve [typeclasses eauto | apply at_most_pair_any].
    + apply traced_getLaunchConfigurations; solve [typeclasses eauto | apply at_most_pair_any].
    + apply traced_selectLaunchConfiguration;
        solve [typeclasses eauto | apply at_most_pair_any].
    + apply traced_start; solve [typeclasses eauto | apply at_most_pair_any].
  - split; [|split].
    + apply pushButton_in_flight.
    + apply takeAction_in_flight.
    + apply single_takeAction_in_flight.
  - split; [|split].
    + apply gathers_getProviders.
    + apply gathers_single_getChanges.
    + apply gathers_multi_getChanges.
Qed.

Lemma round_trips_in_flight_witness :
  exists evs,
    Exec multi_dom (NewScmView.getProviders idle_host (mkNewScmView 0))
         (Resolved [MultiScmProvider (mkProviderObj 10 (mkNewScmView 0));
                    MultiScmProvider (mkProviderObj 11 (mkNewScmView 0))])
         multi_dom evs
    /\ in_flight evs = 2%nat.
Proof.
  destruct (proj1 (proj2 (proj2 (round_trips_in_flight idle_host))) (mkNewScmView 0) multi_dom)
    as (r & evs & Hex & Hg).
  rewrite replay_idle in Hex.
  pose proof (f_equal fst (Hex [])) as Hr. vm_compute in Hr. subst r.
  exists evs. split; [exact Hex|].
  exact (Hg _ eq_refl).
Defined.

(** * What the page objects read and what they keep *)

Section Getters.
Variable H : Host.











End Getters.




(** * Input.findQuickPick *)

Section Pages.
Variable H : Host.
Variable this : Input.
Variable key : IndexOrText.

Lemma exec_is_match d pick :
  readable d key pick = true ->
  exists evs,
    Exec d (Input.is_match H key pick) (Resolved (matches d key pick)) d evs
    /\ reads_only evs.
Proof.
  unfold readable, matches, label_on, Input.is_match. destruct key as [s|n]; intros Hr.
  - destruct (hd_error (query d (item_elem pick) locators.quickPickLabel)) as [l|] eqn:El;
      [|discriminate].
    eexists. split.
    + eapply exec_bind.
      { unfold QuickPickItem.getLabel.
        eapply exec_bind; [apply exec_find_one|]. rewrite El. apply exec_getTextOf. }
      apply exec_ret.
    + reads_tac.
  - exists []. split; [apply exec_ret | reads_tac].
Qed.

Lemma exec_end_test d pick endReached :
  exists evs,
    Exec d
         (lastRow <- find_all H (input_elem this) locators.lastRow ;;
          if (0 <? List.length lastRow)%nat then ret true
          else
            pos <- getAttribute H (Some (item_elem pick)) "aria-posinset" ;;
            size <- getAttribute H (Some (item_elem pick)) "aria-setsize" ;;
            if js_str_eq pos size then ret true else ret endReached)
         (Resolved (sees_end d this pick || endReached)) d evs
    /\ reads_only evs.
Proof.
  unfold sees_end.
  destruct (0 <? List.length (query d (input_elem this) locators.lastRow))%nat eqn:El.
  - eexists. split.
    + eapply exec_bind; [apply exec_find_all|]. rewrite El. apply exec_ret.
    + reads_tac.
  - destruct (js_str_eq (attribute d (item_elem pick) "aria-posinset")
                        (attribute d (item_elem pick) "aria-setsize")) eqn:Eq.
    + eexists. split.
      * eapply exec_bind; [apply exec_find_all|]. rewrite El.
        eapply exec_bind; [apply exec_getAttribute|].
        eapply exec_bind; [apply exec_getAttribute|].
        rewrite Eq. apply exec_ret.
      * reads_tac.
    + eexists. split.
      * eapply exec_bind; [apply exec_find_all|]. rewrite El.
        eapply exec_bind; [apply exec_getAttribute|].
        eapply exec_bind; [apply exec_getAttribute|].
        rewrite Eq. apply exec_ret.
      * reads_tac.
Qed.

Lemma for_picks_unfold pick rest endReached s :
  Input.for_picks H this key (pick :: rest) endReached s
  = (endReached' <-
       (lastRow <- find_all H (input_elem this) locators.lastRow ;;
        if (0 <? List.length lastRow)%nat then ret true
        else
          pos <- getAttribute H (Some (item_elem pick)) "aria-posinset" ;;
          size <- getAttribute H (Some (item_elem pick)) "aria-setsize" ;;
          if js_str_eq pos size then ret true else ret endReached) ;;
     found <- Input.is_match H key pick ;;
     if found then ret (Input.Return pick)
     else Input.for_picks H this key rest endReached') s.
Proof.
  simpl. unfold bind.
  destruct (find_all H (input_elem this) locators.lastRow s) as [[lr|err|] s1]; reflexivity.
Qed.

Lemma exec_for_picks d : forall picks endReached,
  forallb (readable d key) picks = true ->
  exists evs,
    Exec d (Input.for_picks H this key picks endReached)
         (Resolved match find (matches d key) picks with
                   | Some p => Input.Return p
                   | None => Input.Done (existsb (sees_end d this) picks || endReached)
                   end) d evs
    /\ reads_only evs.
Proof.
  induction picks as [|pick picks IH]; intros endReached Hr.
  - exists []. split; [apply exec_ret | reads_tac].
  - simpl in Hr. apply andb_true_iff in Hr. destruct Hr as [Hp Hrest].
    destruct (exec_end_test d pick endReached) as (e1 & He1 & Hr1).
    destruct (exec_is_match d pick Hp) as (e2 & He2 & Hr2).
    simpl find. simpl existsb.
    destruct (matches d key pick) eqn:Em.
    + exists (e1 ++ e2 ++ []). split; [|reads_tac].
      intros l. rewrite for_picks_unfold. revert l.
      eapply exec_bind; [exact He1|].
      eapply exec_bind; [exact He2|]. apply exec_ret.
    + destruct (IH (sees_end d this pick || endReached) Hrest) as (e3 & He3 & Hr3).
      exists (e1 ++ e2 ++ e3). split; [|reads_tac].
      intros l. rewrite for_picks_unfold. revert l.
      eapply exec_bind; [exact He1|].
      eapply exec_bind; [exact He2|].
      replace (existsb (sees_end d this) picks || (sees_end d this pick || endReached))
        with (sees_end d this pick || existsb (sees_end d this) picks || endReached) in He3
        by (destruct (sees_end d this pick), (existsb (sees_end d this) picks), endReached;
            reflexivity).
      exact He3.
Qed.

Lemma exec_getQuickPicks d :
  Exec d (Input.getQuickPicks H this) (Resolved (quickPicks H this d)) d
       [Start (Call "getQuickPicks" (input_elem this));
        Finish (Call "getQuickPicks" (input_elem this))].
Proof. intros l. reflexivity. Qed.



Lemma exec_while_next d fuel f r d' evs' :
  page_quiet H this key d ->
  Exec (react H (AddValue f (Chord ["PageDown"])) d)
       (Input.while_not_end H fuel this (Some f) key) r d' evs' ->
  exists evs0,
    Exec d (Input.while_not_end H (S fuel) this (Some f) key) r d' (evs0 ++ evs')
    /\ page_downs evs0 = 1%nat
    /\ interactions evs0 = [AddValue f (Chord ["PageDown"])].
Proof.
  intros (Hr & Hm & Hend) Hrest.
  destruct (exec_for_picks d _ false Hr) as (e1 & He1 & Hr1).
  unfold page_match in Hm. unfold page_end in Hend. rewrite Hm, Hend in He1.
  exists ([Start (Call "getQuickPicks" (input_elem this));
           Finish (Call "getQuickPicks" (input_elem this))]
          ++ e1 ++ [Start (AddValue f (Chord ["PageDown"]));
                    Finish (AddValue f (Chord ["PageDown"]))]).
  split; [|split].
  - eapply exec_trace_eq.
    + simpl Input.while_not_end.
      eapply exec_bind; [apply exec_getQuickPicks|].
      eapply exec_bind; [exact He1|]. simpl orb. cbv iota.
      eapply exec_bind; [apply exec_addValue|]. exact Hrest.
    + now rewrite <- !app_assoc.
  - rewrite !page_downs_app, (reads_only_page_downs e1) by assumption. reflexivity.
  - rewrite !interactions_app, (reads_only_interactions e1) by assumption. reflexivity.
Qed.

Lemma page_after_shift f k d :
  page_after H f k (react H (AddValue f (Chord ["PageDown"])) d) = page_after H f (S k) d.
Proof. unfold page_after. now rewrite Nat.iter_succ_r. Qed.

(** [k] quiet pages in a row cost [k] PageDown presses and nothing else. *)
Lemma exec_while_pages f : forall k d fuel r d' evs',
  (forall j, (j < k)%nat -> page_quiet H this key (page_after H f j d)) ->
  Exec (page_after H f k d) (Input.while_not_end H fuel this (Some f) key) r d' evs' ->
  exists evs0,
    Exec d (Input.while_not_end H (k + fuel) this (Some f) key) r d' (evs0 ++ evs')
    /\ page_downs evs0 = k
    /\ interactions evs0 = repeat (AddValue f (Chord ["PageDown"])) k.
Proof.
  induction k as [|k IH]; intros d fuel r d' evs' Hquiet Hrest.
  - exists []. auto.
  - destruct (IH (react H (AddValue f (Chord ["PageDown"])) d) fuel r d' evs')
      as (e1 & He1 & Hp1 & Hi1).
    + intros j Hj. rewrite page_after_shift. apply Hquiet. lia.
    + rewrite page_after_shift. exact Hrest.
    + destruct (exec_while_next d (k + fuel) f r d' (e1 ++ evs')) as (e0 & He0 & Hp0 & Hi0).
      * apply (Hquiet 0%nat). lia.
      * exact He1.
      * exists (e0 ++ e1). split; [|split].
        -- rewrite <- app_assoc. exact He0.
        -- rewrite page_downs_app. lia.
        -- rewrite interactions_app, Hi0, Hi1. reflexivity.
Qed.

Lemma no_page_down_pair c : is_page_down c = false -> no_page_down [Start c; Finish c].
Proof. unfold no_page_down. simpl. now intros ->. Qed.

(** What precedes the loop: the field is looked up, the position checked
    and reset if need be; no PageDown is pressed. *)
Lemma exec_findQuickPick_start d0 d b f fuel r d' evs :
  hd_error (query d0 (input_elem this) locators.inputBox) = Some b ->
  hd_error (query d0 b locators.input) = Some f ->
  scan_starts_on H this d0 d ->
  Exec d (Input.while_not_end H fuel this (Some f) key) r d' evs ->
  exists evs0,
    Exec d0 (Input.findQuickPick H fuel this key) r d' (evs0 ++ evs)
    /\ page_downs evs0 = 0%nat
    /\ (query d0 (input_elem this) (locators.quickPickPosition 1) <> [] ->
        interactions evs0 = []).
Proof.
  intros Hb Hf Hstart Hloop.
  assert (Hfield : Exec d0 (Input.input_field H this) (Resolved (Some f)) d0
                        ([Start (FindOne (input_elem this) locators.inputBox);
                          Finish (FindOne (input_elem this) locators.inputBox)]
                         ++ [Start (FindOne b locators.input);
                             Finish (FindOne b locators.input)])).
  { unfold Input.input_field. eapply exec_bind; [apply exec_find_one|]. rewrite Hb.
    rewrite <- Hf. apply exec_find_one. }
  destruct Hstart as [[Hfirst ->] | [Hfirst [e He]]].
  - exists (([Start (FindOne (input_elem this) locators.inputBox);
              Finish (FindOne (input_elem this) locators.inputBox)]
             ++ [Start (FindOne b locators.input); Finish (FindOne b locators.input)])
            ++ [Start (FindAll (input_elem this) (locators.quickPickPosition 1));
                Finish (FindAll (input_elem this) (locators.quickPickPosition 1))]).
    split; [|split; reflexivity].
    eapply exec_trace_eq.
    + unfold Input.findQuickPick.
      eapply exec_bind; [exact Hfield|].
      eapply exec_bind; [apply exec_find_all|].
      destruct (query d0 (input_elem this) (locators.quickPickPosition 1)); [congruence|].
      simpl Nat.ltb. cbv iota.
      eapply exec_bind; [apply exec_ret|]. exact Hloop.
    + reflexivity.
  - assert (He0 : page_downs e = 0%nat).
    { destruct (traced_resetPosition H no_page_down no_page_down_pair this d0)
        as (r0 & e0 & Hex & Hnp).
      destruct (exec_det _ _ _ _ _ _ _ _ He Hex) as (_ & _ & ->). exact Hnp. }
    exists (([Start (FindOne (input_elem this) locators.inputBox);
              Finish (FindOne (input_elem this) locators.inputBox)]
             ++ [Start (FindOne b locators.input); Finish (FindOne b locators.input)])
            ++ [Start (FindAll (input_elem this) (locators.quickPickPosition 1));
                Finish (FindAll (input_elem this) (locators.quickPickPosition 1))]
            ++ e).
    split.
    + eapply exec_trace_eq.
      * unfold Input.findQuickPick.
        eapply exec_bind; [exact Hfield|].
        eapply exec_bind; [apply exec_find_all|].
        rewrite Hfirst. simpl Nat.ltb. cbv iota.
        eapply exec_bind; [exact He|]. exact Hloop.
      * now rewrite <- !app_assoc.
    + split; [|congruence]. rewrite !page_downs_app, He0. reflexivity.
Qed.

End Pages.

Section Scan.
Variable H : Host.
Variable this : Input.
Variable key : IndexOrText.

(** A scan over quiet pages only never settles: each turn presses
    PageDown and goes on. *)
Lemma exec_while_forever f d fuel :
  (forall j, page_quiet H this key (page_after H f j d)) ->
  exists evs,
    Exec d (Input.while_not_end H fuel this (Some f) key) Pending
         (page_after H f fuel d) evs
    /\ page_downs evs = fuel
    /\ interactions evs = repeat (AddValue f (Chord ["PageDown"])) fuel.
Proof.
  intros Hquiet.
  destruct (exec_while_pages H this key f fuel d 0 Pending (page_after H f fuel d) [])
    as (e0 & He0 & Hp0 & Hi0).
  - intros j _. apply Hquiet.
  - apply exec_pending.
  - exists (e0 ++ []). split; [|split].
    + rewrite Nat.add_0_r in He0. exact He0.
    + rewrite app_nil_r. exact Hp0.
    + rewrite app_nil_r. exact Hi0.
Qed.

Lemma findQuickPick_forever d0 d b f :
  hd_error (query d0 (input_elem this) locators.inputBox) = Some b ->
  hd_error (query d0 b locators.input) = Some f ->
  scan_starts_on H this d0 d ->
  (forall j, page_quiet H this key (page_after H f j d)) ->
  forall fuel,
  exists evs,
    Exec d0 (Input.findQuickPick H fuel this key) Pending (page_after H f fuel d) evs
    /\ page_downs evs = fuel
    /\ (query d0 (input_elem this) (locators.quickPickPosition 1) <> [] ->
        interactions evs = repeat (AddValue f (Chord ["PageDown"])) fuel).
Proof.
  intros Hb Hf Hstart Hquiet fuel.
  destruct (exec_while_forever f d fuel Hquiet) as (e1 & He1 & Hp1 & Hi1).
  destruct (exec_findQuickPick_start H this key d0 d b f fuel _ _ _ Hb Hf Hstart He1)
    as (e0 & He0 & Hp0 & Hi0).
  exists (e0 ++ e1). split; [|split]; auto.
  - rewrite page_downs_app. lia.
  - intros Hne. rewrite interactions_app, (Hi0 Hne), Hi1. reflexivity.
Qed.


End Scan.



(** On the sentinel page the idle host lets [resetPosition] go through and
    changes nothing. *)
Lemma sentinel_reset :
  exists evs,
    Exec sentinel_dom (Input.resetPosition idle_host (mkInput 0)) (Resolved tt)
         sentinel_dom evs.
Proof.
  destruct (traced_resetPosition idle_host any_trace (fun c _ => I) (mkInput 0) sentinel_dom)
    as (r & e & Hex & _).
  rewrite replay_idle in Hex.
  pose proof (f_equal fst (Hex [])) as Hr. vm_compute in Hr. subst r.
  exists e. exact Hex.
Qed.

(** When no item is rendered the [for] loop has nothing to examine, the
    end test inside it is never made, and the scan pages down for ever. *)
Lemma page_quiet_without_items (H : Host) (this : Input) (key : IndexOrText) (d : Dom) :
  quickPicks H this d = [] -> page_quiet H this key d.
Proof.
  intros Hnone. unfold page_quiet, page_readable, page_match, page_end.
  rewrite Hnone. repeat split.
Qed.

(** C1, where the code misses it.  On [sentinel_dom] the last-row sentinel
    is present, so the end of the list is reached, and no quick pick is
    rendered, so there is no match: the search should resolve to
    [undefined].  The end test sits inside the loop over the rendered
    items, though, and without an item it is never made: the search does not
    settle, it is still pending whatever the number of turns allowed. *)
Theorem findQuickPick_never_settles_without_items :
  query sentinel_dom 0 locators.lastRow = [9]
  /\ quickPicks idle_host (mkInput 0) sentinel_dom = []
  /\ (forall fuel,
        fst (Input.findQuickPick idle_host fuel (mkInput 0) (ByText "gamma")
               (mkSession sentinel_dom [])) = Pending)
  /\ (forall fuel,
        page_downs (log (snd (Input.findQuickPick idle_host fuel (mkInput 0) (ByText "gamma")
                                (mkSession sentinel_dom [])))) = fuel).
Proof.
  split; [reflexivity|]. split; [reflexivity|].
  assert (Hsame : forall j, page_after idle_host 2 j sentinel_dom = sentinel_dom).
  { induction j as [|j IH]; [reflexivity|]. unfold page_after in *. simpl. exact IH. }
  assert (Hrun : forall fuel, exists evs,
             Exec sentinel_dom (Input.findQuickPick idle_host fuel (mkInput 0) (ByText "gamma"))
                  Pending (page_after idle_host 2 fuel sentinel_dom) evs
             /\ page_downs evs = fuel).
  { intros fuel.
    destruct (findQuickPick_forever idle_host (mkInput 0) (ByText "gamma")
                sentinel_dom sentinel_dom 1 2 eq_refl eq_refl) with (fuel := fuel)
      as (evs & He & Hp & _).
    - right. split; [reflexivity | exact sentinel_reset].
    - intros j. rewrite Hsame. now apply page_quiet_without_items.
    - exists evs. auto. }
  split; intros fuel; destruct (Hrun fuel) as (evs & He & Hp); rewrite (He []).
  - reflexivity.
  - exact Hp.
Qed.

(** * Further properties of the page objects *)

(** ** Input.back and Input.getTitle *)

(** Every run of [back], page by page. *)
Lemma back_runs (H : Host) (this : Input) (d : Dom) :
  (exists t b evs,
      hd_error (query d (input_elem this) locators.titleBar) = Some t
      /\ displayed d t = true
      /\ hd_error (query d t locators.backButton) = Some b
      /\ enabled d b = true
      /\ Exec d (Input.back H this) (Resolved true) (react H (Click b) d) evs
      /\ interactions evs = [Click b])
  \/ (exists evs,
        Exec d (Input.back H this) (Resolved false) d evs /\ interactions evs = []).
Proof.
  destruct (query d (input_elem this) locators.titleBar) as [|t rest] eqn:Et.
  - right. apply back_resolves_false. now left.
  - destruct (displayed d t) eqn:Eshown.
    + destruct (query d t locators.backButton) as [|b more] eqn:Eb.
      * right. apply back_resolves_false. right. exists t, rest. auto.
      * destruct (enabled d b) eqn:Een.
        -- left. destruct (back_clicks_button H this d t rest b more Et Eshown Eb Een)
             as (evs & He & Hi).
           exists t, b, evs. repeat split; auto. now rewrite Eb.
        -- right. apply back_resolves_false. right. exists t, rest. split; auto.
           right. right. exists b, more. auto.
    + right. apply back_resolves_false. right. exists t, rest. auto.
Qed.

(** X1.  [back] tells what it did.  When it resolves to [true] it has
    clicked once, on the first back button of the first title bar, that
    bar being displayed and that button enabled, and done nothing else to
    the page; when it resolves to [false] it has not interacted at all and
    the page is as it was. *)
Theorem back_result_sound (H : Host) (this : Input) (d d' : Dom) (r : bool)
        (evs : list Event) :
  Exec d (Input.back H this) (Resolved r) d' evs ->
  if r then
    exists t b,
      hd_error (query d (input_elem this) locators.titleBar) = Some t
      /\ displayed d t = true
      /\ hd_error (query d t locators.backButton) = Some b
      /\ enabled d b = true
      /\ interactions evs = [Click b]
      /\ d' = react H (Click b) d
  else interactions evs = [] /\ d' = d.
Proof.
  intros He.
  destruct (back_runs H this d) as [(t & b & e1 & Ht & Hshown & Hb & Hen & He1 & Hi) | (e1 & He1 & Hi)];
    destruct (exec_det _ _ _ _ _ _ _ _ He He1) as (Hr & -> & ->);
    inversion Hr; subst r.
  - exists t, b. repeat split; auto.
  - split; auto.
Qed.

Lemma back_result_sound_witness :
  exists evs t b,
    hd_error (query titled_input_dom 0 locators.titleBar) = Some t
    /\ displayed titled_input_dom t = true
    /\ hd_error (query titled_input_dom t locators.backButton) = Some b
    /\ enabled titled_input_dom b = true
    /\ interactions evs = [Click b]
    /\ titled_input_dom = react idle_host (Click b) titled_input_dom.
Proof.
  destruct (back_clicks_button idle_host (mkInput 0) titled_input_dom 3 [] 5 []
              eq_refl eq_refl eq_refl eq_refl) as (evs & He & _).
  exists evs.
  exact (back_result_sound idle_host (mkInput 0) titled_input_dom titled_input_dom true evs He).
Defined.

(** X2.  [getTitle] reads only.  It resolves to [undefined] when there is
    no title bar or the first one is not displayed; to the text of the
    title element of the first title bar when that bar is displayed; and it
    rejects, as the driver does, when a displayed title bar has no title
    element. *)
Theorem getTitle_outcome (H : Host) (this : Input) (d : Dom) :
  ((query d (input_elem this) locators.titleBar = []
    \/ exists t rest, query d (input_elem this) locators.titleBar = t :: rest
                      /\ displayed d t = false) ->
   exists evs,
     Exec d (Input.getTitle H this) (Resolved None) d evs /\ interactions evs = [])
  /\ (forall t rest l,
        query d (input_elem this) locators.titleBar = t :: rest ->
        displayed d t = true ->
        hd_error (query d t locators.title) = Some l ->
        exists evs,
          Exec d (Input.getTitle H this) (Resolved (Some (text d l))) d evs
          /\ interactions evs = [])
  /\ (forall t rest,
        query d (input_elem this) locators.titleBar = t :: rest ->
        displayed d t = true ->
        query d t locators.title = [] ->
        exists evs,
          Exec d (Input.getTitle H this) (Rejected ElementNotFound) d evs
          /\ interactions evs = []).
Proof.
  split; [|split].
  - intros [Hnone | (t & rest & Ht & Hhidden)].
    + eexists. split.
      * unfold Input.getTitle. eapply exec_bind; [apply exec_find_all|].
        rewrite Hnone. apply exec_ret.
      * reflexivity.
    + eexists. split.
      * unfold Input.getTitle. eapply exec_bind; [apply exec_find_all|].
        rewrite Ht. simpl.
        eapply exec_bind; [apply exec_ret|].
        eapply exec_bind; [apply exec_isDisplayed|]. rewrite Hhidden. apply exec_ret.
      * reflexivity.
  - intros t rest l Ht Hshown Hl. eexists. split.
    + unfold Input.getTitle. eapply exec_bind; [apply exec_find_all|].
      rewrite Ht. simpl.
      eapply exec_bind; [apply exec_ret|].
      eapply exec_bind; [apply exec_isDisplayed|]. rewrite Hshown.
      eapply exec_bind; [apply exec_ret|].
      eapply exec_bind; [apply exec_find_one|]. rewrite Hl.
      eapply exec_bind; [apply exec_getTextOf | apply exec_ret].
    + reflexivity.
  - intros t rest Ht Hshown Hnone. eexists. split.
    + unfold Input.getTitle. eapply exec_bind; [apply exec_find_all|].
      rewrite Ht. simpl.
      eapply exec_bind; [apply exec_ret|].
      eapply exec_bind; [apply exec_isDisplayed|]. rewrite Hshown.
      eapply exec_bind; [apply exec_ret|].
      eapply exec_bind; [apply exec_find_one|]. rewrite Hnone. simpl hd_error.
      apply exec_bind_rejected. apply exec_missing.
    + reflexivity.
Qed.

Lemma getTitle_outcome_witness :
  exists evs,
    Exec titled_input_dom (Input.getTitle idle_host (mkInput 0))
         (Resolved (Some "Pick a folder")) titled_input_dom evs
    /\ interactions evs = [].
Proof.
  apply (proj1 (proj2 (getTitle_outcome idle_host (mkInput 0) titled_input_dom)) 3 [] 4);
    reflexivity.
Defined.

(** ** Input.toggleAllQuickPicks with a checkbox *)

(** X3.  With a select-all checkbox [c] present, [toggleAllQuickPicks(state)]
    resolves and its only interactions are clicks on [c]: one if [c] was not
    selected, and one more if [state] is [false].  Deselecting all while
    nothing is selected thus clicks twice, selecting all while all is
    selected does nothing. *)
Theorem toggleAllQuickPicks_clicks (H : Host) (this : Input) (state : bool)
        (d : Dom) (c : Element) (rest : list Element) :
  query d (input_elem this) locators.quickPickSelectAll = c :: rest ->
  exists evs,
    Exec d (Input.toggleAllQuickPicks H this state) (Resolved tt)
         (after H (toggle_clicks c (selected d c) state) d) evs
    /\ interactions evs = toggle_clicks c (selected d c) state.
Proof.
  intros Hc.
  assert (Hguard : Input.no_checkboxes (c :: rest) = false)
    by (unfold Input.no_checkboxes; apply Z.ltb_ge; lia).
  destruct (selected d c) eqn:Esel, state; eexists; split.
  1, 3, 5, 7:
    unfold Input.toggleAllQuickPicks;
    (eapply exec_bind; [apply exec_find_all|]); rewrite Hc, Hguard;
    unfold Input.toggle_first;
    (eapply exec_bind; [apply exec_ret|]);
    (eapply exec_bind; [apply exec_isSelected|]); rewrite Esel; simpl negb; cbv iota.
  - eapply exec_bind; [apply exec_ret | apply exec_ret].
  - eapply exec_bind; [apply exec_ret|].
    eapply exec_bind; [apply exec_ret | apply exec_click].
  - eapply exec_bind.
    { eapply exec_bind; [apply exec_ret | apply exec_click]. }
    apply exec_ret.
  - eapply exec_bind.
    { eapply exec_bind; [apply exec_ret | apply exec_click]. }
    eapply exec_bind; [apply exec_ret | apply exec_click].
  - reflexivity.
  - reflexivity.
  - reflexivity.
  - reflexivity.
Qed.

Lemma toggleAllQuickPicks_clicks_witness :
  exists evs,
    Exec titled_input_dom (Input.toggleAllQuickPicks idle_host (mkInput 0) false)
         (Resolved tt) titled_input_dom evs
    /\ interactions evs = [Click 6; Click 6].
Proof.
  apply (toggleAllQuickPicks_clicks idle_host (mkInput 0) false titled_input_dom 6 []).
  reflexivity.
Defined.

(** ** Input.clear *)

Lemma nonempty_length v : v <> "" -> (0 <? String.length v)%nat = true.
Proof. destruct v; [congruence | reflexivity]. Qed.

(** X4.  [clear] types End, Shift+Home, Backspace into the field and looks
    at the value the field has then.  If it is empty, that was all; if it
    is not, the same three key presses are typed once more and never a
    third time, whatever is left; if the field has no value at all, the
    call rejects with a TypeError after the first round.  Without the field
    nothing is typed and the driver's rejection is passed on. *)
Theorem clear_rounds (H : Host) (this : Input) (d : Dom) :
  (field_on d this = None ->
   exists evs,
     Exec d (Input.clear H this) (Rejected ElementNotFound) d evs
     /\ interactions evs = [])
  /\ (forall f,
        field_on d this = Some f ->
        (attribute (after H (select_all_delete f) d) f "value" = Some "" ->
         exists evs,
           Exec d (Input.clear H this) (Resolved tt) (after H (select_all_delete f) d) evs
           /\ interactions evs = select_all_delete f)
        /\ (forall v,
              attribute (after H (select_all_delete f) d) f "value" = Some v ->
              v <> "" ->
              exists evs,
                Exec d (Input.clear H this) (Resolved tt)
                     (after H (select_all_delete f ++ select_all_delete f) d) evs
                /\ interactions evs = select_all_delete f ++ select_all_delete f)
        /\ (attribute (after H (select_all_delete f) d) f "value" = None ->
            exists evs,
              Exec d (Input.clear H this) (Rejected TypeError)
                   (after H (select_all_delete f) d) evs
              /\ interactions evs = select_all_delete f)).
Proof.
  destruct (exec_input_field H d this) as (e0 & He0 & Hr0).
  split.
  - intros Hnone. destruct (exec_clear_missing H d this Hnone) as (e & He & Hr).
    exists e. split; [exact He | now apply reads_only_interactions].
  - intros f Hf. rewrite (field_outcome_some d this f Hf) in He0. split; [|split].
    + intros Hv. eexists. split.
      * unfold Input.clear. eapply exec_bind; [exact He0|].
        eapply exec_bind; [apply exec_addValue|].
        eapply exec_bind; [apply exec_addValue|].
        eapply exec_bind; [apply exec_addValue|].
        eapply exec_bind; [apply exec_getAttribute|].
        unfold after, select_all_delete in Hv. simpl in Hv. rewrite Hv.
        eapply exec_bind; [apply exec_ret|]. apply exec_ret.
      * rewrite !interactions_app, (reads_only_interactions e0) by assumption. reflexivity.
    + intros v Hv Hne. eexists. split.
      * unfold Input.clear. eapply exec_bind; [exact He0|].
        eapply exec_bind; [apply exec_addValue|].
        eapply exec_bind; [apply exec_addValue|].
        eapply exec_bind; [apply exec_addValue|].
        eapply exec_bind; [apply exec_getAttribute|].
        unfold after, select_all_delete in Hv. simpl in Hv. rewrite Hv.
        eapply exec_bind; [apply exec_ret|].
        rewrite (nonempty_length v Hne).
        eapply exec_bind; [apply exec_addValue|].
        eapply exec_bind; [apply exec_addValue|].
        apply exec_addValue.
      * rewrite !interactions_app, (reads_only_interactions e0) by assumption. reflexivity.
    + intros Hv. eexists. split.
      * unfold Input.clear. eapply exec_bind; [exact He0|].
        eapply exec_bind; [apply exec_addValue|].
        eapply exec_bind; [apply exec_addValue|].
        eapply exec_bind; [apply exec_addValue|].
        eapply exec_bind; [apply exec_getAttribute|].
        unfold after, select_all_delete in Hv. simpl in Hv. rewrite Hv.
        apply exec_bind_rejected. apply exec_throw.
      * rewrite !interactions_app, (reads_only_interactions e0) by assumption. reflexivity.
Qed.

Lemma clear_rounds_witness :
  exists evs,
    Exec filled_input_dom (Input.clear erasing_host (mkInput 0)) (Resolved tt)
         bare_input_dom evs
    /\ interactions evs = select_all_delete 2.
Proof.
  apply (proj1 (proj2 (clear_rounds erasing_host (mkInput 0) filled_input_dom) 2 eq_refl)).
  reflexivity.
Defined.

(** ** The actions and the message box of a provider *)

(** X5.  [MultiScmProvider.takeAction(title)] resolves to [true] after
    clicking the first action button, in DOM order, whose [title] attribute
    equals [title], and clicks nothing else; when no action button has that
    title it resolves to [false] and does not interact with the page. *)
Theorem takeAction_clicks_first_match (H : Host) (this : ProviderObj)
        (title : string) (d : Dom) :
  (forall pre b post,
      query d (provider_elem this) locators.action = pre ++ b :: post ->
      (forall x, In x pre -> attribute d x "title" <> Some title) ->
      attribute d b "title" = Some title ->
      exists evs,
        Exec d (MultiScmProvider.takeAction H this title) (Resolved true)
             (react H (Click b) d) evs
        /\ interactions evs = [Click b])
  /\ ((forall x, In x (query d (provider_elem this) locators.action) ->
                 attribute d x "title" <> Some title) ->
      exists evs,
        Exec d (MultiScmProvider.takeAction H this title) (Resolved false) d evs
        /\ interactions evs = []).
Proof.
  split.
  - intros pre b post Hsplit Hpre Hb. eexists. split.
    + unfold MultiScmProvider.takeAction.
      eapply exec_bind; [apply exec_find_all|].
      eapply exec_bind; [apply exec_title_reads|].
      cbv zeta. rewrite Hsplit, map_app. simpl map.
      rewrite findIndex_first.
      * rewrite length_map.
        replace (-1 <? Z.of_nat (List.length pre))%Z with true
          by (symmetry; apply Z.ltb_lt; lia).
        rewrite Nat2Z.id.
        eapply exec_bind.
        { unfold at_index. rewrite nth_error_middle. apply exec_ret. }
        eapply exec_bind; [apply exec_click | apply exec_ret].
      * intros y Hy. apply in_map_iff in Hy. destruct Hy as (x & <- & Hx).
        apply js_str_eq_false. auto.
      * apply js_str_eq_true. exact Hb.
    + rewrite !interactions_app, interactions_title_reads. reflexivity.
  - intros Hnone. eexists. split.
    + unfold MultiScmProvider.takeAction.
      eapply exec_bind; [apply exec_find_all|].
      eapply exec_bind; [apply exec_title_reads|].
      cbv zeta. rewrite findIndex_none.
      * simpl. apply exec_ret.
      * intros y Hy. apply in_map_iff in Hy. destruct Hy as (x & <- & Hx).
        apply js_str_eq_false. auto.
    + rewrite !interactions_app, interactions_title_reads. reflexivity.
Qed.

Lemma takeAction_clicks_first_match_witness :
  exists evs,
    Exec actions_dom
         (MultiScmProvider.takeAction idle_host (mkProviderObj 11 (mkNewScmView 0)) "Commit")
         (Resolved true) actions_dom evs
    /\ interactions evs = [Click 51].
Proof.
  apply (proj1 (takeAction_clicks_first_match idle_host (mkProviderObj 11 (mkNewScmView 0))
                  "Commit" actions_dom) [50] 51 []).
  - reflexivity.
  - intros x [<-|[]]. discriminate.
  - reflexivity.
Defined.

(** X6.  [commitChanges(message)] works on the row that follows the
    provider: the element found in the view for the provider's [data-index]
    plus one.  It clears that element, types the message and then
    Control+Enter, in this order and nothing else; when the view has no such
    element it rejects before anything is cleared or typed. *)
Theorem commitChanges_types_into_next_row (H : Host) (this : ProviderObj)
        (message : string) (d : Dom) :
  (forall box,
      hd_error (query d (view_elem (provider_view this))
                      (locators.itemIndex
                         (js_add (data_index d (provider_elem this)) (JNum 1))))
      = Some box ->
      exists evs,
        Exec d (MultiScmProvider.commitChanges H this message) (Resolved tt)
             (after H [ClearValue box; AddValue box (Text (Some message));
                       AddValue box (Chord ["Control"; "Enter"])] d) evs
        /\ interactions evs = [ClearValue box; AddValue box (Text (Some message));
                               AddValue box (Chord ["Control"; "Enter"])])
  /\ (query d (view_elem (provider_view this))
            (locators.itemIndex (js_add (data_index d (provider_elem this)) (JNum 1)))
      = [] ->
      exists evs,
        Exec d (MultiScmProvider.commitChanges H this message)
             (Rejected ElementNotFound) d evs
        /\ interactions evs = []).
Proof.
  split.
  - intros box Hbox. eexists. split.
    + unfold MultiScmProvider.commitChanges.
      eapply exec_bind; [apply exec_number_attribute|]. cbv zeta.
      eapply exec_bind; [apply exec_find_one|].
      unfold data_index in Hbox. rewrite Hbox.
      eapply exec_bind; [apply exec_clearValue|].
      eapply exec_bind; [apply exec_addValue|].
      apply exec_addValue.
    + reflexivity.
  - intros Hnone. eexists. split.
    + unfold MultiScmProvider.commitChanges.
      eapply exec_bind; [apply exec_number_attribute|]. cbv zeta.
      eapply exec_bind; [apply exec_find_one|].
      unfold data_index in Hnone. rewrite Hnone. simpl hd_error.
      apply exec_bind_rejected. apply exec_missing.
    + reflexivity.
Qed.

Lemma commitChanges_types_into_next_row_witness :
  exists evs,
    Exec actions_dom
         (MultiScmProvider.commitChanges idle_host (mkProviderObj 11 (mkNewScmView 0)) "fix")
         (Resolved tt) actions_dom evs
    /\ interactions evs = [ClearValue 60; AddValue 60 (Text (Some "fix"));
                           AddValue 60 (Chord ["Control"; "Enter"])].
Proof.
  apply (proj1 (commitChanges_types_into_next_row idle_host
                  (mkProviderObj 11 (mkNewScmView 0)) "fix" actions_dom) 60).
  reflexivity.
Defined.

(** X7.  When the change count is positive but no staged (or unstaged)
    header row is rendered below the provider, [SingleScmProvider.getChanges]
    does not resolve to an empty list as the multi-provider variant does: the
    read of the header's [data-index] rejects, and the call with it. *)
Theorem single_getChanges_without_header (H : Host) (this : ProviderObj)
        (staged : bool) (d : Dom) :
  js_gt (providerChangeCount H d (provider_elem this) staged) (JNum 0) = true ->
  query d (provider_elem this) (if staged then locators.stagedChanges else locators.changes)
  = [] ->
  exists evs,
    Exec d (SingleScmProvider.getChanges H this staged) (Rejected ElementNotFound) d evs
    /\ interactions evs = [].
Proof.
  intros Hc Hnone.
  destruct (exec_header_query H d (provider_elem this) staged) as (e1 & He1 & Hr1).
  rewrite Hnone in He1. simpl hd_error in He1.
  eexists. split.
  - unfold SingleScmProvider.getChanges.
    eapply exec_bind; [apply exec_single_getChangeCount|]. rewrite Hc.
    apply exec_bind_rejected.
    eapply exec_bind; [exact He1|].
    apply exec_bind_rejected. unfold number_attribute.
    apply exec_bind_rejected. apply exec_missing.
  - rewrite !interactions_app, (reads_only_interactions e1) by assumption. reflexivity.
Qed.

Lemma single_getChanges_without_header_witness :
  exists evs,
    Exec headless_dom
         (SingleScmProvider.getChanges idle_host (mkProviderObj 10 (mkNewScmView 0)) true)
         (Rejected ElementNotFound) headless_dom evs
    /\ interactions evs = [].
Proof.
  apply (single_getChanges_without_header idle_host (mkProviderObj 10 (mkNewScmView 0))
           true headless_dom); reflexivity.
Defined.

(** ** NotificationsCenter.close *)

(** X8.  [close] leaves a notifications center that is not displayed alone:
    it resolves without looking for the close button and without any
    interaction.  On a displayed center it clicks the close button and
    nothing else; if that button is missing it rejects without interacting. *)
Theorem center_close_only_when_displayed (H : Host) (this : NotificationsCenter)
        (d : Dom) :
  (displayed d (center_elem this) = false ->
   Exec d (NotificationsCenter.close H this) (Resolved tt) d
        [Start (IsDisplayed (center_elem this)); Finish (IsDisplayed (center_elem this))])
  /\ (forall b,
        displayed d (center_elem this) = true ->
        hd_error (query d (center_elem this) locators.closeBtn) = Some b ->
        exists evs,
          Exec d (NotificationsCenter.close H this) (Resolved tt) (react H (Click b) d) evs
          /\ interactions evs = [Click b])
  /\ (displayed d (center_elem this) = true ->
      query d (center_elem this) locators.closeBtn = [] ->
      exists evs,
        Exec d (NotificationsCenter.close H this) (Rejected ElementNotFound) d evs
        /\ interactions evs = []).
Proof.
  split; [|split].
  - intros Hhidden. eapply exec_trace_eq.
    + unfold NotificationsCenter.close.
      eapply exec_bind; [apply exec_isDisplayed|]. rewrite Hhidden. apply exec_ret.
    + reflexivity.
  - intros b Hshown Hb. eexists. split.
    + unfold NotificationsCenter.close.
      eapply exec_bind; [apply exec_isDisplayed|]. rewrite Hshown.
      eapply exec_bind; [apply exec_find_one|]. rewrite Hb. apply exec_click.
    + reflexivity.
  - intros Hshown Hnone. eexists. split.
    + unfold NotificationsCenter.close.
      eapply exec_bind; [apply exec_isDisplayed|]. rewrite Hshown.
      eapply exec_bind; [apply exec_find_one|]. rewrite Hnone. simpl hd_error.
      apply exec_missing.
    + reflexivity.
Qed.

Lemma center_close_only_when_displayed_witness :
  exists evs,
    Exec open_center_dom (NotificationsCenter.close idle_host (mkNotificationsCenter 0))
         (Resolved tt) open_center_dom evs
    /\ interactions evs = [Click 7].
Proof.
  apply (proj1 (proj2 (center_close_only_when_displayed idle_host (mkNotificationsCenter 0)
                         open_center_dom)) 7); reflexivity.
Defined.

(** ** What findQuickPick resolves to *)

Lemma bind_exec {A B} d (m : M A) (k : A -> M B) a d1 e :
  Exec d m (Resolved a) d1 e ->
  forall l, bind m k (mkSession d l) = k a (mkSession d1 (l ++ e)).
Proof. intros Hm l. unfold bind. now rewrite Hm. Qed.

Lemma bind_exec_rejected {A B} d (m : M A) (k : A -> M B) err d1 e :
  Exec d m (Rejected err) d1 e ->
  forall l, bind m k (mkSession d l) = (Rejected err, mkSession d1 (l ++ e)).
Proof. intros Hm l. unfold bind. now rewrite Hm. Qed.

Lemma bind_resolved_inv {A B} (m : M A) (k : A -> M B) s r s' :
  bind m k s = (Resolved r, s') ->
  exists a s1, m s = (Resolved a, s1) /\ k a s1 = (Resolved r, s').
Proof.
  unfold bind. destruct (m s) as [[a|err|] s1]; intros Hrun; try discriminate.
  exists a, s1. auto.
Qed.

Section ScanResult.
Variable H : Host.
Variable this : Input.
Variable key : IndexOrText.

Lemma exec_is_match_unreadable d pick :
  readable d key pick = false ->
  exists evs, Exec d (Input.is_match H key pick) (Rejected ElementNotFound) d evs.
Proof.
  unfold readable, label_on, Input.is_match. destruct key as [s|n]; [|discriminate].
  destruct (hd_error (query d (item_elem pick) locators.quickPickLabel)) as [l|] eqn:El;
    [discriminate|].
  intros _. eexists. apply exec_bind_rejected. unfold QuickPickItem.getLabel.
  eapply exec_bind; [apply exec_find_one|]. rewrite El. apply exec_missing.
Qed.

(** What the [for] loop hands back when it completes. *)
Lemma for_picks_resolved d : forall picks endReached l fr s',
  Input.for_picks H this key picks endReached (mkSession d l) = (Resolved fr, s') ->
  dom s' = d
  /\ match fr with
     | Input.Return p => In p picks /\ matches d key p = true
     | Input.Done e =>
         find (matches d key) picks = None
         /\ e = existsb (sees_end d this) picks || endReached
     end.
Proof.
  induction picks as [|pick picks IH]; intros endReached l fr s' Hrun.
  - simpl in Hrun. unfold ret in Hrun. inversion Hrun; subst. simpl. auto.
  - rewrite for_picks_unfold in Hrun.
    destruct (exec_end_test H this d pick endReached) as (e1 & He1 & _).
    rewrite (bind_exec _ _ _ _ _ _ He1) in Hrun.
    destruct (readable d key pick) eqn:Er.
    + destruct (exec_is_match H key d pick Er) as (e2 & He2 & _).
      rewrite (bind_exec _ _ _ _ _ _ He2) in Hrun.
      simpl find. simpl existsb.
      destruct (matches d key pick) eqn:Em.
      * unfold ret in Hrun. inversion Hrun; subst. simpl. auto.
      * apply IH in Hrun. destruct Hrun as [Hd Hfr]. split; auto.
        destruct fr as [p|e].
        -- destruct Hfr. split; auto. now right.
        -- destruct Hfr as [Hf ->]. split; auto.
           destruct (sees_end d this pick), (existsb (sees_end d this) picks), endReached;
             reflexivity.
    + destruct (exec_is_match_unreadable d pick Er) as (e2 & He2).
      rewrite (bind_exec_rejected _ _ _ _ _ _ He2) in Hrun. discriminate.
Qed.

Lemma while_not_end_resolved field : forall fuel d l r s',
  Input.while_not_end H fuel this field key (mkSession d l) = (Resolved r, s') ->
  match r with
  | Some p => In p (quickPicks H this (dom s')) /\ matches (dom s') key p = true
  | None => page_match H this key (dom s') = None /\ page_end H this (dom s') = true
  end.
Proof.
  induction fuel as [|fuel IH]; intros d l r s' Hrun; [discriminate|].
  simpl in Hrun.
  rewrite (bind_exec _ _ _ _ _ _ (exec_getQuickPicks H this d)) in Hrun.
  apply bind_resolved_inv in Hrun. destruct Hrun as (fr & s2 & Hfor & Hrest).
  apply for_picks_resolved in Hfor. destruct Hfor as [Hd Hfr].
  destruct fr as [p|[|]].
  - unfold ret in Hrest. inversion Hrest; subst. exact Hfr.
  - unfold ret in Hrest. inversion Hrest; subst. destruct Hfr as [Hnone Hend].
    split; [exact Hnone|]. unfold page_end. rewrite Bool.orb_false_r in Hend. auto.
  - apply bind_resolved_inv in Hrest. destruct Hrest as (u & s3 & _ & Hloop).
    destruct s3 as [d3 l3]. apply IH in Hloop. exact Hloop.
Qed.

End ScanResult.

(** X9.  Whatever the page and the host do, a search that resolves is
    right about the page it ends on: an item [findQuickPick] resolves to is
    one of the items rendered on that page and matches the key there (its
    label contains the text, or its index is the number asked for); and when
    it resolves to [undefined], no item rendered on that page matches and
    the end was marked on it. *)
Theorem findQuickPick_result_sound (H : Host) (fuel : nat) (this : Input)
        (key : IndexOrText) (s s' : Session) (r : option QuickPickItem) :
  Input.findQuickPick H fuel this key s = (Resolved r, s') ->
  match r with
  | Some p => In p (quickPicks H this (dom s')) /\ matches (dom s') key p = true
  | None => page_match H this key (dom s') = None /\ page_end H this (dom s') = true
  end.
Proof.
  unfold Input.findQuickPick. intros Hrun.
  apply bind_resolved_inv in Hrun. destruct Hrun as (field & s1 & _ & Hrun).
  apply bind_resolved_inv in Hrun. destruct Hrun as (first & s2 & _ & Hrun).
  apply bind_resolved_inv in Hrun. destruct Hrun as (u & s3 & _ & Hrun).
  destruct s3 as [d3 l3].
  exact (while_not_end_resolved H this key field fuel d3 l3 r s' Hrun).
Qed.

Lemma findQuickPick_result_sound_witness :
  In (mkQuickPickItem (JNum 2) 12 (mkInput 0)) (quickPicks paging_host (mkInput 0) second_page)
  /\ matches second_page (ByText "gamma") (mkQuickPickItem (JNum 2) 12 (mkInput 0)) = true.
Proof.
  exact (findQuickPick_result_sound paging_host 2 (mkInput 0) (ByText "gamma")
           (mkSession first_page [])
           (snd (Input.findQuickPick paging_host 2 (mkInput 0) (ByText "gamma")
                   (mkSession first_page [])))
           (Some (mkQuickPickItem (JNum 2) 12 (mkInput 0))) eq_refl).
Defined.

(** ** Traces of the typing methods *)

Lemma clipboard_writes_app a b :
  clipboard_writes (a ++ b) = clipboard_writes a ++ clipboard_writes b.
Proof.
  induction a as [|[c|c] a IH]; simpl; auto.
  destruct c; simpl; now rewrite ?IH.
Qed.

#[export] Instance no_click_inv : TraceInv no_click.
Proof.
  split; [reflexivity|]. unfold no_click. intros a b Ha Hb.
  now rewrite clicks_app, Ha, Hb.
Qed.

#[export] Instance no_clipboard_inv : TraceInv no_clipboard.
Proof.
  split; [reflexivity|]. unfold no_clipboard. intros a b Ha Hb.
  now rewrite clipboard_writes_app, Ha, Hb.
Qed.

Lemma reads_only_clipboard evs : reads_only evs -> clipboard_writes evs = [].
Proof.
  induction 1 as [|[c|c] evs Hc _ IH]; simpl in *; auto.
  destruct c; simpl in *; auto; discriminate.
Qed.

(** Methods that only read and type into the field, PageDown apart. *)
Section Typing.
Variable H : Host.
Context (P : list Event -> Prop) `{TraceInv P}.
Hypothesis P_read : forall c, is_interaction c = false -> P [Start c; Finish c].
Hypothesis P_chord : forall e ks,
  is_page_down (AddValue e (Chord ks)) = false ->
  P [Start (AddValue e (Chord ks)); Finish (AddValue e (Chord ks))].
Hypothesis P_text : forall e t,
  P [Start (AddValue e (Text t)); Finish (AddValue e (Text t))].

Ltac typing :=
  traced_with ltac:(first [ apply P_read; reflexivity
                          | apply P_chord; reflexivity
                          | apply P_text ]).

Lemma typed_input_field this : Traced H P (Input.input_field H this).
Proof. unfold Input.input_field. typing. Qed.

Lemma typed_getText this : Traced H P (Input.getText H this).
Proof. pose proof (typed_input_field this). unfold Input.getText. typing. Qed.

Lemma typed_clear this : Traced H P (Input.clear H this).
Proof. pose proof (typed_input_field this). unfold Input.clear. typing. Qed.

(** [setText] up to the point where the value is read back. *)
Lemma typed_setText_typing this field text :
  Traced H P
         (Input.clear H this ;;;
          await H (mkRequest (Sleep 200) (fun _ => Resolved tt)) ;;;
          v <- Input.getText H this ;;
          n <- length_of v ;;
          (if (0 <? n)%nat then addValue H field (Chord ["End"; "Shift"; "Home"])
           else ret tt) ;;;
          addValue H field (Text text) ;;;
          Input.getText H this).
Proof. pose proof (typed_clear this). pose proof (typed_getText this). typing. Qed.

Hypothesis P_clipboard : forall s,
  P [Start (ClipboardWrite s); Finish (ClipboardWrite s)].



End Typing.

(** The whole search: reads and key presses, PageDown included. *)
Section Scanning.
Variable H : Host.
Context (P : list Event -> Prop) `{TraceInv P}.
Hypothesis P_read : forall c, is_interaction c = false -> P [Start c; Finish c].
Hypothesis P_keys : forall e v, P [Start (AddValue e v); Finish (AddValue e v)].
Hypothesis P_clipboard : forall s,
  P [Start (ClipboardWrite s); Finish (ClipboardWrite s)].







End Scanning.


Lemma no_clipboard_pair c : is_clipboard c = false -> no_clipboard [Start c; Finish c].
Proof. destruct c; try reflexivity. discriminate. Qed.



(** ** Input.selectQuickPick *)



(** ** Input.setText and the clipboard *)

Section Clipboard.
Variable H : Host.

(** A computation that leaves the clipboard alone, followed by one whose
    trace has property [Q]. *)
Lemma traced_bind_prefix {A B} (Q : list Event -> Prop) (m : M A) (k : A -> M B) :
  (forall e, no_clipboard e -> Q e) ->
  (forall e1 e2, no_clipboard e1 -> Q e2 -> Q (e1 ++ e2)) ->
  Traced H no_clipboard m -> (forall a, Traced H Q (k a)) -> Traced H Q (bind m k).
Proof.
  intros Hweak Happ Hm Hk d. destruct (Hm d) as ([a|err|] & e1 & He1 & HP1).
  - destruct (Hk a (replay H e1 d)) as (r & e2 & He2 & HQ2).
    exists r, (e1 ++ e2). split; [|now apply Happ].
    rewrite replay_app. eapply exec_bind; eauto.
  - exists (Rejected err), e1. split; auto. now apply exec_bind_rejected.
  - exists Pending, e1. split; auto. now apply exec_bind_pending.
Qed.

Lemma restored_weaken text e : no_clipboard e -> clipboard_restored text e.
Proof. intros He. now left. Qed.

Lemma restored_prefix text e1 e2 :
  no_clipboard e1 -> clipboard_restored text e2 -> clipboard_restored text (e1 ++ e2).
Proof.
  unfold no_clipboard, clipboard_restored. intros H1 H2.
  rewrite clipboard_writes_app, H1. exact H2.
Qed.

Lemma no_clipboard_read c : is_interaction c = false -> no_clipboard [Start c; Finish c].
Proof. intros Hc. apply no_clipboard_pair. destruct c; try reflexivity; discriminate. Qed.

Lemma no_clipboard_chord e ks :
  is_page_down (AddValue e (Chord ks)) = false ->
  no_clipboard [Start (AddValue e (Chord ks)); Finish (AddValue e (Chord ks))].
Proof. reflexivity. Qed.

Lemma no_clipboard_text e t :
  no_clipboard [Start (AddValue e (Text t)); Finish (AddValue e (Text t))].
Proof. reflexivity. Qed.

(** The fallback: the text goes to the clipboard, is pasted over the
    selected content, and the clipboard is emptied. *)
Lemma fallback_restores f text :
  Traced H (clipboard_restored text)
         (await H (mkRequest (ClipboardWrite text) (fun _ => Resolved tt)) ;;;
          addValue H (Some f) (Chord ["End"]) ;;;
          addValue H (Some f) (Chord ["Shift"; "Home"]) ;;;
          addValue H (Some f) (Chord ["Control"; "v"]) ;;;
          await H (mkRequest (ClipboardWrite (Some "")) (fun _ => Resolved tt))).
Proof.
  intros d.
  exists (Resolved tt),
    ([Start (ClipboardWrite text); Finish (ClipboardWrite text)]
     ++ [Start (AddValue f (Chord ["End"])); Finish (AddValue f (Chord ["End"]))]
     ++ [Start (AddValue f (Chord ["Shift"; "Home"]));
         Finish (AddValue f (Chord ["Shift"; "Home"]))]
     ++ [Start (AddValue f (Chord ["Control"; "v"]));
         Finish (AddValue f (Chord ["Control"; "v"]))]
     ++ [Start (ClipboardWrite (Some "")); Finish (ClipboardWrite (Some ""))]).
  split; [|right; reflexivity].
  eapply exec_bind;
    [apply (exec_await H d (mkRequest (ClipboardWrite text) (fun _ => Resolved tt)))|].
  eapply exec_bind; [apply exec_addValue|].
  eapply exec_bind; [apply exec_addValue|].
  eapply exec_bind; [apply exec_addValue|].
  apply (exec_await H _ (mkRequest (ClipboardWrite (Some "")) (fun _ => Resolved tt))).
Qed.

Lemma setText_with_field this f text :
  Traced H (clipboard_restored text)
         (Input.clear H this ;;;
          await H (mkRequest (Sleep 200) (fun _ => Resolved tt)) ;;;
          v <- Input.getText H this ;;
          n <- length_of v ;;
          (if (0 <? n)%nat then addValue H (Some f) (Chord ["End"; "Shift"; "Home"])
           else ret tt) ;;;
          addValue H (Some f) (Text text) ;;;
          v' <- Input.getText H this ;;
          if negb (js_str_eq v' text) then
            await H (mkRequest (ClipboardWrite text) (fun _ => Resolved tt)) ;;;
            addValue H (Some f) (Chord ["End"]) ;;;
            addValue H (Some f) (Chord ["Shift"; "Home"]) ;;;
            addValue H (Some f) (Chord ["Control"; "v"]) ;;;
            await H (mkRequest (ClipboardWrite (Some "")) (fun _ => Resolved tt))
          else ret tt).
Proof.
  pose proof (typed_clear H no_clipboard no_clipboard_read no_clipboard_chord this)
    as Hclear.
  pose proof (typed_getText H no_clipboard no_clipboard_read this) as HgetText.
  apply traced_bind_prefix;
    [apply restored_weaken | apply restored_prefix | exact Hclear | intros _].
  apply traced_bind_prefix;
    [apply restored_weaken | apply restored_prefix
    | apply traced_await; reflexivity | intros _].
  apply traced_bind_prefix;
    [apply restored_weaken | apply restored_prefix | exact HgetText | intros v].
  apply traced_bind_prefix;
    [apply restored_weaken | apply restored_prefix | | intros n].
  { destruct v; [apply traced_ret | apply traced_throw]; typeclasses eauto. }
  apply traced_bind_prefix;
    [apply restored_weaken | apply restored_prefix | | intros _].
  { destruct (0 <? n)%nat.
    - apply traced_await; reflexivity.
    - apply traced_ret; typeclasses eauto. }
  apply traced_bind_prefix;
    [apply restored_weaken | apply restored_prefix
    | apply traced_await; reflexivity | intros _].
  apply traced_bind_prefix;
    [apply restored_weaken | apply restored_prefix | exact HgetText | intros v'].
  destruct (negb (js_str_eq v' text)).
  - apply fallback_restores.
  - intros d. exists (Resolved tt), []. split; [apply exec_ret | now left].
Qed.

End Clipboard.

(** Every run of [setText], as far as the commands are answered. *)
Lemma setText_clipboard (H : Host) (this : Input) (text : option string) (d : Dom) :
  exists r d' evs,
    Exec d (Input.setText H this text) r d' evs
    /\ clipboard_restored text evs.
Proof.
  destruct (exec_input_field H d this) as (e0 & He0 & Hr0).
  destruct (field_on d this) as [f|] eqn:Ef.
  - rewrite (field_outcome_some d this f Ef) in He0.
    destruct (setText_with_field H this f text d) as (r & e1 & He1 & Hq).
    exists r, (replay H e1 d), (e0 ++ e1). split.
    + unfold Input.setText. eapply exec_bind; [exact He0|]. exact He1.
    + apply restored_prefix; auto. now apply reads_only_clipboard.
  - destruct (field_outcome_none d this Ef) as [E|E]; rewrite E in He0.
    + destruct (exec_clear_missing H d this Ef) as (e1 & He1 & Hr1).
      exists (Rejected ElementNotFound), d, (e0 ++ e1). split.
      * unfold Input.setText. eapply exec_bind; [exact He0|].
        apply exec_bind_rejected. exact He1.
      * left. rewrite clipboard_writes_app.
        now rewrite (reads_only_clipboard e0), (reads_only_clipboard e1).
    + exists (Rejected ElementNotFound), d, e0. split.
      * unfold Input.setText. now apply exec_bind_rejected.
      * left. now apply reads_only_clipboard.
Qed.

(** X11.  A [setText] that resolves has either left the clipboard alone,
    or written the text to it (the fallback taken when the value read back
    differs from the text) and, after pasting, the empty string: those two
    writes in this order and no other.  So when [setText] resolves, its
    text is not left on the clipboard. *)
Theorem setText_restores_clipboard (H : Host) (this : Input) (text : option string)
        (d d' : Dom) (evs : list Event) :
  Exec d (Input.setText H this text) (Resolved tt) d' evs ->
  clipboard_restored text evs.
Proof.
  intros He.
  destruct (setText_clipboard H this text d) as (r & d1 & e1 & He1 & Hq).
  destruct (exec_det _ _ _ _ _ _ _ _ He He1) as (_ & _ & ->). exact Hq.
Qed.

Lemma setText_restores_clipboard_witness :
  clipboard_restored
    (Some "abc")
    (log (snd (Input.setText idle_host (mkInput 0) (Some "abc")
                 (mkSession bare_input_dom [])))).
Proof.
  apply (setText_restores_clipboard idle_host (mkInput 0) (Some "abc") bare_input_dom
           (dom (snd (Input.setText idle_host (mkInput 0) (Some "abc")
                        (mkSession bare_input_dom []))))).
  exact (exec_of_run idle_host any_trace _ bare_input_dom
           (traced_setText idle_host any_trace (fun _ _ => I) (mkInput 0) (Some "abc"))).
Defined.

(** On the idle host the field keeps its empty value whatever is typed, so
    the fallback is taken. *)
Example setText_fallback_sample :
  clipboard_writes (log (snd (Input.setText idle_host (mkInput 0) (Some "abc")
                                (mkSession bare_input_dom []))))
  = [Some "abc"; Some ""].
Proof. reflexivity. Qed.
